(** * The windowed multi-model forecast-selection engine

    A shallow embedding of [app/core/training.py]
    ([flatten_forecast_data] and [train_and_forecast_by_authority]) together
    with the properties its specification states about it.

    Conventions of the embedding.
    - A numeric cell of a pandas frame is an [option Q]: [None] is NaN, and
      arithmetic on the present values is exact.
    - A row keeps the three structural columns ([RegionName], [Date],
      [period]) as typed fields and every other column in a finite map from
      column name to value; a key that is absent from the map is a NaN cell.
    - Python exceptions are values of [Exception]; code that may raise
      returns a [result].
    - The regressors (TabPFN, CatBoost, LightGBM) are external: fitting and
      predicting are parameters of the development. *)

From Stdlib Require Import ZArith QArith Qabs Qround String Ascii List Lia Lqa DecimalString.
From stdpp Require Import base gmap strings list.

Close Scope Q_scope.
Open Scope Z_scope.

(** ** Exceptions and results *)

(** [time_window] is an integer number of years or Python's [None]. *)
Definition Window := option Z.

Inductive PropertyType :=
| SemiDetachedIndex | DetachedIndex | TerracedIndex | FlatIndex.

Inductive ModelFamily := TabPFN | CatBoost | LightGBM.

#[global] Instance PropertyType_eq_dec : EqDecision PropertyType.
Proof. solve_decision. Defined.
#[global] Instance ModelFamily_eq_dec : EqDecision ModelFamily.
Proof. solve_decision. Defined.

Inductive Exception :=
| NoDataProvided                                            (* line 41 *)
| NoDataForAuthority (authority : string)                   (* line 70 *)
| MissingPropertyType (p : PropertyType) (authority : string) (* line 76 *)
| NotEnoughData (p : PropertyType) (authority : string) (w : Window) (* line 94 *)
| NotEnoughDataAfterLag (p : PropertyType) (authority : string) (w : Window) (* line 105 *)
| NoValidModel (p : PropertyType) (authority : string)      (* line 142 *)
| KeyError (column : string)          (* pandas: selecting an absent column *)
| IndexError                          (* [iloc[-1]] / [[0]] on an empty sequence *)
| InvalidMetricInput                  (* sklearn: empty, NaN or ragged targets *)
| FileExistsError (path : string).    (* os.makedirs on an existing regular file *)

Inductive result (A : Type) :=
| Ok (a : A)
| Raise (e : Exception).
Arguments Ok {A} a.
Arguments Raise {A} e.

Definition bind {A B} (r : result A) (k : A -> result B) : result B :=
  match r with
  | Ok a => k a
  | Raise e => Raise e
  end.

Notation "x <- r ;; k" := (bind r (fun x => k))
  (at level 100, r at next level, right associativity).

Definition is_Ok {A} (r : result A) : bool :=
  match r with
  | Ok _ => true
  | Raise _ => false
  end.

(** A loop whose body may raise: the first exception ends it. *)
Fixpoint for_each {S X} (body : S -> X -> result S) (xs : list X) (s : S)
  : result S :=
  match xs with
  | [] => Ok s
  | x :: xs' => s' <- body s x ;; for_each body xs' s'
  end.


(** ** Strings *)

Definition str_of_Z (n : Z) : string := NilZero.string_of_int (Z.to_int n).

Definition prop_name (p : PropertyType) : string :=
  match p with
  | SemiDetachedIndex => "SemiDetachedIndex"
  | DetachedIndex => "DetachedIndex"
  | TerracedIndex => "TerracedIndex"
  | FlatIndex => "FlatIndex"
  end.

Definition model_name (m : ModelFamily) : string :=
  match m with
  | TabPFN => "TabPFN"
  | CatBoost => "CatBoost"
  | LightGBM => "LightGBM"
  end.

(** [f"{time_window if time_window else 'all'}"]: [None] and [0] are falsy. *)
Definition window_label (w : Window) : string :=
  match w with
  | Some y => if y =? 0 then "all" else str_of_Z y
  | None => "all"
  end.

(** ** Dates *)

(** A calendar date, the parsed form of a ['%Y-%m-%d'] string. *)
Record date := { d_year : Z; d_month : Z; d_day : Z }.

(** [dt.to_period('M').dt.to_timestamp()] is midnight of the first day of
    the month: such a timestamp is its year and month. *)
Record Timestamp := { year : Z; month : Z }.

Definition to_period_M (d : date) : Timestamp :=
  {| year := d_year d; month := d_month d |}.

(** Timestamp comparison [a <= b] (year first, then month). *)
Definition ts_le (a b : Timestamp) : bool :=
  (year a <? year b) || ((year a =? year b) && (month a <=? month b)).

(** [t - pd.DateOffset(years=n)]: same month, [n] years earlier (the day is
    the first, so no end-of-month clipping occurs). *)
Definition minus_years (t : Timestamp) (n : Z) : Timestamp :=
  {| year := year t - n; month := month t |}.

(** [t + pd.DateOffset(months=1)]. *)
Definition plus_one_month (t : Timestamp) : Timestamp :=
  if month t =? 12 then {| year := year t + 1; month := 1 |}
  else {| year := year t; month := month t + 1 |}.

(** Zero padding of a non-negative number to [width] digits. *)
Definition zero_pad (width : nat) (n : Z) : string :=
  let s := str_of_Z n in
  String.concat "" (replicate (width - String.length s) "0"%string) +:+ s.

(** [strftime('%m/%Y')]. *)
Definition strftime_m_Y (t : Timestamp) : string :=
  zero_pad 2 (month t) +:+ "/" +:+ zero_pad 4 (year t).

(** [strftime("%Y-%m-%d")]. *)
Definition strftime_Y_m_d (d : date) : string :=
  zero_pad 4 (d_year d) +:+ "-" +:+ zero_pad 2 (d_month d) +:+ "-"
  +:+ zero_pad 2 (d_day d).

(** Months elapsed since year 0, used to state calendar facts. *)
Definition month_index (t : Timestamp) : Z := 12 * year t + (month t - 1).

Definition valid_ts (t : Timestamp) : Prop := 1 <= month t <= 12.

(** ** Frames *)

Abbreviation cell := (option Q).

(** One input record: a dict with a ['Date'], a ['RegionName'] and numeric
    fields. *)
Record Record_ := {
  in_Date : date;
  in_RegionName : string;
  in_fields : gmap string Q
}.

Record Row := {
  RegionName : string;
  Date : date;
  period : Timestamp;
  cells : gmap string Q
}.

(** A frame: its non-structural column labels and its rows in order. *)
Record DataFrame := {
  columns : list string;
  rows : list Row
}.

Definition structural : list string := ["Date"; "RegionName"; "period"]%string.

(** Append [c] to the labels [cs] unless it is already one of them. *)
Definition add_label (cs : list string) (c : string) : list string :=
  if bool_decide (c ∈ cs) then cs else cs ++ [c].

(** The numeric fields of a record. A dict has one value per key, and
    [assign(period=...)] overwrites a ['period'] field: the structural
    names never label a numeric column. *)
Definition numeric_fields (r : Record_) : gmap string Q :=
  filter (fun kv => kv.1 ∉ structural) (in_fields r).

(** [pd.DataFrame(data).assign(period=...)]: the columns are the union of
    the records' keys. *)
Definition make_frame (data : list Record_) : DataFrame :=
  {| columns :=
       foldl (fun cs r => foldl add_label cs (map fst (map_to_list (numeric_fields r))))
             [] data;
     rows :=
       map (fun r => {| RegionName := in_RegionName r;
                        Date := in_Date r;
                        period := to_period_M (in_Date r);
                        cells := numeric_fields r |}) data |}.

Definition with_rows (df : DataFrame) (rs : list Row) : DataFrame :=
  {| columns := columns df; rows := rs |}.

(** [len(df)] *)
Definition len (df : DataFrame) : Z := Z.of_nat (length (rows df)).

(** [df[col]] for a numeric column. *)
Definition getitem (df : DataFrame) (col : string) : result (list cell) :=
  if bool_decide (col ∈ columns df)
  then Ok (map (fun r => cells r !! col) (rows df))
  else Raise (KeyError col).

(** [series.shift(k)]: values move down by [k] rows, NaN enters on top. *)
Definition shift (k : nat) (s : list cell) : list cell :=
  take (length s) (replicate k None ++ s).

Definition set_cell (r : Row) (name : string) (v : cell) : Row :=
  {| RegionName := RegionName r; Date := Date r; period := period r;
     cells := match v with
              | Some q => <[name := q]> (cells r)
              | None => delete name (cells r)
              end |}.
Arguments set_cell : simpl never.

(** [df[name] = s] *)
Definition setitem (df : DataFrame) (name : string) (s : list cell) : DataFrame :=
  {| columns := add_label (columns df) name;
     rows := zip_with (fun r v => set_cell r name v) (rows df) s |}.

Definition complete (cols : list string) (r : Row) : bool :=
  forallb (fun c => bool_decide (is_Some (cells r !! c))) cols.

(** [df.dropna()]: keep the rows without any NaN. *)
Definition dropna (df : DataFrame) : DataFrame :=
  with_rows df (List.filter (complete (columns df)) (rows df)).

(** [df[df['RegionName'] == authority]] *)
Definition select_region (df : DataFrame) (authority : string) : DataFrame :=
  with_rows df (List.filter (fun r => bool_decide (RegionName r = authority)) (rows df)).

(** [df['RegionName'].unique()]: distinct values in order of appearance. *)
Fixpoint unique (l : list string) : list string :=
  match l with
  | [] => []
  | x :: l' => x :: List.filter (fun y => negb (bool_decide (y = x))) (unique l')
  end.

(** [df.sort_values('period')]; rows of one month keep their order (the
    data has one row per authority and month). *)
Fixpoint insert_sorted (r : Row) (l : list Row) : list Row :=
  match l with
  | [] => [r]
  | x :: l' => if ts_le (period x) (period r) then x :: insert_sorted r l'
               else r :: l
  end.

Definition sort_rows (l : list Row) : list Row :=
  foldl (fun acc r => insert_sorted r acc) [] l.

Definition sort_values_period (df : DataFrame) : DataFrame :=
  with_rows df (sort_rows (rows df)).

(** ** Positional access *)

(** The position a Python slice bound [n] denotes in a sequence of length
    [l]: negative bounds count from the end. *)
Definition slice_pos (n : Z) (l : nat) : nat :=
  if n <? 0 then Z.to_nat (Z.max 0 (Z.of_nat l + n)) else Z.to_nat n.

(** [x.iloc[:n]] and [x.iloc[n:]] *)
Definition iloc_to {A} (x : list A) (n : Z) : list A := take (slice_pos n (length x)) x.
Definition iloc_from {A} (x : list A) (n : Z) : list A := drop (slice_pos n (length x)) x.

(** [x.iloc[-1]] and [x[0]] *)
Definition iloc_last {A} (x : list A) : result A :=
  match last x with
  | Some a => Ok a
  | None => Raise IndexError
  end.

Definition item0 {A} (x : list A) : result A :=
  match x with
  | a :: _ => Ok a
  | [] => Raise IndexError
  end.

(** ** Error metrics (sklearn.metrics) *)

(** [np.finfo(np.float64).eps] *)
Definition float_eps : Q := (1 # 4503599627370496)%Q.

Definition Qmax (a b : Q) : Q := if Qle_bool a b then b else a.

Definition Qsum (l : list Q) : Q := foldr Qplus 0%Q l.

(** [np.average] of a non-empty sequence. *)
Definition average (l : list Q) : Q := (Qsum l / inject_Z (Z.of_nat (length l)))%Q.

(** Input validation shared by the metrics: both targets have the same,
    non-zero number of samples and no NaN. The result pairs each actual
    value with its prediction. *)
Fixpoint paired (y_true : list cell) (y_pred : list Q) : result (list (Q * Q)) :=
  match y_true, y_pred with
  | [], [] => Ok []
  | Some a :: t, p :: t' => rest <- paired t t' ;; Ok ((a, p) :: rest)
  | _, _ => Raise InvalidMetricInput
  end.

Definition check_targets (y_true : list cell) (y_pred : list Q) : result (list (Q * Q)) :=
  match y_true with
  | [] => Raise InvalidMetricInput
  | _ => paired y_true y_pred
  end.

(** [mean(abs(y_pred - y_true) / maximum(abs(y_true), eps))] *)
Definition mean_absolute_percentage_error (y_true : list cell) (y_pred : list Q)
  : result Q :=
  ap <- check_targets y_true y_pred ;;
  Ok (average (map (fun x => (Qabs (x.2 - x.1) / Qmax (Qabs x.1) float_eps)%Q) ap)).

(** [mean(abs(y_pred - y_true))] *)
Definition mean_absolute_error (y_true : list cell) (y_pred : list Q) : result Q :=
  ap <- check_targets y_true y_pred ;;
  Ok (average (map (fun x => Qabs (x.2 - x.1)) ap)).

(** [a < b] on floats, where [None] is [float('inf')]. *)
Definition lt_float (a : Q) (b : option Q) : bool :=
  match b with
  | None => true
  | Some b' => negb (Qle_bool b' a)
  end.

(** ** Rounding *)

(** Round to the nearest integer, ties to the even one. *)
Definition rint (x : Q) : Z :=
  let f := Qfloor x in
  match ((x - inject_Z f) ?= (1 # 2))%Q with
  | Lt => f
  | Gt => f + 1
  | Eq => if Z.even f then f else f + 1
  end.

(** [round(x, ndigits)] *)
Definition round (x : Q) (ndigits : nat) : Q :=
  (inject_Z (rint (x * inject_Z (10 ^ Z.of_nat ndigits)))
   / inject_Z (10 ^ Z.of_nat ndigits))%Q.

(** ** The file system *)

Inductive Node := RegularFile | Directory.

Abbreviation FileSystem := (gmap string Node).

(** [os.path.exists] *)
Definition path_exists (fs : FileSystem) (p : string) : bool :=
  bool_decide (is_Some (fs !! p)).

(** [os.makedirs(p, exist_ok=True)]. Only the leaf directory is tracked:
    the run never asks for a parent of [model_dir]. *)
Definition makedirs (p : string) (fs : FileSystem) : result FileSystem :=
  match fs !! p with
  | Some Directory => Ok fs
  | Some RegularFile => Raise (FileExistsError p)
  | None => Ok (<[p := Directory]> fs)
  end.

Fixpoint ends_with_slash (s : string) : bool :=
  match s with
  | EmptyString => false
  | String c EmptyString => bool_decide (c = "/"%char)
  | String _ s' => ends_with_slash s'
  end.

(** [os.path.join(a, b)] (posix) *)
Definition path_join (a b : string) : string :=
  if String.prefix "/" b then b
  else if bool_decide (a = ""%string) || ends_with_slash a then a +:+ b
  else a +:+ "/" +:+ b.

(** [os.path.join(model_dir, f"{authority}_{prop_type}_{model_name}_{window or 'all'}_model.pkl")] *)
Definition artifact_path (model_dir authority : string) (p : PropertyType)
    (m : ModelFamily) (w : Window) : string :=
  path_join model_dir
    (authority +:+ "_" +:+ prop_name p +:+ "_" +:+ model_name m +:+ "_"
     +:+ window_label w +:+ "_model.pkl").

(** ** Catalogues *)

Definition feature_cols : list string := [
  "cpi_rate"; "cpih_rate"; "bank_rate"; "unemployment_rate"; "population";
  "New dwellings Price"; "New dwellings average advance";
  "New dwellings average recorded income of borrowers";
  "Other dwellings Price"; "Other dwellings average advance";
  "Other dwellings average recorded income of borrowers";
  "All dwellings Price"; "All dwellings average advance";
  "All dwellings average recorded income of borrowers";
  "First time buyers Price"; "First time buyers average advance";
  "First time buyers average recorded income of borrowers";
  "Former owner occupiers Price"; "Former owner occupiers average advance";
  "Former owner occupiers average recorded income of borrowers"
]%string.

Definition default_property_types : list PropertyType :=
  [SemiDetachedIndex; DetachedIndex; TerracedIndex; FlatIndex].

Definition time_windows : list Window := [Some 5; Some 10; Some 15; Some 20; None].

Definition lags : list Z := [1; 2; 3].

(** The keys of the [models] dict, in insertion order. *)
Definition model_families : list ModelFamily := [TabPFN; CatBoost; LightGBM].

(** Every (window, family) combination in the order of the two loops. *)
Definition combinations : list (Window * ModelFamily) :=
  flat_map (fun w => map (pair w) model_families) time_windows.

(** ** Feature lagging and windows *)

(** [f'{col}_lag{lag}'] *)
Definition lag_name (col : string) (lag : Z) : string :=
  col +:+ "_lag" +:+ str_of_Z lag.

(** [df[f'{col}_lag{lag}'] = df[col].shift(lag)] *)
Definition add_lag (col : string) (df : DataFrame) (lag : Z) : result DataFrame :=
  s <- getitem df col ;;
  Ok (setitem df (lag_name col lag) (shift (Z.to_nat lag) s)).

(** Lines 99-101 (and 145-147): the two nested loops. *)
Definition add_lags (all_features : list string) (df : DataFrame) : result DataFrame :=
  for_each (fun df col => for_each (add_lag col) lags df) all_features df.

(** [[f'{col}_lag{lag}' for col in all_features for lag in [1, 2, 3]]] *)
Definition lag_feature_names (all_features : list string) : list string :=
  flat_map (fun col => map (lag_name col) lags) all_features.

(** The (column, lag) pairs in the order of the two loops, and the label
    each one is assigned to. *)
Definition lag_pairs (cols : list string) : list (string * Z) :=
  flat_map (fun c => map (pair c) lags) cols.

Definition pair_name (ck : string * Z) : string := lag_name ck.1 ck.2.

(** Lines 88-91. *)
Definition filter_window (df : DataFrame) (last_date : Timestamp) (w : Window)
  : DataFrame :=
  match w with
  | Some years =>
      let start_date := minus_years last_date years in
      with_rows df (List.filter (fun r => ts_le start_date (period r)) (rows df))
  | None => df
  end.

(** [df[names]] as a matrix, one list of cells per row. *)
Definition select (df : DataFrame) (names : list string) : list (list cell) :=
  map (fun r => map (fun c => cells r !! c) names) (rows df).

(** [df[name]] for a column known to exist. *)
Definition column (df : DataFrame) (name : string) : list cell :=
  map (fun r => cells r !! name) (rows df).

(** ** The engine *)

(** [best_metrics]: the dict [{'mae': ..., 'mape': ...}]. *)
Record Metrics := { metric_mae : Q; metric_mape : Q }.

(** A value of the output dicts. *)
Inductive Value :=
| VStr (s : string)
| VNum (q : Q)
| VInt (n : Z)
| VNone.

(** [best_time_window] as a Python value. *)
Definition window_value (w : Window) : Value :=
  match w with
  | Some y => VInt y
  | None => VNone
  end.

(** One entry of [results[authority][prop_type]] (lines 155-167). *)
Record PairResult := {
  res_mae : Q;
  res_mape : Q;
  res_forecast : Q;
  res_forecast_date : string;
  res_best_model : string;
  res_best_time_window : Window;
  res_model_file : string;
  res_training_date : string
}.

(** Python dicts keep insertion order: assigning to a present key replaces
    its value in place, assigning to a new key appends. *)
Fixpoint dict_set {K V} `{EqDecision K} (d : list (K * V)) (k : K) (v : V)
  : list (K * V) :=
  match d with
  | [] => [(k, v)]
  | (k', v') :: d' => if decide (k' = k) then (k, v) :: d'
                      else (k', v') :: dict_set d' k v
  end.

Fixpoint dict_get {K V} `{EqDecision K} (d : list (K * V)) (k : K) : option V :=
  match d with
  | [] => None
  | (k', v) :: d' => if decide (k' = k) then Some v else dict_get d' k
  end.

Definition Nested := list (string * list (PropertyType * PairResult)).

Definition FlatRecord := list (string * Value).

(** Lines 16-26: the dict built for one (authority, property type). *)
Definition flat_record (local_authority : string) (prop_type : PropertyType)
    (metrics : PairResult) : FlatRecord :=
  [ ("local_authority", VStr local_authority);
    ("property_type", VStr (prop_name prop_type));
    ("mae", VNum (round (res_mae metrics) 4));
    ("mape", VNum (round (res_mape metrics) 4));
    ("forecast", VNum (round (res_forecast metrics) 6));
    ("forecast_date", VStr (res_forecast_date metrics));
    ("best_model", VStr (res_best_model metrics));
    ("best_time_window", window_value (res_best_time_window metrics));
    ("model_file", VStr (res_model_file metrics)) ]%string.

(** Lines 14-29. *)
Definition flatten_forecast_data (nested_data : Nested) : list FlatRecord :=
  flat_map (fun '(local_authority, prop_data) =>
              map (fun '(prop_type, metrics) =>
                     flat_record local_authority prop_type metrics)
                  prop_data)
           nested_data.

(** The chronological series of one authority (lines 68 and 78). *)
Definition authority_series (data : list Record_) (authority : string) : DataFrame :=
  sort_values_period (select_region (make_frame data) authority).

Section Engine.

(** A fitted regressor, [model.fit] and [model.predict] on one row of
    features; [datetime.now()] is the date of the run. *)
Context {Trained : Type}.
Variable fit : ModelFamily -> list (list cell) -> list cell -> Trained.
Variable predict_row : Trained -> list cell -> Q.
Variable today : date.

(** [model.predict(X)]: one prediction per row of [X]. *)
Definition predict (model : Trained) (X : list (list cell)) : list Q :=
  map (predict_row model) X.

(** The running best of lines 81-85. [best_mape = None] is
    [float('inf')] and [best_metrics = None] is [{}]. [fit_log] is a
    history variable: the artifact paths of the combinations on which
    [model.fit] was called so far, most recent first. *)
Record Selection := {
  best_model_name : option ModelFamily;
  best_mape : option Q;
  best_model : option Trained;
  best_time_window : Window;
  best_metrics : option Metrics;
  fit_log : list string
}.

Definition initial_selection (log : list string) : Selection :=
  {| best_model_name := None; best_mape := None; best_model := None;
     best_time_window := None; best_metrics := None; fit_log := log |}.

Definition logged (s : Selection) (model_file : string) : Selection :=
  {| best_model_name := best_model_name s; best_mape := best_mape s;
     best_model := best_model s; best_time_window := best_time_window s;
     best_metrics := best_metrics s; fit_log := model_file :: fit_log s |}.

Section Pair.

Variable fs : FileSystem.
Variable model_dir : string.
Variable forecast_horizon : Z.
Variable authority : string.
Variable prop_type : PropertyType.

(** Lines 121-139: one model family on one window. *)
Definition try_model (time_window : Window)
    (X_train : list (list cell)) (y_train : list cell)
    (X_test : list (list cell)) (y_test : list cell)
    (s : Selection) (name : ModelFamily) : result Selection :=
  let model_file := artifact_path model_dir authority prop_type name time_window in
  if path_exists fs model_file then Ok s
  else
    let model := fit name X_train y_train in
    let s := logged s model_file in
    let y_pred := predict model X_test in
    e <- mean_absolute_percentage_error y_test y_pred ;;
    let mape := (e * 100)%Q in
    if lt_float mape (best_mape s) then
      mae <- mean_absolute_error y_test y_pred ;;
      Ok {| best_model_name := Some name;
            best_mape := Some mape;
            best_model := Some model;
            best_time_window := time_window;
            best_metrics := Some {| metric_mae := mae; metric_mape := mape |};
            fit_log := fit_log s |}
    else Ok s.

Definition all_features : list string := feature_cols ++ [prop_name prop_type].

(** Lines 88-107: the training frame of one window. *)
Definition window_frame (df_auth_prop : DataFrame) (last_date : Timestamp)
    (time_window : Window) : result DataFrame :=
  let df_time := filter_window df_auth_prop last_date time_window in
  if len df_time <? 4 then Raise (NotEnoughData prop_type authority time_window)
  else
    df_time <- add_lags all_features df_time ;;
    let df_time := dropna df_time in
    if len df_time <? forecast_horizon + 1
    then Raise (NotEnoughDataAfterLag prop_type authority time_window)
    else Ok df_time.

(** Lines 109-113: the holdout split [(X_train, y_train, X_test, y_test)]. *)
Definition holdout_split (df_time : DataFrame)
  : list (list cell) * list cell * list (list cell) * list cell :=
  let lag_features := lag_feature_names all_features in
  let X := select df_time lag_features in
  let y := column df_time (prop_name prop_type) in
  let train_size := len df_time - forecast_horizon in
  (iloc_to X train_size, iloc_to y train_size,
   iloc_from X train_size, iloc_from y train_size).

(** Lines 109-139: split and model loop of one window. *)
Definition compete_on (df_time : DataFrame) (time_window : Window)
    (s : Selection) : result Selection :=
  let '(X_train, y_train, X_test, y_test) := holdout_split df_time in
  for_each (try_model time_window X_train y_train X_test y_test)
           model_families s.

(** Lines 87-139: the body of the window loop. *)
Definition window_body (df_auth_prop : DataFrame) (last_date : Timestamp)
    (s : Selection) (time_window : Window) : result Selection :=
  df_time <- window_frame df_auth_prop last_date time_window ;;
  compete_on df_time time_window s.

(** Lines 81-142: model competition for one pair. *)
Definition compete (df_auth_prop : DataFrame) (last_date : Timestamp)
    (log : list string) : result Selection :=
  s <- for_each (window_body df_auth_prop last_date) time_windows
                (initial_selection log) ;;
  match best_model s with
  | None => Raise (NoValidModel prop_type authority)
  | Some _ => Ok s
  end.

(** Lines 144-150: the one-step-ahead forecast of the selected model. *)
Definition forecast_with (df_auth_prop : DataFrame) (model : Trained)
  : result Q :=
  df_auth_prop_full <- add_lags all_features df_auth_prop ;;
  let df_auth_prop_full := dropna df_auth_prop_full in
  let last_data :=
    iloc_from (select df_auth_prop_full (lag_feature_names all_features)) (-1) in
  item0 (predict model last_data).

(** Lines 74-167: one property type of one authority. The state is the
    inner dict [results[authority]] and the fit history. *)
Definition forecast_pair (df_authority : DataFrame)
    (st : list (PropertyType * PairResult) * list string)
  : result (list (PropertyType * PairResult) * list string) :=
  if negb (bool_decide (prop_name prop_type ∈ columns df_authority))
  then Raise (MissingPropertyType prop_type authority)
  else
    let df_auth_prop := sort_values_period df_authority in
    last_row <- iloc_last (rows df_auth_prop) ;;
    let last_date := period last_row in
    s <- compete df_auth_prop last_date st.2 ;;
    model <- match best_model s with
             | Some m => Ok m
             | None => Raise (NoValidModel prop_type authority)
             end ;;
    forecast <- forecast_with df_auth_prop model ;;
    let forecast_date := plus_one_month last_date in
    let forecast_date_str := strftime_m_Y forecast_date in
    metrics <- match best_metrics s with
               | Some m => Ok m
               | None => Raise (KeyError "mae")
               end ;;
    mape <- match best_mape s with
            | Some m => Ok m
            | None => Raise (NoValidModel prop_type authority)
            end ;;
    name <- match best_model_name s with
            | Some n => Ok n
            | None => Raise (NoValidModel prop_type authority)
            end ;;
    Ok (dict_set st.1 prop_type
          {| res_mae := metric_mae metrics;
             res_mape := mape;
             res_forecast := forecast;
             res_forecast_date := forecast_date_str;
             res_best_model := model_name name;
             res_best_time_window := best_time_window s;
             res_model_file :=
               artifact_path model_dir authority prop_type name (best_time_window s);
             res_training_date := strftime_Y_m_d today |},
        fit_log s).

End Pair.

(** Lines 67-167: one authority. The state is [results] and the fit
    history. *)
Definition forecast_authority (fs : FileSystem) (model_dir : string)
    (forecast_horizon : Z) (property_types : list PropertyType)
    (df : DataFrame) (st : Nested * list string) (authority : string)
  : result (Nested * list string) :=
  let df_authority := select_region df authority in
  if bool_decide (rows df_authority = [])
  then Raise (NoDataForAuthority authority)
  else
    inner <- for_each
               (fun acc p => forecast_pair fs model_dir forecast_horizon
                               authority p df_authority acc)
               property_types ([], st.2) ;;
    Ok (dict_set st.1 authority inner.1, inner.2).

(** What a run leaves behind: the file system, and either the returned
    list together with the fit history of the run, or the exception. *)
Inductive Outcome :=
| Returned (files : FileSystem) (records : list FlatRecord) (trained : list string)
| Raised (files : FileSystem) (e : Exception).

(** Lines 32-169. [future_steps] is not used by the source. The two
    required columns are fields of every record, so the check of line 44
    cannot fail. *)
Definition train_and_forecast_by_authority (fs : FileSystem)
    (data : list Record_) (property_types : list PropertyType)
    (forecast_horizon : Z) (model_dir : string) : Outcome :=
  let df := make_frame data in
  if bool_decide (rows df = []) then Raised fs NoDataProvided
  else
    match makedirs model_dir fs with
    | Raise e => Raised fs e
    | Ok fs' =>
        match for_each (forecast_authority fs' model_dir forecast_horizon
                          property_types df)
                       (unique (map RegionName (rows df))) ([], [])
        with
        | Raise e => Raised fs' e
        | Ok (results, log) => Returned fs' (flatten_forecast_data results) log
        end
    end.

(** *** Vocabulary of the statements about model competition *)

(** An evaluated combination: its window and family, the fitted model
    and the two errors measured on the holdout rows. *)
Record Candidate := {
  cand_window : Window;
  cand_family : ModelFamily;
  cand_model : Trained;
  cand_mape : Q;
  cand_mae : Q
}.

Section Candidates.

Variable fs : FileSystem.
Variable model_dir : string.
Variable forecast_horizon : Z.
Variable authority : string.
Variable prop_type : PropertyType.

Definition cand_path (c : Candidate) : string :=
  artifact_path model_dir authority prop_type (cand_family c) (cand_window c).

(** The evaluation of one family on the training frame of one window:
    nothing when the artifact file exists. *)
Definition evaluation (df_time : DataFrame) (w : Window) (m : ModelFamily)
  : list Candidate :=
  let '(X_train, y_train, X_test, y_test) :=
    holdout_split forecast_horizon prop_type df_time in
  if path_exists fs (artifact_path model_dir authority prop_type m w) then []
  else
    let model := fit m X_train y_train in
    match mean_absolute_percentage_error y_test (predict model X_test),
          mean_absolute_error y_test (predict model X_test) with
    | Ok e, Ok a =>
        [ {| cand_window := w; cand_family := m; cand_model := model;
             cand_mape := (e * 100)%Q; cand_mae := a |} ]
    | _, _ => []
    end.

Definition window_candidates (df_auth_prop : DataFrame) (last_date : Timestamp)
    (w : Window) : list Candidate :=
  match window_frame forecast_horizon authority prop_type df_auth_prop last_date w with
  | Ok df_time => flat_map (evaluation df_time w) model_families
  | Raise _ => []
  end.

(** All evaluated combinations of a pair, in the order of evaluation:
    windows in catalogue order, families in priority order. *)
Definition candidates (df_auth_prop : DataFrame) (last_date : Timestamp)
  : list Candidate :=
  flat_map (window_candidates df_auth_prop last_date) time_windows.

(** The selection holds exactly the candidate [c]. *)
Definition selects (s : Selection) (c : Candidate) : Prop :=
  best_model_name s = Some (cand_family c)
  /\ best_mape s = Some (cand_mape c)
  /\ best_model s = Some (cand_model c)
  /\ best_time_window s = cand_window c
  /\ best_metrics s = Some {| metric_mae := cand_mae c; metric_mape := cand_mape c |}.

(** [c], at position [i], is the first candidate of minimal MAPE. *)
Definition first_minimum (cs : list Candidate) (i : nat) (c : Candidate) : Prop :=
  cs !! i = Some c
  /\ (forall j c', cs !! j = Some c' -> (cand_mape c <= cand_mape c')%Q)
  /\ (forall j c', (j < i)%nat -> cs !! j = Some c' -> (cand_mape c < cand_mape c')%Q).

Definition cand_key (c : Candidate) : Window * ModelFamily :=
  (cand_window c, cand_family c).

(** The five variables of the running best are assigned together. *)
Definition unset (s : Selection) : Prop :=
  best_model_name s = None /\ best_mape s = None /\ best_model s = None
  /\ best_metrics s = None.

(** The best variables of [s'] are those of [s]. *)
Definition same_best (s s' : Selection) : Prop :=
  best_model_name s' = best_model_name s /\ best_mape s' = best_mape s
  /\ best_model s' = best_model s /\ best_time_window s' = best_time_window s
  /\ best_metrics s' = best_metrics s.

(** The invariant of the competition: after the candidates [cs] the
    selection is the first of them with minimal MAPE, and exactly they
    have been fitted. *)
Definition competition_inv (log : list string) (cs : list Candidate)
    (s : Selection) : Prop :=
  fit_log s = rev (map cand_path cs) ++ log
  /\ ((cs = [] /\ unset s) \/ exists i c, first_minimum cs i c /\ selects s c).

End Candidates.

(** *** Vocabulary of the statements about a run *)

(** The entry of a pair: its forecast date is one month after the last
    period of the authority's series, and it carries the date of the run. *)
Definition entry_ok (data : list Record_) (a : string)
    (entry : PropertyType * PairResult) : Prop :=
  exists l, last (rows (authority_series data a)) = Some l
            /\ res_forecast_date entry.2 = strftime_m_Y (plus_one_month (period l))
            /\ res_training_date entry.2 = strftime_Y_m_d today.

Definition inner_state_ok (fs : FileSystem) (data : list Record_) (a : string)
    (st : list (PropertyType * PairResult) * list string) : Prop :=
  Forall (entry_ok data a) st.1
  /\ Forall (fun path => path_exists fs path = false) st.2.

Definition outer_state_ok (fs : FileSystem) (data : list Record_)
    (pts : list PropertyType) (st : Nested * list string) : Prop :=
  Forall (fun x => Forall (entry_ok data x.1) x.2
                   /\ (NoDup pts -> map fst x.2 = pts)) st.1
  /\ Forall (fun path => path_exists fs path = false) st.2.

End Engine.

(** ** Vocabulary of the statements *)

(** The cell of column [c] in the row at position [i] (NaN when there is
    no such row). *)
Definition cell_at (df : DataFrame) (i : nat) (c : string) : cell :=
  rows df !! i ≫= (fun r => cells r !! c).

(** Rows in chronological order. *)
Definition sorted_by_period (l : list Row) : Prop :=
  forall i j a b, (i <= j)%nat -> l !! i = Some a -> l !! j = Some b ->
                  ts_le (period a) (period b) = true.

(** The percentage error as the specification words it, over pairs
    (actual, predicted): the mean of |actual - predicted| / |actual|, times
    100. *)
Definition spec_mape (ap : list (Q * Q)) : Q :=
  (average (map (fun x => Qabs (x.1 - x.2) / Qabs x.1) ap) * 100)%Q.

(** The same with the denominator kept away from zero:
    |actual - predicted| / max(|actual|, eps). *)
Definition guarded_mape (ap : list (Q * Q)) : Q :=
  (average (map (fun x => Qabs (x.1 - x.2) / Qmax (Qabs x.1) float_eps) ap) * 100)%Q.

(** The two identifying fields of a flat record. *)
Definition record_key (r : FlatRecord) : option Value * option Value :=
  (dict_get r "local_authority"%string, dict_get r "property_type"%string).

(** [q] has at most [n] decimals. *)
Definition has_decimals (n : nat) (q : Q) : Prop :=
  exists k : Z, (q == inject_Z k / inject_Z (10 ^ Z.of_nat n))%Q.

(** [q] is [x] rounded to [n] decimals: it has [n] decimals and lies within
    half a unit of the last decimal of [x]. *)
Definition rounded_to (n : nat) (x q : Q) : Prop :=
  has_decimals n q
  /\ (Qabs (q - x) <= (1 # 2) / inject_Z (10 ^ Z.of_nat n))%Q.

(** ** Worked examples *)

(** A record of authority "Adur" in which every feature and every index
    has the value [v]. *)
Definition example_record (y m : Z) (v : Q) : Record_ :=
  {| in_Date := {| d_year := y; d_month := m; d_day := 15 |};
     in_RegionName := "Adur";
     in_fields :=
       list_to_map (map (fun c => (c, v))
                        (feature_cols ++ map prop_name default_property_types)) |}.

(** Six consecutive months. *)
Definition example_data : list Record_ :=
  [ example_record 2020 1 1; example_record 2020 2 2; example_record 2020 3 3;
    example_record 2020 4 4; example_record 2020 5 5; example_record 2020 6 6 ]%Q.

(** Three months only. *)
Definition short_data : list Record_ :=
  [ example_record 2020 1 1; example_record 2020 2 2; example_record 2020 3 3 ]%Q.

(** Six months of index values below the machine epsilon. *)
Definition tiny : Q := (1 # 9007199254740992)%Q.

Definition tiny_data : list Record_ :=
  [ example_record 2020 1 tiny; example_record 2020 2 tiny; example_record 2020 3 tiny;
    example_record 2020 4 tiny; example_record 2020 5 tiny; example_record 2020 6 tiny ].

Definition example_last : Timestamp := {| year := 2020; month := 6 |}.

Definition example_today : date := {| d_year := 2026; d_month := 3; d_day := 7 |}.

(** Stand-ins for the regressors: a fitted model is the constant it
    predicts. TabPFN answers the first target of the training rows,
    CatBoost and LightGBM the last one, so the latter two always tie. *)
Definition example_fit (m : ModelFamily) (X : list (list cell)) (y : list cell) : Q :=
  match m with
  | TabPFN => default 0%Q (head y ≫= id)
  | CatBoost | LightGBM => default 0%Q (last y ≫= id)
  end.

Definition example_predict_row (model : Q) (x : list cell) : Q := model.

(** A regressor that always predicts zero. *)
Definition zero_fit (m : ModelFamily) (X : list (list cell)) (y : list cell) : Q := 0%Q.

(** A file system in which the artifacts of every combination of
    ("Adur", FlatIndex) exist. *)
Definition cached_files : FileSystem :=
  list_to_map (map (fun wm => (artifact_path "models" "Adur" FlatIndex wm.2 wm.1, RegularFile))
                   combinations).

(** A series with a row exactly five years before the last one. *)
Definition boundary_row (y m : Z) : Row :=
  {| RegionName := "Adur"; Date := {| d_year := y; d_month := m; d_day := 1 |};
     period := {| year := y; month := m |}; cells := ∅ |}.

Definition boundary_frame : DataFrame :=
  {| columns := [];
     rows := [ boundary_row 2015 5; boundary_row 2015 6; boundary_row 2020 6 ] |}.

(** The key of the record of a pair. *)
Definition pair_key (a : string) (p : PropertyType) : option Value * option Value :=
  (Some (VStr a), Some (VStr (prop_name p))).

(** What a run returns, or nothing. *)
Definition returned_records (o : @Outcome) : option (list FlatRecord) :=
  match o with
  | Returned _ recs _ => Some recs
  | Raised _ _ => None
  end.

Definition trained_paths (o : @Outcome) : option (list string) :=
  match o with
  | Returned _ _ log => Some log
  | Raised _ _ => None
  end.

Definition files_after (o : @Outcome) : FileSystem :=
  match o with
  | Returned fs _ _ => fs
  | Raised fs _ => fs
  end.

(** * The services around the engine *)

(** ** Chronological order of rows *)

Definition period_le (a b : Row) : Prop := ts_le (period a) (period b) = true.

(** Every row is followed by rows of the same or of a later period. *)
Fixpoint chronological (l : list Row) : Prop :=
  match l with
  | [] => True
  | x :: l' => Forall (period_le x) l' /\ chronological l'
  end.

(** ** The flattening of [app/services/training.py] *)

Module services.

(** Lines 13-24: the dict built for one (authority, property type). *)
Definition flat_record (local_authority : string) (prop_type : PropertyType)
    (metrics : PairResult) : FlatRecord :=
  [ ("local_authority", VStr local_authority);
    ("property_type", VStr (prop_name prop_type));
    ("mae", VNum (round (res_mae metrics) 4));
    ("mape", VNum (round (res_mape metrics) 4));
    ("forecast", VNum (round (res_forecast metrics) 6));
    ("forecast_date", VStr (res_forecast_date metrics));
    ("best_model", VStr (res_best_model metrics));
    ("best_time_window", window_value (res_best_time_window metrics));
    ("model_file", VStr (res_model_file metrics));
    ("training_date", VStr (res_training_date metrics)) ]%string.

(** Lines 9-25. *)
Definition flatten_forecast_data (nested_data : Nested) : list FlatRecord :=
  flat_map (fun '(local_authority, prop_data) =>
              map (fun '(prop_type, metrics) =>
                     flat_record local_authority prop_type metrics)
                  prop_data)
           nested_data.

End services.

(** ** Valuation ([app/services/predict.py]) *)

(** Lines 91-105. *)
Definition valuation (history_price last_hpi latest_hpi : Q) : Q :=
  if Qeq_bool last_hpi 0 then 0%Q
  else (history_price * latest_hpi / last_hpi)%Q.

(** ** Scraped sales ([app/services/utils.py]) *)

(** The characters of a Python [str] are modelled by ASCII characters.
    [str.isspace] holds of the six ASCII blanks and of the four separators
    28-31. *)
Definition is_space (c : ascii) : bool :=
  bool_decide (nat_of_ascii c ∈ [9; 10; 11; 12; 13; 28; 29; 30; 31; 32]%nat).

Fixpoint lstrip (s : string) : string :=
  match s with
  | EmptyString => EmptyString
  | String c s' => if is_space c then lstrip s' else s
  end.

Fixpoint rstrip (s : string) : string :=
  match s with
  | EmptyString => EmptyString
  | String c s' =>
      let t := rstrip s' in
      if bool_decide (t = EmptyString) && is_space c then EmptyString else String c t
  end.

(** [s.strip()] *)
Definition strip (s : string) : string := rstrip (lstrip s).

(** [s.split(sep)[0]]: what precedes the first separator. *)
Fixpoint split_head (sep : ascii) (s : string) : string :=
  match s with
  | EmptyString => EmptyString
  | String c s' => if bool_decide (c = sep) then EmptyString
                   else String c (split_head sep s')
  end.

Definition lower_char (c : ascii) : ascii :=
  let n := nat_of_ascii c in
  if (65 <=? n)%nat && (n <=? 90)%nat then ascii_of_nat (n + 32) else c.

(** [s.lower()] *)
Fixpoint lower (s : string) : string :=
  match s with
  | EmptyString => EmptyString
  | String c s' => String (lower_char c) (lower s')
  end.

(** [sub in s] *)
Fixpoint contains (sub s : string) : bool :=
  String.prefix sub s
  || match s with
     | EmptyString => false
     | String _ s' => contains sub s'
     end.

(** Lines 119-126: the dict [type_mapping], in insertion order. *)
Definition type_mapping : list (string * string) :=
  [ ("flat", "Flat"); ("detached", "Detached"); ("semidetached", "Semi Detached");
    ("terraced", "Terraced"); ("terrace", "Terraced");
    ("semi detached", "Semi Detached") ]%string.

(** Line 118. *)
Definition normalized (property_type : string) : string :=
  lower (strip (split_head "(" (strip property_type))).

(** Lines 114-128: the value of the first key, in insertion order, that
    occurs in the normalized description. *)
Definition map_property_type (property_type : string) : string :=
  if bool_decide (property_type = EmptyString) then "Flat"%string
  else
    match List.find (fun kv => contains kv.1 (normalized property_type)) type_mapping with
    | Some kv => kv.2
    | None => "Flat"%string
    end.

(** One record of [refactor_data] (line 139). *)
Record Sale := {
  address : string;
  date_of_transfer : string;
  price : Z;
  area : Z;
  price_per_m2 : Z;
  property_type : string
}.

#[global] Instance Sale_eq_dec : EqDecision Sale.
Proof. solve_decision. Defined.

(** The record returned by [get_current_price_paid] (lines 194-198). *)
Record PricePaid := {
  month_of_transfer : string;
  paid_price_per_m2 : Z;
  paid_property_type : string
}.

(** Comparison of two datetimes at midnight. *)
Definition date_le (a b : date) : bool :=
  (d_year a <? d_year b)
  || ((d_year a =? d_year b)
      && ((d_month a <? d_month b)
          || ((d_month a =? d_month b) && (d_day a <=? d_day b)))).

(** [max] of a non-empty sequence of dates: the first greatest one. *)
Definition max_date (d0 : date) (ds : list date) : date :=
  foldl (fun m x => if date_le x m then m else x) d0 ds.

(** [sum(...)] of integers. *)
Definition Zsum (l : list Z) : Z := foldr Z.add 0 l.

(** [strftime("%Y-%m")] *)
Definition strftime_Y_m (d : date) : string :=
  zero_pad 4 (d_year d) +:+ "-" +:+ zero_pad 2 (d_month d).

Section PricePaid.

(** [datetime.strptime(s, "%Y-%m-%d")], [None] when it raises ValueError,
    and the date of [datetime.now()]: a parsed date is at midnight, so it
    is not after now exactly when it is not after today's date. *)
Variable strptime : string -> option date.
Variable now : date.

(** The condition of lines 182-184. *)
Definition in_latest_month (latest_date : date) (property_type0 : string)
    (entry : Sale) : bool :=
  match strptime (date_of_transfer entry) with
  | Some d =>
      (d_year d =? d_year latest_date) && (d_month d =? d_month latest_date)
      && bool_decide (property_type entry = property_type0)
  | None => false
  end.

(** Lines 166-198. The result is [None] when a date does not parse (the
    ValueError of line 171 leaves the function). *)
Definition get_current_price_paid (data : list Sale) (property_type0 : string)
  : option (list PricePaid) :=
  match data with
  | [] => Some []
  | _ =>
      dates ← mapM (fun entry => strptime (date_of_transfer entry)) data;
      match List.filter (fun d => date_le d now) dates with
      | [] => Some []
      | d0 :: ds =>
          let latest_date := max_date d0 ds in
          let filtered_data :=
            List.filter (in_latest_month latest_date property_type0) data in
          match filtered_data with
          | [] => Some []
          | _ =>
              let total_price := Zsum (map price filtered_data) in
              let total_area := Zsum (map area filtered_data) in
              let price_per_m2 :=
                if total_area =? 0 then 0
                else rint (inject_Z total_price / inject_Z total_area) in
              Some [ {| month_of_transfer := strftime_Y_m latest_date;
                        paid_price_per_m2 := price_per_m2;
                        paid_property_type := property_type0 |} ]
          end
      end
  end.

End PricePaid.

(** Lines 201-210. Two dicts give the same sorted tuple of items exactly
    when they are equal. *)
Definition remove_matching_entries (array1 array2 : list Sale) : list Sale :=
  match array1, array2 with
  | [], _ | _, [] => array2
  | _, _ =>
      List.filter (fun item => negb (bool_decide (item ∈ array1))
                               && (negb (area item =? 0)
                                   || negb (price_per_m2 item =? 0)))
                  array2
  end.

(** ** Cleaning scraped rows ([refactor_data], lines 98-140) *)

(** [str.isdigit] on ASCII characters. *)
Definition is_digit (c : ascii) : bool :=
  let n := nat_of_ascii c in (48 <=? n)%nat && (n <=? 57)%nat.

(** [''.join(filter(f, s))] *)
Fixpoint filter_chars (f : ascii -> bool) (s : string) : string :=
  match s with
  | EmptyString => EmptyString
  | String c s' => if f c then String c (filter_chars f s') else filter_chars f s'
  end.

(** [int(s)] of a string of digits, read from the left. *)
Fixpoint int_of_digits (acc : Z) (s : string) : Z :=
  match s with
  | EmptyString => acc
  | String c s' => int_of_digits (10 * acc + (Z.of_nat (nat_of_ascii c) - 48)) s'
  end.

(** Lines 102-106. *)
Definition clean_numeric (value : string) : Z :=
  let cleaned := filter_chars is_digit value in
  if bool_decide (cleaned = EmptyString) then 0 else int_of_digits 0 cleaned.

(** One row of [parse_table] (line 91), under the column names of line
    159. *)
Record RawSale := {
  raw_address : string;
  raw_date_of_transfer : string;
  raw_price : string;
  raw_area : string;
  raw_price_per_m2 : string;
  raw_property_type : string
}.

(** [astype(int)]: truncation towards zero. *)
Definition Qtrunc (q : Q) : Z := if Qle_bool 0 q then Qfloor q else Qceiling q.

(** Lines 136-137: [price / area] rounded to two decimals, with NaN and
    infinity (a zero area) replaced by 0, then truncated. *)
Definition price_per_area (price0 area0 : Z) : Z :=
  if area0 =? 0 then 0
  else Qtrunc (round (inject_Z price0 / inject_Z area0) 2).

(** [max(a, b)] and [min(a, b)]: the first argument wins a tie. *)
Definition py_max (a b : Q) : Q := if Qle_bool b a then a else b.
Definition py_min (a b : Q) : Q := if Qle_bool a b then a else b.

(** [not x] for an optional float: [None] and zero are falsy. *)
Definition falsy (x : option Q) : bool :=
  match x with
  | None => true
  | Some q => Qeq_bool q 0
  end.

(** [s.replace(' ', '%20')] *)
Fixpoint replace_spaces (s : string) : string :=
  match s with
  | EmptyString => EmptyString
  | String c s' => if bool_decide (c = " "%char) then "%20" +:+ replace_spaces s'
                   else String c (replace_spaces s')
  end.

(** ** The valuation endpoint ([app/api/v1/endpoints/pricing.py]) *)

(** Lines 11-16; [property_type] and [area] of the request. *)
Record PricingRequest := {
  full_address : string;
  street : string;
  postcode : string;
  request_property_type : string;
  request_area : Q
}.

(** Lines 29-34. *)
Record ForecastResponse := {
  last_sales_price : PricePaid;
  recent_property_sale_history : PricePaid;
  local_authority : string;
  max_valuation : Q;
  min_valuation : Q
}.

(** What a request ends in: the response, an [HTTPException], or an
    exception that nothing handles. *)
Inductive Answer (A : Type) :=
| Done (a : A)
| HTTPException (status_code : Z) (detail : string)
| AttributeError
| ValueError.
Arguments Done {A} a.
Arguments HTTPException {A} status_code detail.
Arguments AttributeError {A}.
Arguments ValueError {A}.

#[global] Instance Answer_bind : MBind Answer := fun A B k r =>
  match r with
  | Done a => k a
  | HTTPException c d => HTTPException c d
  | AttributeError => AttributeError
  | ValueError => ValueError
  end.

(** Lines 29 and 67 of [app/services/predict.py]. *)
Definition valid_property_types : list string :=
  ["Terraced"; "Detached"; "SemiDetached"; "Flat"]%string.

Section Pricing.

(** The outside world: the documents of a postcode, each reduced to its
    ['local_authority_label'] ([None] when it has none); the rows
    [parse_table] finds at a URL (none when the request fails); the two
    date parsers ['%d %b %Y'] and ['%Y-%m-%d'] and the test that ['%Y-%m']
    parses; today's date; the index and the forecast found in the
    database ([None] when nothing is found). *)
Variable find_local_authorities : string -> list (option string).
Variable fetch : string -> list RawSale.
Variable strptime_d_b_Y : string -> option date.
Variable strptime : string -> option date.
Variable is_year_month : string -> bool.
Variable now : date.
Variable find_index : string -> string -> string -> option Q.
Variable find_forecast : string -> string -> option Q.

(** [search_local_authority_by_postcode] ([app/services/utils.py], lines
    15-35). *)
Definition search_local_authority_by_postcode (query : string)
  : Answer (list (option string)) :=
  if bool_decide (query = EmptyString)
  then HTTPException 400 "Postcode cannot be empty"
  else
    match find_local_authorities (lower (strip query)) with
    | [] => HTTPException 404 "No local authority found for the given postcode"
    | result => Done result
    end.

(** Lines 108-112 of [app/services/utils.py]. *)
Definition standardize_date (date_str : string) : string :=
  match strptime_d_b_Y date_str with
  | Some d => strftime_Y_m_d d
  | None => date_str
  end.

(** Lines 130-140: one record per row. *)
Definition refactor_row (row : RawSale) : Sale :=
  let price0 := clean_numeric (raw_price row) in
  let area0 := clean_numeric (raw_area row) in
  {| address := raw_address row;
     date_of_transfer := standardize_date (raw_date_of_transfer row);
     price := price0;
     area := area0;
     price_per_m2 := price_per_area price0 area0;
     property_type := map_property_type (raw_property_type row) |}.

(** Lines 98-140. *)
Definition refactor_data (df : list RawSale) : list Sale := map refactor_row df.

(** Lines 143-163. *)
Definition scrape (location : string) : list Sale :=
  if bool_decide (location = EmptyString) then []
  else
    let url := ("https://housemetric.co.uk/results?str_input="
                +:+ replace_spaces (lower (strip location)))%string in
    match fetch url with
    | [] => []
    | data => refactor_data data
    end.

(** [get_hpi_by_month] ([app/services/predict.py], lines 9-51). *)
Definition get_hpi_by_month (month_of_transfer0 local_authority0 property_type0 : string)
  : Answer (option Q) :=
  if negb (is_year_month month_of_transfer0) then ValueError
  else if negb (bool_decide (property_type0 ∈ valid_property_types)) then ValueError
  else Done (find_index month_of_transfer0 local_authority0 property_type0).

(** [get_hpi_forecast] (lines 53-89). *)
Definition get_hpi_forecast (local_authority0 property_type0 : string)
  : Answer (option Q) :=
  if negb (bool_decide (property_type0 ∈ valid_property_types)) then ValueError
  else Done (find_forecast local_authority0 property_type0).

(** [get_current_price_paid] as the endpoint calls it. *)
Definition current_price_paid (data : list Sale) (property_type0 : string)
  : Answer (list PricePaid) :=
  match get_current_price_paid strptime now data property_type0 with
  | Some l => Done l
  | None => ValueError
  end.

(** Lines 56-153. *)
Definition get_pricing_data (request : PricingRequest) : Answer ForecastResponse :=
  local_authority_data ← search_local_authority_by_postcode (postcode request);
  match local_authority_data with
  | [] => HTTPException 404 "Local authority not found for the provided postcode."
  | None :: _ => AttributeError
  | Some label :: _ =>
      let local_authority0 :=
        if bool_decide (lower label = "westminster"%string)
           || bool_decide (lower label = "city of london"%string)
        then "Camden"%string else label in
      if bool_decide (local_authority0 = EmptyString)
      then HTTPException 404 "Local authority label is missing."
      else
      let last_sales_price0 :=
        match scrape (full_address request) with
        | [] => scrape (street request)
        | l => l
        end in
      if bool_decide (last_sales_price0 = [])
      then HTTPException 404
             "No sales price data found for the provided address or street."
      else
      let history_data := scrape (postcode request) in
      if bool_decide (history_data = [])
      then HTTPException 404
             "No historical sales data found for the provided postcode."
      else
      let history_data := remove_matching_entries last_sales_price0 history_data in
      last_sales_price1 ←
        current_price_paid last_sales_price0 (request_property_type request);
      match last_sales_price1 with
      | [] => HTTPException 404
                "No valid sales price data found for the property type."
      | last :: _ =>
          recent_sale_history ←
            current_price_paid history_data (request_property_type request);
          match recent_sale_history with
          | [] => HTTPException 404
                    "No recent sales history found for the property type."
          | recent :: _ =>
              hpi_last_sales ←
                get_hpi_by_month (month_of_transfer last) local_authority0
                  (request_property_type request);
              if falsy hpi_last_sales
              then HTTPException 404 "HPI data not found for last sales price."
              else
              hpi_recent_sale ←
                get_hpi_by_month (month_of_transfer recent) local_authority0
                  (request_property_type request);
              if falsy hpi_recent_sale
              then HTTPException 404 "HPI data not found for recent sales history."
              else
              hpi_forecast ←
                get_hpi_forecast local_authority0 (request_property_type request);
              if falsy hpi_forecast
              then HTTPException 404 "HPI forecast data not found."
              else
              let price_valuation_1 :=
                (request_area request
                 * valuation (inject_Z (paid_price_per_m2 last))
                     (default 0 hpi_last_sales) (default 0 hpi_forecast))%Q in
              let price_valuation_2 :=
                (request_area request
                 * valuation (inject_Z (paid_price_per_m2 recent))
                     (default 0 hpi_recent_sale) (default 0 hpi_forecast))%Q in
              Done {| local_authority := local_authority0;
                      last_sales_price := last;
                      recent_property_sale_history := recent;
                      max_valuation := py_max price_valuation_1 price_valuation_2;
                      min_valuation := py_min price_valuation_1 price_valuation_2 |}
          end
      end
  end.

End Pricing.

(** ** More worked examples *)

(** A record of authority "Adur" with the value [v] in the columns [cols]
    only. *)
Definition record_with (cols : list string) (y m : Z) (v : Q) : Record_ :=
  {| in_Date := {| d_year := y; d_month := m; d_day := 15 |};
     in_RegionName := "Adur";
     in_fields := list_to_map (map (fun c => (c, v)) cols) |}.

(** Six months with the four index columns and no feature column. *)
Definition index_only_data : list Record_ :=
  map (fun m => record_with (map prop_name default_property_types) 2020 m (inject_Z m))
      [1; 2; 3; 4; 5; 6].

(** Six months with the feature columns and no index column. *)
Definition features_only_data : list Record_ :=
  map (fun m => record_with feature_cols 2020 m (inject_Z m)) [1; 2; 3; 4; 5; 6].

Definition is_Done {A} (r : Answer A) : bool :=
  match r with
  | Done _ => true
  | _ => false
  end.

(** The outside world of a request: one postcode of Westminster, a flat
    sold in May 2024 and, in the same postcode, that sale, another flat
    sold in April 2024 and a semi-detached house. *)
Definition example_find_local_authorities (q : string) : list (option string) :=
  if bool_decide (q = "nw1 8ab"%string) then [Some "Westminster"%string] else [].

Definition example_sale : RawSale :=
  {| raw_address := "1 High Street"; raw_date_of_transfer := "05 May 2024";
     raw_price := "GBP 300,000"; raw_area := "60"; raw_price_per_m2 := "GBP 5,000";
     raw_property_type := "Flat (leasehold)" |}.

Definition example_history : list RawSale :=
  [ example_sale;
    {| raw_address := "3 High Street"; raw_date_of_transfer := "10 Apr 2024";
       raw_price := "GBP 250,000"; raw_area := "50"; raw_price_per_m2 := "";
       raw_property_type := "Flat" |};
    {| raw_address := "5 High Street"; raw_date_of_transfer := "02 Mar 2024";
       raw_price := "GBP 500,000"; raw_area := "0"; raw_price_per_m2 := "";
       raw_property_type := "Semi-Detached house" |} ]%string.

Definition example_fetch (url : string) : list RawSale :=
  if bool_decide
       (url = "https://housemetric.co.uk/results?str_input=1%20high%20street"%string)
  then [example_sale]
  else if bool_decide
            (url = "https://housemetric.co.uk/results?str_input=nw1%208ab"%string)
  then example_history
  else [].

Definition example_strptime_d_b_Y (s : string) : option date :=
  if bool_decide (s = "05 May 2024"%string)
  then Some {| d_year := 2024; d_month := 5; d_day := 5 |}
  else if bool_decide (s = "10 Apr 2024"%string)
  then Some {| d_year := 2024; d_month := 4; d_day := 10 |}
  else if bool_decide (s = "02 Mar 2024"%string)
  then Some {| d_year := 2024; d_month := 3; d_day := 2 |}
  else None.

Definition example_strptime (s : string) : option date :=
  if bool_decide (s = "2024-05-05"%string)
  then Some {| d_year := 2024; d_month := 5; d_day := 5 |}
  else if bool_decide (s = "2024-04-10"%string)
  then Some {| d_year := 2024; d_month := 4; d_day := 10 |}
  else if bool_decide (s = "2024-03-02"%string)
  then Some {| d_year := 2024; d_month := 3; d_day := 2 |}
  else None.

Definition example_is_year_month (s : string) : bool :=
  bool_decide (s ∈ ["2024-03"; "2024-04"; "2024-05"]%string).

Definition example_find_index (month_of_transfer0 local_authority0 property_type0 : string)
  : option Q :=
  if bool_decide (local_authority0 = "Camden"%string) then Some 100%Q else None.

Definition example_find_forecast (local_authority0 property_type0 : string) : option Q :=
  if bool_decide (local_authority0 = "Camden"%string) then Some 110%Q else None.

Definition example_request : PricingRequest :=
  {| full_address := "1 High Street"; street := "High Street"; postcode := "NW1 8AB";
     request_property_type := "Flat"; request_area := 50 |}.

Definition example_get_pricing_data : PricingRequest -> Answer ForecastResponse :=
  get_pricing_data example_find_local_authorities example_fetch example_strptime_d_b_Y
    example_strptime example_is_year_month example_today example_find_index
    example_find_forecast.




(** Decide a closed proposition by evaluation. *)
Ltac by_evaluation := apply (proj1 (bool_decide_eq_true _)); vm_compute; reflexivity.

(** * Properties *)

(** ** Loops that may raise *)

Lemma bind_Ok {A B} (r : result A) (k : A -> result B) (b : B) :
  bind r k = Ok b -> exists a, r = Ok a /\ k a = Ok b.
Proof. destruct r as [a|e]; simpl; [eauto | discriminate]. Qed.

Lemma is_Ok_inv {A} (r : result A) : is_Ok r = true -> exists a, r = Ok a.
Proof. destruct r as [a|e]; [eauto|discriminate]. Qed.

Lemma for_each_app {S X} (body : S -> X -> result S) (xs ys : list X) (s : S) :
  for_each body (xs ++ ys) s = (s' <- for_each body xs s ;; for_each body ys s').
Proof.
  revert s. induction xs as [|x xs IH]; intros s; simpl; [done|].
  destruct (body s x); simpl; auto.
Qed.

(** ** Timestamps *)

Lemma ts_le_spec (a b : Timestamp) :
  ts_le a b = true <-> year a < year b \/ (year a = year b /\ month a <= month b).
Proof. unfold ts_le. rewrite orb_true_iff, andb_true_iff. lia. Qed.

Lemma ts_le_refl (a : Timestamp) : ts_le a a = true.
Proof. apply ts_le_spec. lia. Qed.

Lemma ts_le_trans (a b c : Timestamp) :
  ts_le a b = true -> ts_le b c = true -> ts_le a c = true.
Proof. rewrite !ts_le_spec. lia. Qed.

Lemma ts_le_month_index (a b : Timestamp) :
  valid_ts a -> valid_ts b ->
  (ts_le a b = true <-> month_index a <= month_index b).
Proof. unfold valid_ts, month_index. rewrite ts_le_spec. lia. Qed.

Lemma month_index_minus_years (t : Timestamp) (n : Z) :
  month_index (minus_years t n) = month_index t - 12 * n.
Proof. unfold month_index, minus_years. simpl. lia. Qed.

Lemma valid_minus_years (t : Timestamp) (n : Z) :
  valid_ts t -> valid_ts (minus_years t n).
Proof. done. Qed.

(** ** Window filtering *)


Lemma sorted_by_period_tail (x : Row) (l : list Row) :
  sorted_by_period (x :: l) -> sorted_by_period l.
Proof.
  intros H i j a b Hij Ha Hb. apply (H (S i) (S j) a b); [lia|done|done].
Qed.

Lemma filter_sorted_suffix (t : Timestamp) (l : list Row) :
  sorted_by_period l ->
  List.filter (fun r => ts_le t (period r)) l `suffix_of` l.
Proof.
  induction l as [|x l IH]; intros Hs; simpl; [done|].
  destruct (ts_le t (period x)) eqn:Hx.
  - assert (List.filter (fun r => ts_le t (period r)) l = l) as ->; [|done].
    apply forallb_filter_id. apply forallb_forall. intros r Hr.
    apply list_elem_of_In, list_elem_of_lookup in Hr as [j Hj].
    eapply ts_le_trans; [exact Hx|].
    apply (Hs 0%nat (S j) x r); [lia|done|done].
  - apply suffix_cons_r, IH. by eapply sorted_by_period_tail.
Qed.

Lemma filter_sublist {A} (f : A -> bool) (l : list A) : List.filter f l `sublist_of` l.
Proof.
  induction l as [|x l IH]; simpl; [done|].
  destruct (f x); [by apply sublist_skip | by apply sublist_cons].
Qed.

Lemma elem_of_List_filter {A} (f : A -> bool) (l : list A) (x : A) :
  x ∈ List.filter f l <-> x ∈ l /\ f x = true.
Proof. rewrite !list_elem_of_In. apply filter_In. Qed.

(** C5. Filtering a series by a window of [w] years keeps exactly the rows
    whose period is not before the last date minus [w] years, the row dated
    exactly at that bound included; in month counts, exactly the rows at
    most [12 * w] months before the last date. The order of the rows is
    kept, a chronological series keeps a suffix, and the window "all"
    returns the series unchanged. *)
Theorem window_filter_inclusive (df : DataFrame) (last_date : Timestamp) (w : Z) :
  let kept := rows (filter_window df last_date (Some w)) in
  (forall r, r ∈ kept <->
             r ∈ rows df /\ ts_le (minus_years last_date w) (period r) = true)
  /\ (forall r, r ∈ rows df -> valid_ts last_date -> valid_ts (period r) ->
                (r ∈ kept <-> month_index last_date - 12 * w <= month_index (period r)))
  /\ (forall r, r ∈ rows df -> period r = minus_years last_date w -> r ∈ kept)
  /\ kept `sublist_of` rows df
  /\ (sorted_by_period (rows df) -> kept `suffix_of` rows df)
  /\ filter_window df last_date None = df.
Proof.
  simpl. split; [|split; [|split; [|split; [|split]]]].
  - intros r. apply (elem_of_List_filter (fun x => ts_le _ (period x))).
  - intros r Hr Hl Hv. rewrite (elem_of_List_filter (fun x => ts_le _ (period x))).
    rewrite ts_le_month_index, month_index_minus_years by done. tauto.
  - intros r Hr Hp. apply (elem_of_List_filter (fun x => ts_le _ (period x))). split; [done|].
    rewrite Hp. apply ts_le_refl.
  - apply filter_sublist.
  - apply filter_sorted_suffix.
  - done.
Qed.

(** ** Feature lagging *)

Lemma set_cell_lookup (r : Row) (name : string) (v : cell) (c : string) :
  cells (set_cell r name v) !! c = if decide (name = c) then v else cells r !! c.
Proof.
  destruct v as [q|]; simpl.
  - apply lookup_insert.
  - apply lookup_delete.
Qed.

Lemma length_shift (k : nat) (s : list cell) : length (shift k s) = length s.
Proof. unfold shift. rewrite length_take, length_app, length_replicate. lia. Qed.

Lemma shift_lookup (k : nat) (s : list cell) (i : nat) :
  (i < length s)%nat ->
  shift k s !! i = if decide (k <= i)%nat then s !! (i - k)%nat else Some None.
Proof.
  intros Hi. unfold shift. rewrite lookup_take_lt by done.
  destruct (decide (k <= i)%nat) as [Hk|Hk].
  - rewrite lookup_app_r by (rewrite length_replicate; lia).
    by rewrite length_replicate.
  - rewrite lookup_app_l by (rewrite length_replicate; lia).
    apply lookup_replicate. split; [done|lia].
Qed.

Lemma add_label_incl (cs : list string) (c x : string) :
  x ∈ cs -> x ∈ add_label cs c.
Proof. unfold add_label. case_bool_decide; [done|]. intros. apply elem_of_app. by left. Qed.

Lemma add_label_in (cs : list string) (c : string) : c ∈ add_label cs c.
Proof.
  unfold add_label. case_bool_decide; [done|].
  apply elem_of_app. right. by apply list_elem_of_singleton.
Qed.

Lemma add_lag_inv (c : string) (df df' : DataFrame) (k : Z) :
  add_lag c df k = Ok df' ->
  c ∈ columns df /\
  df' = setitem df (lag_name c k) (shift (Z.to_nat k) (column df c)).
Proof.
  unfold add_lag, getitem. case_bool_decide; simpl; [|discriminate].
  intros [= <-]. done.
Qed.

Lemma add_lag_Ok (c : string) (df : DataFrame) (k : Z) :
  c ∈ columns df -> exists df', add_lag c df k = Ok df'.
Proof.
  intros Hc. unfold add_lag, getitem. rewrite bool_decide_eq_true_2 by done.
  simpl. eauto.
Qed.

Lemma setitem_length (df : DataFrame) (name c : string) (k : nat) :
  length (rows (setitem df name (shift k (column df c)))) = length (rows df).
Proof.
  simpl. rewrite length_zip_with, length_shift. unfold column.
  rewrite length_map. lia.
Qed.

Lemma column_lookup (df : DataFrame) (c : string) (i : nat) :
  (i < length (rows df))%nat -> column df c !! i = Some (cell_at df i c).
Proof.
  intros Hi. unfold column, cell_at. rewrite list_lookup_fmap.
  destruct (rows df !! i) eqn:E; [done|].
  apply lookup_ge_None in E. lia.
Qed.

(** One assignment: the new column holds the shifted values and every
    other column is untouched. *)
Lemma setitem_cell_at (df : DataFrame) (c : string) (k : nat) (name : string) (i : nat) :
  (i < length (rows df))%nat ->
  cell_at (setitem df (lag_name c (Z.of_nat k)) (shift k (column df c))) i name =
  if decide (lag_name c (Z.of_nat k) = name)
  then if decide (k <= i)%nat then cell_at df (i - k) c else None
  else cell_at df i name.
Proof.
  intros Hi. unfold cell_at at 1. simpl. rewrite lookup_zip_with.
  destruct (rows df !! i) as [r|] eqn:Er; [|apply lookup_ge_None in Er; lia].
  simpl. rewrite shift_lookup by (unfold column; rewrite length_map; lia).
  assert (forall v : cell,
    cells (set_cell r (lag_name c (Z.of_nat k)) v) !! name =
    if decide (lag_name c (Z.of_nat k) = name) then v else cell_at df i name) as Hset.
  { intros v. rewrite set_cell_lookup. unfold cell_at. by rewrite Er. }
  destruct (decide (k <= i)%nat) as [Hk|Hk].
  - rewrite column_lookup by lia. apply Hset.
  - apply Hset.
Qed.


(** Two nested loops are one loop over the pairs. *)
Lemma for_each_nested {S X Y} (body : X -> S -> Y -> result S)
    (xs : list X) (ys : list Y) (s : S) :
  for_each (fun s x => for_each (body x) ys s) xs s =
  for_each (fun s xy => body xy.1 s xy.2) (flat_map (fun x => map (pair x) ys) xs) s.
Proof.
  revert s. induction xs as [|x xs IH]; intros s; simpl; [done|].
  rewrite for_each_app.
  assert (forall s0, for_each (fun s xy => body xy.1 s xy.2) (map (pair x) ys) s0
                     = for_each (body x) ys s0) as ->.
  { clear IH. induction ys as [|y ys IHy]; intros s0; simpl; [done|].
    destruct (body x s0 y); simpl; auto. }
  destruct (for_each (body x) ys s); simpl; auto.
Qed.


Lemma lag_feature_names_pairs (cols : list string) :
  lag_feature_names cols = map pair_name (lag_pairs cols).
Proof.
  unfold lag_feature_names, lag_pairs.
  induction cols as [|c cols IH]; simpl in *; [done|].
  by rewrite IH.
Qed.

Lemma lag_loop_spec (pairs : list (string * Z)) (df df' : DataFrame) :
  for_each (fun d ck => add_lag ck.1 d ck.2) pairs df = Ok df' ->
  (forall ck, ck ∈ pairs -> 0 <= ck.2) ->
  NoDup (map pair_name pairs) ->
  (forall ck, ck ∈ pairs -> ck.1 ∉ map pair_name pairs) ->
  length (rows df') = length (rows df)
  /\ (forall x, x ∈ columns df -> x ∈ columns df')
  /\ (forall ck, ck ∈ pairs -> ck.1 ∈ columns df /\ pair_name ck ∈ columns df')
  /\ (forall i name, (i < length (rows df))%nat -> name ∉ map pair_name pairs ->
        cell_at df' i name = cell_at df i name)
  /\ (forall i ck, (i < length (rows df))%nat -> ck ∈ pairs ->
        cell_at df' i (pair_name ck) =
        if decide (Z.to_nat ck.2 <= i)%nat
        then cell_at df (i - Z.to_nat ck.2) ck.1 else None).
Proof.
  revert df. induction pairs as [|[c k] pairs IH]; intros df Hrun Hpos Hnd Hsrc.
  - simpl in Hrun. injection Hrun as <-.
    repeat split; auto; intros; exfalso; by eapply not_elem_of_nil.
  - simpl in Hrun. apply bind_Ok in Hrun as (df1 & H1 & Hrest).
    apply add_lag_inv in H1 as [Hc Hdf1].
    assert (0 <= k) as Hk by (apply (Hpos (c, k)); apply elem_of_cons; by left).
    rewrite <- (Z2Nat.id k) in Hdf1 at 1 by done.
    apply NoDup_cons in Hnd as [Hfresh Hnd].
    assert (length (rows df1) = length (rows df)) as Hlen
      by (rewrite Hdf1; apply setitem_length).
    destruct (IH df1 Hrest) as (IHlen & IHcols & IHin & IHother & IHlag).
    { intros ck Hck. apply Hpos. apply elem_of_cons. by right. }
    { done. }
    { intros ck Hck Hin. apply (Hsrc ck); simpl; apply elem_of_cons; by right. }
    assert (forall x, x ∈ columns df -> x ∈ columns df1) as Hcols1.
    { intros x Hx. rewrite Hdf1. by apply add_label_incl. }
    assert (forall i name, (i < length (rows df))%nat ->
              name <> pair_name (c, k) -> cell_at df1 i name = cell_at df i name)
      as Hkeep.
    { intros i name Hi Hne. rewrite Hdf1, setitem_cell_at by done.
      rewrite Z2Nat.id by done. case_decide; [|done]. by subst. }
    split; [lia|]. split; [auto|]. split; [|split].
    + intros ck [->|Hck]%elem_of_cons.
      * split; [done|]. apply IHcols. rewrite Hdf1. simpl.
        rewrite Z2Nat.id by done. apply add_label_in.
      * destruct (IHin ck Hck) as [Ha Hb]. split; [|done].
        rewrite Hdf1 in Ha. simpl in Ha. unfold add_label in Ha.
        case_bool_decide; [done|].
        apply elem_of_app in Ha as [Ha|Ha]; [done|].
        apply list_elem_of_singleton in Ha. exfalso.
        apply (Hsrc ck); [by apply elem_of_cons; right|].
        rewrite Ha, Z2Nat.id by done. simpl. apply elem_of_cons. by left.
    + intros i name Hi Hname. simpl in Hname.
      apply not_elem_of_cons in Hname as [Hne Hname].
      rewrite IHother; [|lia|done]. by apply Hkeep.
    + intros i ck Hi [->|Hck]%elem_of_cons.
      * rewrite IHother; [|lia|done].
        rewrite Hdf1, setitem_cell_at by done. simpl.
        rewrite Z2Nat.id by done. by rewrite decide_True by done.
      * rewrite IHlag; [|lia|done].
        case_decide; [|done]. apply Hkeep; [lia|].
        intros Heq. apply (Hsrc ck); [by apply elem_of_cons; right|].
        rewrite Heq. simpl. apply elem_of_cons. by left.
Qed.

Lemma lag_names_fresh (p : PropertyType) :
  NoDup (map pair_name (lag_pairs (all_features p)))
  /\ Forall (fun ck : string * Z =>
               (ck.1 ∉ map pair_name (lag_pairs (all_features p))) /\ 0 <= ck.2)
            (lag_pairs (all_features p)).
Proof.
  split.
  - assert (bool_decide (NoDup (map pair_name (lag_pairs (all_features p)))) = true) as H
      by (destruct p; vm_compute; reflexivity).
    by apply bool_decide_eq_true in H.
  - assert (bool_decide (Forall (fun ck : string * Z =>
               (ck.1 ∉ map pair_name (lag_pairs (all_features p))) /\ 0 <= ck.2)
            (lag_pairs (all_features p))) = true) as H
      by (destruct p; vm_compute; reflexivity).
    by apply bool_decide_eq_true in H.
Qed.

Lemma add_lags_pairs (cols : list string) (df : DataFrame) :
  add_lags cols df = for_each (fun d ck => add_lag ck.1 d ck.2) (lag_pairs cols) df.
Proof. apply (for_each_nested add_lag). Qed.

Lemma lag_loop_Ok (pairs : list (string * Z)) (df : DataFrame) :
  (forall ck, ck ∈ pairs -> ck.1 ∈ columns df) ->
  exists df', for_each (fun d ck => add_lag ck.1 d ck.2) pairs df = Ok df'.
Proof.
  revert df. induction pairs as [|[c k] pairs IH]; intros df Hin; simpl; [eauto|].
  destruct (add_lag_Ok c df k) as [df1 H1]; [apply (Hin (c, k)), elem_of_cons; by left|].
  rewrite H1. simpl. apply IH. intros ck Hck.
  apply add_lag_inv in H1 as [_ ->]. simpl. apply add_label_incl, Hin.
  apply elem_of_cons. by right.
Qed.

Lemma elem_of_lag_pairs (cols : list string) (c : string) (k : Z) :
  (c, k) ∈ lag_pairs cols <-> c ∈ cols /\ k ∈ lags.
Proof.
  unfold lag_pairs. rewrite !list_elem_of_In, in_flat_map. split.
  - intros (x & Hx & Hin). apply in_map_iff in Hin as (y & [= -> ->] & Hy).
    by rewrite <- !list_elem_of_In in *.
  - intros [Hc Hk]. exists c. split; [done|]. apply in_map_iff. eauto.
Qed.

Lemma add_lags_Ok (cols : list string) (df : DataFrame) :
  (forall c, c ∈ cols -> c ∈ columns df) -> exists df', add_lags cols df = Ok df'.
Proof.
  intros H. rewrite add_lags_pairs. apply lag_loop_Ok.
  intros [c k] [Hc _]%elem_of_lag_pairs. by apply H.
Qed.

Lemma complete_spec (cols : list string) (r : Row) :
  complete cols r = true <-> forall c, c ∈ cols -> is_Some (cells r !! c).
Proof.
  unfold complete. rewrite forallb_forall. split.
  - intros H c Hc. apply list_elem_of_In in Hc. apply H in Hc.
    by apply bool_decide_eq_true in Hc.
  - intros H c Hc. apply bool_decide_eq_true, H. by apply list_elem_of_In.
Qed.


Lemma elem_of_dropna (df : DataFrame) (r : Row) :
  r ∈ rows (dropna df) <->
  r ∈ rows df /\ forall c, c ∈ columns df -> is_Some (cells r !! c).
Proof. simpl. by rewrite elem_of_List_filter, complete_spec. Qed.

(** The summary of the lagging loops used by the claims. *)
Lemma add_lags_spec (p : PropertyType) (df df' : DataFrame) :
  add_lags (all_features p) df = Ok df' ->
  length (rows df') = length (rows df)
  /\ (forall x, x ∈ columns df -> x ∈ columns df')
  /\ (forall c, c ∈ all_features p -> c ∈ columns df)
  /\ (forall c k, c ∈ all_features p -> k ∈ lags -> lag_name c k ∈ columns df')
  /\ (forall i c, (i < length (rows df))%nat -> c ∈ all_features p ->
        cell_at df' i c = cell_at df i c)
  /\ (forall i c k, (i < length (rows df))%nat -> c ∈ all_features p -> k ∈ lags ->
        cell_at df' i (lag_name c k) =
        if decide (Z.to_nat k <= i)%nat
        then cell_at df (i - Z.to_nat k) c else None).
Proof.
  rewrite add_lags_pairs. intros Hrun.
  destruct (lag_names_fresh p) as [Hnd Hfresh].
  rewrite Forall_forall in Hfresh.
  apply lag_loop_spec in Hrun as (Hlen & Hcols & Hin & Hother & Hlag);
    [|intros ck Hck; by apply Hfresh|done|intros ck Hck; by apply Hfresh].
  split; [done|]. split; [done|]. split; [|split; [|split]].
  - intros c Hc. apply (Hin (c, 1)). apply elem_of_lag_pairs. split; [done|].
    apply elem_of_cons. by left.
  - intros c k Hc Hk. apply (Hin (c, k)). by apply elem_of_lag_pairs.
  - intros i c Hi Hc. apply Hother; [done|].
    apply (Hfresh (c, 1)). apply elem_of_lag_pairs. split; [done|].
    apply elem_of_cons. by left.
  - intros i c k Hi Hc Hk. apply (Hlag i (c, k)); [done|]. by apply elem_of_lag_pairs.
Qed.

(** ** The training frame of a window *)

Lemma columns_filter_window (df : DataFrame) (last_date : Timestamp) (w : Window) :
  columns (filter_window df last_date w) = columns df.
Proof. by destruct w. Qed.

Lemma filter_length_mono {A} (f g : A -> bool) (l : list A) :
  (forall x, f x = true -> g x = true) ->
  (length (List.filter f l) <= length (List.filter g l))%nat.
Proof.
  intros Hfg. induction l as [|x l IH]; simpl; [done|].
  destruct (f x) eqn:Hf.
  - rewrite (Hfg x Hf). simpl. lia.
  - destruct (g x); simpl; lia.
Qed.

Lemma filter_length_le {A} (f : A -> bool) (l : list A) :
  (length (List.filter f l) <= length l)%nat.
Proof.
  induction l as [|x l IH]; simpl; [done|]. destruct (f x); simpl; lia.
Qed.

(** The first window of the catalogue is the narrowest. *)
Lemma len_first_window (df : DataFrame) (last_date : Timestamp) (w : Window) :
  w ∈ time_windows ->
  len (filter_window df last_date (Some 5)) <= len (filter_window df last_date w).
Proof.
  intros Hw. unfold len. apply inj_le.
  assert (w = None \/ exists y, w = Some y /\ 5 <= y) as [->|(y & -> & Hy)].
  { unfold time_windows in Hw. rewrite !elem_of_cons in Hw.
    destruct Hw as [->|[->|[->|[->|[->|Hw]]]]];
      [right; eexists; split; [done|lia]..|by left|by apply not_elem_of_nil in Hw]. }
  - apply filter_length_le.
  - apply filter_length_mono. intros r. rewrite !ts_le_spec. simpl. lia.
Qed.

Lemma window_frame_Ok (h : Z) (a : string) (p : PropertyType) (df : DataFrame)
    (last_date : Timestamp) (w : Window) (d : DataFrame) :
  window_frame h a p df last_date w = Ok d <->
  4 <= len (filter_window df last_date w)
  /\ exists lagged,
       add_lags (all_features p) (filter_window df last_date w) = Ok lagged
       /\ d = dropna lagged /\ h + 1 <= len d.
Proof.
  unfold window_frame.
  destruct (Z.ltb_spec (len (filter_window df last_date w)) 4) as [Hlt|Hge].
  { split; [discriminate|lia]. }
  destruct (add_lags (all_features p) (filter_window df last_date w)) as [lagged|e];
    simpl.
  - destruct (Z.ltb_spec (len (dropna lagged)) (h + 1)) as [Hlt|Hge'].
    + split; [discriminate|]. intros (_ & l' & [= <-] & -> & Hl). lia.
    + split.
      * intros [= <-]. split; [done|]. by exists lagged.
      * intros (_ & l' & [= <-] & -> & Hl). done.
  - split; [discriminate|]. by intros (_ & l' & ? & _).
Qed.

Lemma window_frame_Raise (h : Z) (a : string) (p : PropertyType) (df : DataFrame)
    (last_date : Timestamp) (w : Window) (e : Exception) :
  window_frame h a p df last_date w = Raise e <->
  (len (filter_window df last_date w) < 4 /\ e = NotEnoughData p a w)
  \/ (4 <= len (filter_window df last_date w) /\
      add_lags (all_features p) (filter_window df last_date w) = Raise e)
  \/ (4 <= len (filter_window df last_date w) /\
      exists lagged,
        add_lags (all_features p) (filter_window df last_date w) = Ok lagged
        /\ len (dropna lagged) < h + 1 /\ e = NotEnoughDataAfterLag p a w).
Proof.
  unfold window_frame.
  destruct (Z.ltb_spec (len (filter_window df last_date w)) 4) as [Hlt|Hge].
  { split.
    - intros [= <-]. by left.
    - intros [[_ ->]|[[? _]|[? _]]]; [done|lia|lia]. }
  destruct (add_lags (all_features p) (filter_window df last_date w)) as [lagged|e0];
    simpl.
  - destruct (Z.ltb_spec (len (dropna lagged)) (h + 1)) as [Hlt|Hge'].
    + split.
      * intros [= <-]. right. right. split; [done|]. by exists lagged.
      * intros [[? _]|[[_ ?]|(_ & l' & [= <-] & _ & ->)]]; [lia|done|done].
    + split; [discriminate|].
      intros [[? _]|[[_ ?]|(_ & l' & [= <-] & ? & _)]]; [lia|done|lia].
  - split.
    + intros [= <-]. right. left. done.
    + intros [[? _]|[[_ [= <-]]|(_ & l' & ? & _)]]; [lia|done|done].
Qed.

(** ** The holdout split *)

Lemma slice_pos_nonneg (n : Z) (l : nat) : 0 <= n -> slice_pos n l = Z.to_nat n.
Proof. unfold slice_pos. intros H. destruct (Z.ltb_spec n 0); [lia|done]. Qed.

(** With at least [h] rows, the split cuts the frame [h] rows before its
    end. *)
Lemma holdout_split_rows (h : Z) (p : PropertyType) (d : DataFrame) :
  h <= len d ->
  let n := Z.to_nat (len d - h) in
  let features r := map (fun c => cells r !! c) (lag_feature_names (all_features p)) in
  let target (r : Row) := cells r !! prop_name p in
  holdout_split h p d =
  (map features (take n (rows d)), map target (take n (rows d)),
   map features (drop n (rows d)), map target (drop n (rows d))).
Proof.
  intros Hh n features target. unfold holdout_split, iloc_to, iloc_from, select, column.
  rewrite !slice_pos_nonneg by lia.
  by rewrite !firstn_map, !skipn_map.
Qed.

(** ** Error metrics *)

Lemma paired_inv (y_true : list cell) (y_pred : list Q) (ap : list (Q * Q)) :
  paired y_true y_pred = Ok ap ->
  y_true = map (fun x => Some x.1) ap /\ y_pred = map snd ap.
Proof.
  revert y_pred ap. induction y_true as [|[a|] t IH]; intros [|p t'] ap H;
    simpl in H; try discriminate.
  - by injection H as <-.
  - apply bind_Ok in H as (rest & Hrest & [= <-]).
    apply IH in Hrest as [-> ->]. done.
Qed.

Lemma paired_total (y_true : list cell) (y_pred : list Q) :
  Forall is_Some y_true -> length y_pred = length y_true ->
  exists ap, paired y_true y_pred = Ok ap.
Proof.
  revert y_pred. induction y_true as [|a t IH]; intros [|p t'] Hall Hlen;
    simpl in Hlen; try discriminate.
  - by exists [].
  - apply Forall_cons in Hall as [[q ->] Hall].
    destruct (IH t' Hall) as [rest Hrest]; [lia|].
    simpl. rewrite Hrest. simpl. eauto.
Qed.

Lemma check_targets_inv (y_true : list cell) (y_pred : list Q) (ap : list (Q * Q)) :
  check_targets y_true y_pred = Ok ap ->
  ap <> [] /\ y_true = map (fun x => Some x.1) ap /\ y_pred = map snd ap.
Proof.
  unfold check_targets. destruct y_true as [|a t] eqn:E; [discriminate|].
  intros H. apply paired_inv in H as [H1 H2]. split; [|done].
  intros ->. discriminate.
Qed.

Lemma check_targets_total (y_true : list cell) (y_pred : list Q) :
  y_true <> [] -> Forall is_Some y_true -> length y_pred = length y_true ->
  exists ap, check_targets y_true y_pred = Ok ap.
Proof.
  intros Hne Hall Hlen. unfold check_targets.
  destruct y_true as [|a t] eqn:E; [done|]. by apply paired_total.
Qed.

Lemma mape_Ok_inv (y_true : list cell) (y_pred : list Q) (e : Q) :
  mean_absolute_percentage_error y_true y_pred = Ok e ->
  exists ap, check_targets y_true y_pred = Ok ap
    /\ e = average (map (fun x => (Qabs (x.2 - x.1) / Qmax (Qabs x.1) float_eps)%Q) ap).
Proof.
  unfold mean_absolute_percentage_error. intros H.
  apply bind_Ok in H as (ap & Hap & [= <-]). eauto.
Qed.

Lemma metrics_total (y_true : list cell) (y_pred : list Q) :
  y_true <> [] -> Forall is_Some y_true -> length y_pred = length y_true ->
  (exists e, mean_absolute_percentage_error y_true y_pred = Ok e)
  /\ (exists a, mean_absolute_error y_true y_pred = Ok a).
Proof.
  intros Hne Hall Hlen.
  destruct (check_targets_total y_true y_pred) as [ap Hap]; [done..|].
  unfold mean_absolute_percentage_error, mean_absolute_error.
  rewrite Hap. simpl. eauto.
Qed.

(** ** Complete frames *)

(** After lagging and dropping, every row has a target value. *)
Lemma dropna_target_present (p : PropertyType) (df lagged : DataFrame) :
  add_lags (all_features p) df = Ok lagged ->
  Forall (fun r => is_Some (cells r !! prop_name p)) (rows (dropna lagged)).
Proof.
  intros Hl. apply add_lags_spec in Hl as (_ & Hcols & Hin & _).
  apply Forall_forall. intros r [_ Hr]%elem_of_dropna. apply Hr, Hcols, Hin.
  unfold all_features. apply elem_of_app. right. by apply list_elem_of_singleton.
Qed.

(** ** Exact arithmetic on the errors *)

Lemma Qsum_ext {A} (f g : A -> Q) (l : list A) :
  (forall x, x ∈ l -> (f x == g x)%Q) -> (Qsum (map f l) == Qsum (map g l))%Q.
Proof.
  induction l as [|x l IH]; intros H; cbn [map Qsum foldr]; [reflexivity|].
  fold (Qsum (map f l)). fold (Qsum (map g l)).
  rewrite (H x) by apply list_elem_of_here.
  rewrite IH; [reflexivity|]. intros y Hy. by apply H, list_elem_of_further.
Qed.

Lemma average_ext {A} (f g : A -> Q) (l : list A) :
  (forall x, x ∈ l -> (f x == g x)%Q) ->
  (average (map f l) == average (map g l))%Q.
Proof.
  intros H. unfold average. rewrite !length_map, (Qsum_ext f g l H). reflexivity.
Qed.

Lemma Qmax_l (a b : Q) : (b <= a)%Q -> (Qmax a b == a)%Q.
Proof.
  intros H. unfold Qmax. destruct (Qle_bool a b) eqn:E; [|reflexivity].
  apply Qle_bool_iff in E. by apply Qle_antisym.
Qed.

Lemma zip_map_fst_snd {A B} (l : list (A * B)) : zip (map fst l) (map snd l) = l.
Proof. induction l as [|[a b] l IH]; cbn; [done|]. by rewrite IH. Qed.

(** C3. On a frame that has the listed columns (the feature columns and
    the target of the property type), lagging succeeds; the lag-k column of
    a listed column holds at row i the value that column has at row i-k of
    the same frame, and NaN when i < k; and dropping keeps no row with a
    missing lag value, in particular none of the rows i < k. *)
Theorem lag_columns_shift_and_drop (p : PropertyType) (df : DataFrame) :
  (forall c, c ∈ all_features p -> c ∈ columns df) ->
  exists df',
    add_lags (all_features p) df = Ok df'
    /\ length (rows df') = length (rows df)
    /\ forall c k, c ∈ all_features p -> k ∈ [1; 2; 3] ->
         (forall i, (i < length (rows df))%nat ->
            cell_at df' i c = cell_at df i c
            /\ cell_at df' i (lag_name c k) =
               if decide (Z.to_nat k <= i)%nat
               then cell_at df (i - Z.to_nat k) c else None)
         /\ (forall r, r ∈ rows (dropna df') ->
               r ∈ rows df' /\ is_Some (cells r !! lag_name c k))
         /\ (forall i r, rows df' !! i = Some r -> (i < Z.to_nat k)%nat ->
               r ∉ rows (dropna df')).
Proof.
  intros Hcols. destruct (add_lags_Ok (all_features p) df Hcols) as [df' Hrun].
  exists df'. split; [done|].
  pose proof (add_lags_spec p df df' Hrun) as (Hlen & _ & _ & Hin & Hsame & Hlag).
  split; [done|]. intros c k Hc Hk. split; [|split].
  - intros i Hi. split; [by apply Hsame|by apply Hlag].
  - intros r [Hr Hall]%elem_of_dropna. split; [done|]. by apply Hall, Hin.
  - intros i r Hi Hik [_ Hall]%elem_of_dropna.
    assert (i < length (rows df))%nat as Hi'.
    { rewrite <- Hlen. by eapply lookup_lt_Some. }
    specialize (Hlag i c k Hi' Hc Hk). rewrite decide_False in Hlag by lia.
    unfold cell_at in Hlag. rewrite Hi in Hlag. cbn in Hlag.
    destruct (Hall (lag_name c k)) as [q Hq]; [by apply Hin|]. congruence.
Qed.

(** ** Rounding *)

Lemma rint_half (x : Q) : (Qabs (inject_Z (rint x) - x) <= 1 # 2)%Q.
Proof.
  unfold rint. pose proof (Qfloor_le x) as Hlo. pose proof (Qlt_floor x) as Hhi.
  rewrite inject_Z_plus in Hhi. change (inject_Z 1) with 1%Q in Hhi.
  apply Qabs_Qle_condition.
  destruct (x - inject_Z (Qfloor x) ?= 1 # 2)%Q eqn:Hc.
  - apply Qeq_alt in Hc. destruct (Z.even (Qfloor x)).
    + split; lra.
    + rewrite inject_Z_plus. change (inject_Z 1) with 1%Q. split; lra.
  - apply Qlt_alt in Hc. split; lra.
  - apply Qgt_alt in Hc. rewrite inject_Z_plus. change (inject_Z 1) with 1%Q.
    split; lra.
Qed.

Lemma pow10_pos (n : nat) : (0 < inject_Z (10 ^ Z.of_nat n))%Q.
Proof.
  change 0%Q with (inject_Z 0). rewrite <- Zlt_Qlt. apply Z.pow_pos_nonneg; lia.
Qed.

Lemma round_rounded (x : Q) (n : nat) : rounded_to n x (round x n).
Proof.
  pose proof (pow10_pos n) as Hs. split.
  - exists (rint (x * inject_Z (10 ^ Z.of_nat n))). reflexivity.
  - unfold round. set (s := inject_Z (10 ^ Z.of_nat n)) in *.
    pose proof (rint_half (x * s)) as Hr. set (k := inject_Z (rint (x * s))) in *.
    apply Qabs_Qle_condition in Hr as [H1 H2]. apply Qabs_Qle_condition.
    assert (k / s - x == (k - x * s) / s)%Q as -> by (field; lra).
    split.
    + apply Qle_shift_div_l; [done|].
      assert (- ((1 # 2) / s) * s == - (1 # 2))%Q as -> by (field; lra). done.
    + apply Qle_shift_div_r; [done|].
      assert ((1 # 2) / s * s == 1 # 2)%Q as -> by (field; lra). done.
Qed.

(** A loop invariant indexed by the list of items produced so far. *)
Lemma for_each_invariant {S X C} (body : S -> X -> result S) (produced : X -> list C)
    (Inv : list C -> S -> Prop) (xs : list X) :
  (forall cs s x s', x ∈ xs -> Inv cs s -> body s x = Ok s' -> Inv (cs ++ produced x) s') ->
  forall cs s s', Inv cs s -> for_each body xs s = Ok s' ->
                  Inv (cs ++ flat_map produced xs) s'.
Proof.
  induction xs as [|x xs IH]; intros Hstep cs s s' Hinv Hrun; simpl in *.
  - injection Hrun as <-. by rewrite app_nil_r.
  - apply bind_Ok in Hrun as (s1 & H1 & Hrest). rewrite app_assoc.
    apply (IH (fun cs s x s' Hx => Hstep cs s x s' (list_elem_of_further _ _ _ Hx))
              _ s1); [|done].
    apply (Hstep cs s x); [apply list_elem_of_here|done|done].
Qed.

Lemma for_each_total {S X} (body : S -> X -> result S) (xs : list X) :
  (forall s x, x ∈ xs -> exists s', body s x = Ok s') ->
  forall s, exists s', for_each body xs s = Ok s'.
Proof.
  induction xs as [|x xs IH]; intros Hbody s; simpl; [eauto|].
  destruct (Hbody s x) as [s1 ->]; [apply list_elem_of_here|]. simpl.
  apply IH. intros s0 y Hy. apply Hbody. by apply list_elem_of_further.
Qed.

Lemma for_each_Ok_each {S X} (body : S -> X -> result S) (xs : list X) (s s' : S) :
  for_each body xs s = Ok s' ->
  forall x, x ∈ xs -> exists s0 s1, body s0 x = Ok s1.
Proof.
  revert s. induction xs as [|y xs IH]; intros s Hrun x Hx.
  - by apply not_elem_of_nil in Hx.
  - simpl in Hrun. apply bind_Ok in Hrun as (s1 & H1 & Hrest).
    apply elem_of_cons in Hx as [->|Hx]; [eauto|]. by eapply IH.
Qed.

Lemma for_each_raises_at {S X} (body : S -> X -> result S) (xs : list X) (x : X) :
  x ∈ xs -> (forall s, exists e, body s x = Raise e) ->
  forall s, exists e, for_each body xs s = Raise e.
Proof.
  induction xs as [|y xs IH]; intros Hx Hbody s.
  - by apply not_elem_of_nil in Hx.
  - simpl. destruct (body s y) as [s1|e] eqn:Hy; simpl; [|eauto].
    apply elem_of_cons in Hx as [->|Hx]; [|by apply IH].
    destruct (Hbody s) as [e He]. congruence.
Qed.

Lemma for_each_Raise_inv {S X} (body : S -> X -> result S) (xs : list X) (s : S)
    (e : Exception) :
  for_each body xs s = Raise e -> exists x s0, x ∈ xs /\ body s0 x = Raise e.
Proof.
  revert s. induction xs as [|y xs IH]; intros s Hrun; simpl in Hrun; [discriminate|].
  destruct (body s y) as [s1|e0] eqn:Hy; simpl in Hrun.
  - destruct (IH s1 Hrun) as (x & s0 & Hx & Hb). exists x, s0.
    split; [by apply list_elem_of_further|done].
  - injection Hrun as ->. exists y, s. split; [apply list_elem_of_here|done].
Qed.

(** ** Comparison of errors *)

Lemma lt_float_inf (a : Q) : lt_float a None = true.
Proof. done. Qed.

Lemma lt_float_Some (a b : Q) : lt_float a (Some b) = true <-> (a < b)%Q.
Proof.
  unfold lt_float. rewrite negb_true_iff, <- not_true_iff_false, Qle_bool_iff.
  split; [apply Qnot_le_lt | apply Qlt_not_le].
Qed.

Lemma lt_float_Some_false (a b : Q) : lt_float a (Some b) = false <-> (b <= a)%Q.
Proof.
  unfold lt_float. rewrite negb_false_iff. apply Qle_bool_iff.
Qed.

Section Competition.

Context {Trained : Type}.
Variable fit : ModelFamily -> list (list cell) -> list cell -> Trained.
Variable predict_row : Trained -> list cell -> Q.
Variable fs : FileSystem.
Variable model_dir : string.
Variable forecast_horizon : Z.
Variable authority : string.
Variable prop_type : PropertyType.

Local Abbreviation try_model' := (try_model fit predict_row fs model_dir authority prop_type).
Local Abbreviation evaluation' :=
  (evaluation fit predict_row fs model_dir forecast_horizon authority prop_type).
Local Abbreviation window_candidates' :=
  (window_candidates fit predict_row fs model_dir forecast_horizon authority prop_type).
Local Abbreviation candidates' :=
  (candidates fit predict_row fs model_dir forecast_horizon authority prop_type).
Local Abbreviation compete_on' :=
  (compete_on fit predict_row fs model_dir forecast_horizon authority prop_type).
Local Abbreviation window_body' :=
  (window_body fit predict_row fs model_dir forecast_horizon authority prop_type).
Local Abbreviation compete' :=
  (compete fit predict_row fs model_dir forecast_horizon authority prop_type).
Local Abbreviation cand_path' := (cand_path model_dir authority prop_type).
Local Abbreviation artifact := (artifact_path model_dir authority prop_type).
Local Abbreviation competition_inv' := (competition_inv model_dir authority prop_type).


Lemma mae_of_mape (y_true : list cell) (y_pred : list Q) (e : Q) :
  mean_absolute_percentage_error y_true y_pred = Ok e ->
  exists a, mean_absolute_error y_true y_pred = Ok a.
Proof.
  unfold mean_absolute_percentage_error, mean_absolute_error.
  destruct (check_targets y_true y_pred); simpl; [eauto|discriminate].
Qed.

(** What one iteration of the model loop does (lines 127-139). *)
Lemma try_model_cases (w : Window) (X_train : list (list cell)) (y_train : list cell)
    (X_test : list (list cell)) (y_test : list cell)
    (s s' : Selection) (m : ModelFamily) :
  try_model' w X_train y_train X_test y_test s m = Ok s' ->
  (path_exists fs (artifact m w) = true /\ s' = s)
  \/ (path_exists fs (artifact m w) = false /\
      exists e a,
        let model := fit m X_train y_train in
        mean_absolute_percentage_error y_test (predict predict_row model X_test) = Ok e
        /\ mean_absolute_error y_test (predict predict_row model X_test) = Ok a
        /\ s' = if lt_float (e * 100)%Q (best_mape s)
                then {| best_model_name := Some m;
                        best_mape := Some (e * 100)%Q;
                        best_model := Some model;
                        best_time_window := w;
                        best_metrics := Some {| metric_mae := a; metric_mape := (e * 100)%Q |};
                        fit_log := artifact m w :: fit_log s |}
                else logged s (artifact m w)).
Proof.
  unfold try_model.
  destruct (path_exists fs (artifact m w)) eqn:Hex.
  - intros [= <-]. by left.
  - intros Hrun. right. split; [done|].
    apply bind_Ok in Hrun as (e & He & Hrun).
    destruct (mae_of_mape _ _ _ He) as [a Ha].
    exists e, a. simpl. split; [done|]. split; [done|].
    simpl in Hrun. destruct (lt_float (e * 100)%Q (best_mape s)).
    + rewrite Ha in Hrun. simpl in Hrun. by injection Hrun as <-.
    + by injection Hrun as <-.
Qed.

Lemma first_minimum_snoc_keep (cs : list (@Candidate Trained)) (i : nat) (c c0 : Candidate) :
  first_minimum cs i c -> (cand_mape c <= cand_mape c0)%Q ->
  first_minimum (cs ++ [c0]) i c.
Proof.
  intros (Hi & Hmin & Hfirst) Hle. split; [|split].
  - by apply lookup_app_l_Some.
  - intros j c' Hj. apply lookup_app_Some in Hj as [Hj|[_ Hj]]; [by eapply Hmin|].
    apply list_lookup_singleton_Some in Hj as [_ <-]. done.
  - intros j c' Hji Hj. apply lookup_app_Some in Hj as [Hj|[Hge _]]; [by eapply Hfirst|].
    apply lookup_lt_Some in Hi. lia.
Qed.

Lemma first_minimum_snoc_new (cs : list (@Candidate Trained)) (i : nat) (c c0 : Candidate) :
  first_minimum cs i c -> (cand_mape c0 < cand_mape c)%Q ->
  first_minimum (cs ++ [c0]) (length cs) c0.
Proof.
  intros (Hi & Hmin & Hfirst) Hlt. split; [|split].
  - rewrite lookup_app_r by lia. by rewrite Nat.sub_diag.
  - intros j c' Hj. apply lookup_app_Some in Hj as [Hj|[_ Hj]].
    + apply Qlt_le_weak. eapply Qlt_le_trans; [exact Hlt|]. by eapply Hmin.
    + apply list_lookup_singleton_Some in Hj as [_ <-]. apply Qle_refl.
  - intros j c' Hjl Hj. rewrite lookup_app_l in Hj by done.
    eapply Qlt_le_trans; [exact Hlt|]. by eapply Hmin.
Qed.

Lemma first_minimum_singleton (c0 : @Candidate Trained) : first_minimum [c0] 0 c0.
Proof.
  split; [done|]. split.
  - intros j c' Hj. apply list_lookup_singleton_Some in Hj as [_ <-]. apply Qle_refl.
  - intros j c' Hj. lia.
Qed.

Lemma try_model_invariant (log : list string) (df_time : DataFrame) (w : Window)
    (cs : list Candidate) (s s' : Selection) (m : ModelFamily) :
  let '(X_train, y_train, X_test, y_test) :=
    holdout_split forecast_horizon prop_type df_time in
  competition_inv' log cs s ->
  try_model' w X_train y_train X_test y_test s m = Ok s' ->
  competition_inv' log (cs ++ evaluation' df_time w m) s'.
Proof.
  unfold evaluation.
  destruct (holdout_split forecast_horizon prop_type df_time)
    as [[[X_train y_train] X_test] y_test].
  intros [Hlog Hsel] Hrun.
  apply try_model_cases in Hrun as [[Hex ->]|(Hex & e & a & He & Ha & ->)];
    rewrite Hex.
  { rewrite app_nil_r. by split. }
  simpl in He, Ha. rewrite He, Ha.
  set (c0 := {| cand_window := w; cand_family := m;
                cand_model := fit m X_train y_train;
                cand_mape := (e * 100)%Q; cand_mae := a |}).
  assert (forall b : @Selection Trained, fit_log b = artifact m w :: fit_log s ->
                    fit_log b = rev (map cand_path' (cs ++ [c0])) ++ log) as Hlog'.
  { intros b ->. rewrite map_app, rev_app_distr, Hlog. done. }
  destruct Hsel as [[-> (Hn & Hm & Hb & Hx)]|(i & c & Hmin & Hc)].
  - rewrite Hm. simpl. split; [by apply Hlog'|]. right. exists 0%nat, c0.
    split; [apply first_minimum_singleton|]. by repeat split.
  - destruct Hc as (Hn & Hm & Hb & Hw & Hx). rewrite Hm.
    destruct (lt_float (e * 100)%Q (Some (cand_mape c))) eqn:Hlt.
    + apply lt_float_Some in Hlt. split; [by apply Hlog'|]. right.
      exists (length cs), c0. split; [by eapply first_minimum_snoc_new|].
      by repeat split.
    + apply lt_float_Some_false in Hlt. split; [by apply Hlog'|]. right.
      exists i, c. split; [by apply first_minimum_snoc_keep|]. by repeat split.
Qed.

Lemma compete_on_invariant (log : list string) (df_time : DataFrame) (w : Window)
    (cs : list Candidate) (s s' : Selection) :
  competition_inv' log cs s ->
  compete_on' df_time w s = Ok s' ->
  competition_inv' log (cs ++ flat_map (evaluation' df_time w) model_families) s'.
Proof.
  unfold compete_on. intros Hinv Hrun.
  pose proof (fun cs s s' m => try_model_invariant log df_time w cs s s' m) as Hstep.
  destruct (holdout_split forecast_horizon prop_type df_time)
    as [[[X_train y_train] X_test] y_test].
  eapply (for_each_invariant _ (evaluation' df_time w) (competition_inv' log));
    [|exact Hinv|exact Hrun].
  intros cs0 s0 m s0' _. apply Hstep.
Qed.

Lemma window_body_invariant (log : list string) (df : DataFrame) (last_date : Timestamp)
    (w : Window) (cs : list Candidate) (s s' : Selection) :
  competition_inv' log cs s ->
  window_body' df last_date s w = Ok s' ->
  competition_inv' log (cs ++ window_candidates' df last_date w) s'.
Proof.
  unfold window_body, window_candidates. intros Hinv Hrun.
  apply bind_Ok in Hrun as (df_time & -> & Hrun).
  exact (compete_on_invariant log df_time w cs s s' Hinv Hrun).
Qed.

Lemma window_loop_invariant (log : list string) (df : DataFrame) (last_date : Timestamp)
    (s : Selection) :
  for_each (window_body' df last_date) time_windows (initial_selection log) = Ok s ->
  competition_inv' log (candidates' df last_date) s.
Proof.
  intros Hrun. unfold candidates.
  apply (for_each_invariant (window_body' df last_date) (window_candidates' df last_date)
           (competition_inv' log) time_windows) with (cs := []) (s := initial_selection log);
    [| |done].
  - intros cs s0 w s0' _. apply window_body_invariant.
  - split; [done|]. left. by repeat split.
Qed.

Lemma compete_inv (log : list string) (df : DataFrame) (last_date : Timestamp)
    (s : Selection) :
  compete' df last_date log = Ok s ->
  for_each (window_body' df last_date) time_windows (initial_selection log) = Ok s
  /\ is_Some (best_model s).
Proof.
  unfold compete. intros Hrun.
  apply bind_Ok in Hrun as (s0 & H0 & Hrun).
  destruct (best_model s0) eqn:Hb; [|discriminate].
  injection Hrun as <-. rewrite Hb. eauto.
Qed.

(** The outcome of a successful competition. *)
Lemma compete_selects (log : list string) (df : DataFrame) (last_date : Timestamp)
    (s : Selection) :
  compete' df last_date log = Ok s ->
  fit_log s = rev (map cand_path' (candidates' df last_date)) ++ log
  /\ exists i c, first_minimum (candidates' df last_date) i c /\ selects s c.
Proof.
  intros [Hloop [b Hb]]%compete_inv.
  apply window_loop_invariant in Hloop as [Hlog [[_ (_ & _ & Hn & _)]|Hsel]].
  - congruence.
  - done.
Qed.


Local Abbreviation window_frame' := (window_frame forecast_horizon authority prop_type).


Lemma elem_of_evaluation (df_time : DataFrame) (w : Window) (m : ModelFamily)
    (c : Candidate) :
  c ∈ evaluation' df_time w m ->
  cand_window c = w /\ cand_family c = m
  /\ path_exists fs (artifact m w) = false.
Proof.
  unfold evaluation.
  destruct (holdout_split forecast_horizon prop_type df_time)
    as [[[X_train y_train] X_test] y_test].
  destruct (path_exists fs (artifact m w)); [by intros ?%not_elem_of_nil|].
  destruct (mean_absolute_percentage_error _ _); [|by intros ?%not_elem_of_nil].
  destruct (mean_absolute_error _ _); [|by intros ?%not_elem_of_nil].
  intros ->%list_elem_of_singleton. done.
Qed.

(** Where a candidate comes from. *)
Lemma elem_of_candidates (df : DataFrame) (last_date : Timestamp) (c : Candidate) :
  c ∈ candidates' df last_date ->
  cand_window c ∈ time_windows
  /\ path_exists fs (cand_path' c) = false
  /\ exists df_time,
       window_frame' df last_date (cand_window c) = Ok df_time
       /\ c ∈ evaluation' df_time (cand_window c) (cand_family c).
Proof.
  unfold candidates. rewrite list_elem_of_In, in_flat_map.
  intros (w & Hw & Hc). unfold window_candidates in Hc.
  destruct (window_frame' df last_date w) as [df_time|] eqn:Hf; [|done].
  apply in_flat_map in Hc as (m & _ & Hc). apply list_elem_of_In in Hc.
  destruct (elem_of_evaluation _ _ _ _ Hc) as (Hcw & Hcm & Hex).
  unfold cand_path. rewrite Hcw, Hcm.
  split; [by apply list_elem_of_In|]. split; [done|]. eauto.
Qed.

Lemma evaluation_key (df_time : DataFrame) (w : Window) (m : ModelFamily) :
  map cand_key (evaluation' df_time w m) `sublist_of` [(w, m)].
Proof.
  unfold evaluation.
  destruct (holdout_split forecast_horizon prop_type df_time)
    as [[[X_train y_train] X_test] y_test].
  destruct (path_exists fs (artifact m w)); [apply sublist_nil_l|].
  destruct (mean_absolute_percentage_error _ _); [|apply sublist_nil_l].
  destruct (mean_absolute_error _ _); [|apply sublist_nil_l].
  done.
Qed.

Lemma evaluations_keys (df_time : DataFrame) (w : Window) (ms : list ModelFamily) :
  map cand_key (flat_map (evaluation' df_time w) ms) `sublist_of` map (pair w) ms.
Proof.
  induction ms as [|m ms IHm]; cbn [flat_map map]; [done|].
  rewrite map_app.
  change ((w, m) :: map (pair w) ms) with ([(w, m)] ++ map (pair w) ms).
  apply sublist_app; [apply evaluation_key|exact IHm].
Qed.

(** The candidates are evaluated in catalogue order. *)
Lemma candidates_in_order (df : DataFrame) (last_date : Timestamp) :
  map cand_key (candidates' df last_date) `sublist_of` combinations.
Proof.
  unfold candidates, combinations.
  induction time_windows as [|w ws IH]; cbn [flat_map]; [done|].
  rewrite map_app. apply sublist_app; [|exact IH].
  unfold window_candidates.
  destruct (window_frame' df last_date w) as [df_time|]; [|apply sublist_nil_l].
  apply evaluations_keys.
Qed.

(** C1. The running best is replaced exactly when a candidate's MAPE is
    strictly smaller than the current best; hence a competition that
    succeeds selects the first candidate of minimal MAPE, the candidates
    being evaluated in catalogue order (windows 5, 10, 15, 20, all; within
    a window TabPFN, CatBoost, LightGBM). *)
Theorem first_minimal_mape_is_selected :
  (forall (w : Window) (X_train : list (list cell)) (y_train : list cell)
          (X_test : list (list cell)) (y_test : list cell)
          (s s' : Selection) (m : ModelFamily),
      path_exists fs (artifact m w) = false ->
      try_model' w X_train y_train X_test y_test s m = Ok s' ->
      exists e,
        mean_absolute_percentage_error y_test
          (predict predict_row (fit m X_train y_train) X_test) = Ok e
        /\ (lt_float (e * 100)%Q (best_mape s) = true ->
              best_mape s' = Some (e * 100)%Q /\ best_model_name s' = Some m
              /\ best_model s' = Some (fit m X_train y_train)
              /\ best_time_window s' = w)
        /\ (lt_float (e * 100)%Q (best_mape s) = false -> same_best s s')
        /\ (lt_float (e * 100)%Q (best_mape s) = true <->
              match best_mape s with
              | None => True
              | Some b => (e * 100 < b)%Q
              end))
  /\ (forall (log : list string) (df : DataFrame) (last_date : Timestamp)
             (s : Selection),
        compete' df last_date log = Ok s ->
        exists i c,
          first_minimum (candidates' df last_date) i c /\ selects s c)
  /\ (forall (df : DataFrame) (last_date : Timestamp),
        map cand_key (candidates' df last_date) `sublist_of` combinations)
  /\ combinations =
       [ (Some 5, TabPFN); (Some 5, CatBoost); (Some 5, LightGBM);
         (Some 10, TabPFN); (Some 10, CatBoost); (Some 10, LightGBM);
         (Some 15, TabPFN); (Some 15, CatBoost); (Some 15, LightGBM);
         (Some 20, TabPFN); (Some 20, CatBoost); (Some 20, LightGBM);
         (None, TabPFN); (None, CatBoost); (None, LightGBM) ].
Proof.
  split; [|split; [|split]].
  - intros w X_train y_train X_test y_test s s' m Hex Hrun.
    apply try_model_cases in Hrun as [[Hex' _]|(_ & e & a & He & Ha & ->)];
      [congruence|].
    exists e. split; [exact He|]. split; [|split].
    + by intros ->.
    + intros ->. by repeat split.
    + destruct (best_mape s) as [b|]; [apply lt_float_Some|done].
  - intros log df last_date s Hrun. by apply compete_selects in Hrun as [_ ?].
  - apply candidates_in_order.
  - reflexivity.
Qed.


Local Abbreviation forecast_with' := (forecast_with predict_row prop_type).
Local Abbreviation features :=
  (fun r : Row => map (fun c => cells r !! c) (lag_feature_names (all_features prop_type))).
Local Abbreviation target := (fun r : Row => cells r !! prop_name prop_type).

(** *** Skipped combinations *)

Lemma try_model_skip (w : Window) (X_train : list (list cell)) (y_train : list cell)
    (X_test : list (list cell)) (y_test : list cell) (s : Selection) (m : ModelFamily) :
  path_exists fs (artifact m w) = true ->
  try_model' w X_train y_train X_test y_test s m = Ok s.
Proof. unfold try_model. by intros ->. Qed.

Lemma compete_on_all_skipped (df_time : DataFrame) (w : Window) (s : Selection) :
  (forall m, path_exists fs (artifact m w) = true) ->
  compete_on' df_time w s = Ok s.
Proof.
  intros Hex. unfold compete_on.
  destruct (holdout_split forecast_horizon prop_type df_time)
    as [[[X_train y_train] X_test] y_test].
  induction model_families as [|m ms IH]; simpl; [done|].
  by rewrite try_model_skip.
Qed.

(** *** The model loop does not raise on a proper holdout *)

Lemma compete_on_total (df : DataFrame) (last_date : Timestamp) (w : Window)
    (df_time : DataFrame) (s : Selection) :
  1 <= forecast_horizon ->
  window_frame' df last_date w = Ok df_time ->
  exists s', compete_on' df_time w s = Ok s'.
Proof.
  intros Hh (_ & lagged & Hl & -> & Hlen)%window_frame_Ok.
  unfold compete_on. rewrite holdout_split_rows by lia.
  apply for_each_total. intros s0 m _. unfold try_model.
  destruct (path_exists fs (artifact m w)); [eauto|].
  set (n := Z.to_nat (len (dropna lagged) - forecast_horizon)).
  set (model := fit m _ _).
  destruct (metrics_total (map target (drop n (rows (dropna lagged))))
              (predict predict_row model (map features (drop n (rows (dropna lagged))))))
    as [[e He] [a Ha]].
  - intros Hnil. apply (f_equal length) in Hnil.
    rewrite length_map, length_drop in Hnil. cbn [length] in Hnil.
    subst n. unfold len in *. lia.
  - apply Forall_fmap, Forall_drop. by eapply dropna_target_present.
  - unfold predict. by rewrite !length_map.
  - cbv zeta. rewrite He. cbn [bind]. destruct (lt_float _ _); [|eauto].
    rewrite Ha. cbn [bind]. eauto.
Qed.

(** An evaluation happened: the holdout is not empty. *)
Lemma evaluated_horizon (df : DataFrame) (last_date : Timestamp) (c : Candidate) :
  c ∈ candidates' df last_date -> 1 <= forecast_horizon.
Proof.
  intros (_ & _ & df_time & Hf & Hc)%elem_of_candidates.
  apply window_frame_Ok in Hf as (_ & lagged & _ & -> & Hlen).
  unfold evaluation in Hc. rewrite holdout_split_rows in Hc by lia.
  destruct (path_exists fs _); [by apply not_elem_of_nil in Hc|].
  destruct (mean_absolute_percentage_error _ _) as [e|] eqn:He;
    [|by apply not_elem_of_nil in Hc].
  apply mape_Ok_inv in He as (ap & (Hne & Hy & _)%check_targets_inv & _).
  apply (f_equal length) in Hy. rewrite !length_map, length_drop in Hy.
  destruct ap as [|x ap]; [done|]. cbn [length] in Hy. unfold len in *. lia.
Qed.

Lemma window_loop_all_skipped (df : DataFrame) (last_date : Timestamp)
    (ws : list Window) (s : Selection) :
  (forall w m, w ∈ ws -> path_exists fs (artifact m w) = true) ->
  (for_each (window_body' df last_date) ws s = Ok s
   /\ forall w, w ∈ ws -> exists d, window_frame' df last_date w = Ok d)
  \/ (exists e w, w ∈ ws /\ window_frame' df last_date w = Raise e
                  /\ for_each (window_body' df last_date) ws s = Raise e).
Proof.
  induction ws as [|w ws IH]; intros Hex.
  - left. split; [done|]. by intros w ?%not_elem_of_nil.
  - assert (for_each (window_body' df last_date) (w :: ws) s =
            match window_frame' df last_date w with
            | Ok _ => for_each (window_body' df last_date) ws s
            | Raise e => Raise e
            end) as ->.
    { cbn [for_each]. unfold window_body at 1.
      destruct (window_frame' df last_date w) as [d|e]; cbn [bind]; [|done].
      by rewrite compete_on_all_skipped
        by (intros m; apply Hex, list_elem_of_here). }
    destruct (window_frame' df last_date w) as [d|e] eqn:Hf.
    + destruct IH as [[Hrun Hall]|(e & w' & Hw' & Hf' & Hrun)].
      * intros w' m Hw'. by apply Hex, list_elem_of_further.
      * left. split; [done|]. intros w' Hw'.
        apply elem_of_cons in Hw' as [->|Hw']; [by exists d|by apply Hall].
      * right. exists e, w'. split; [by apply list_elem_of_further|by split].
    + right. exists e, w. split; [apply list_elem_of_here|by split].
Qed.

(** C2. A combination whose artifact file exists is skipped: the
    iteration leaves the selection and the fit history as they were, so
    the combination is neither fitted nor selected; and when the files of
    all combinations of a pair exist the competition raises, the
    exception being "no valid model" once every window passes its data
    checks. *)
Theorem cached_combination_is_skipped :
  (forall (w : Window) (X_train : list (list cell)) (y_train : list cell)
          (X_test : list (list cell)) (y_test : list cell)
          (s : Selection) (m : ModelFamily),
      path_exists fs (artifact m w) = true ->
      try_model' w X_train y_train X_test y_test s m = Ok s)
  /\ (forall (log : list string) (df : DataFrame) (last_date : Timestamp)
             (s : Selection),
        compete' df last_date log = Ok s ->
        exists new,
          fit_log s = new ++ log
          /\ forall w m,
               path_exists fs (artifact m w) = true ->
               (artifact m w ∉ new)
               /\ ~ (best_model_name s = Some m /\ best_time_window s = w))
  /\ (forall (log : list string) (df : DataFrame) (last_date : Timestamp),
        (forall w m, w ∈ time_windows -> path_exists fs (artifact m w) = true) ->
        exists e,
          compete' df last_date log = Raise e
          /\ (e = NoValidModel prop_type authority
              \/ exists w, w ∈ time_windows /\ window_frame' df last_date w = Raise e)
          /\ ((forall w, w ∈ time_windows ->
                          exists d, window_frame' df last_date w = Ok d) ->
              e = NoValidModel prop_type authority)).
Proof.
  split; [|split].
  - intros. by apply try_model_skip.
  - intros log df last_date s Hrun.
    apply compete_selects in Hrun as (Hlog & i & c & (Hi & _) & Hsel).
    exists (rev (map cand_path' (candidates' df last_date))). split; [done|].
    intros w m Hex. split.
    + intros Hin. apply list_elem_of_In in Hin. apply in_rev in Hin.
      apply list_elem_of_In, list_elem_of_fmap in Hin as (c' & Hp & Hc').
      apply elem_of_candidates in Hc' as (_ & Hno & _).
      rewrite <- Hp in Hno. congruence.
    + intros [Hm Hw]. destruct Hsel as (Hn & _ & _ & Hcw & _).
      assert (c ∈ candidates' df last_date) as Hc
        by (apply list_elem_of_lookup; eauto).
      apply elem_of_candidates in Hc as (_ & Hno & _).
      unfold cand_path in Hno.
      rewrite Hn in Hm. injection Hm as <-. rewrite <- Hcw, Hw in Hno. congruence.
  - intros log df last_date Hex. unfold compete.
    destruct (window_loop_all_skipped df last_date time_windows
                (initial_selection log) Hex)
      as [[-> Hall]|(e & w & Hw & Hf & ->)]; cbn [bind].
    + exists (NoValidModel prop_type authority). cbn. by repeat split; try left.
    + exists e. split; [done|]. split; [right; eauto|].
      intros Hall. destruct (Hall w Hw) as [d Hd]. congruence.
Qed.

(** C10. When the competition of a pair succeeds, the forecast horizon is
    at least one and the lagged full series, dropped of its incomplete
    rows, has at least [forecast_horizon + 1] rows; the forecast step is
    then the prediction of the selected model on the last of them. *)
Theorem forecast_step_is_defined (log : list string) (df : DataFrame)
    (last_date : Timestamp) (s : Selection) :
  compete' df last_date log = Ok s ->
  exists full model r,
    add_lags (all_features prop_type) df = Ok full
    /\ best_model s = Some model
    /\ 1 <= forecast_horizon
    /\ forecast_horizon + 1 <= len (dropna full)
    /\ last (rows (dropna full)) = Some r
    /\ forecast_with' df model = Ok (predict_row model (features r)).
Proof.
  intros Hrun. pose proof Hrun as [Hloop [model Hmodel]]%compete_inv.
  apply compete_selects in Hrun as (_ & i & c & (Hi & _) & _).
  assert (1 <= forecast_horizon) as Hh.
  { apply (evaluated_horizon df last_date c), list_elem_of_lookup. eauto. }
  destruct (for_each_Ok_each _ _ _ _ Hloop None) as (s0 & s1 & Hbody).
  { unfold time_windows. rewrite !elem_of_cons. tauto. }
  unfold window_body in Hbody.
  apply bind_Ok in Hbody as (d & Hd & _).
  apply window_frame_Ok in Hd as (_ & full & Hfull & -> & Hlen).
  cbn [filter_window] in Hfull.
  destruct (last (rows (dropna full))) as [r|] eqn:Hlast.
  2:{ apply last_None in Hlast. unfold len in Hlen. rewrite Hlast in Hlen.
      cbn [length] in Hlen. lia. }
  exists full, model, r. repeat (split; [done|]).
  unfold forecast_with. rewrite Hfull. cbn [bind].
  unfold iloc_from, select. rewrite length_map.
  apply last_Some in Hlast as [l' Hl']. rewrite Hl'.
  assert (slice_pos (-1) (length (l' ++ [r])) = length l') as ->.
  { unfold slice_pos. rewrite length_app. cbn. lia. }
  rewrite map_app, drop_app_length'; [done|by rewrite length_map].
Qed.

(** *** Insufficient data *)

Lemma compete_first_window_short (log : list string) (df : DataFrame)
    (last_date : Timestamp) :
  len (filter_window df last_date (Some 5)) < 4 ->
  compete' df last_date log = Raise (NotEnoughData prop_type authority (Some 5)).
Proof.
  intros Hlen. unfold compete, time_windows. cbn [for_each].
  unfold window_body at 1, window_frame.
  destruct (Z.ltb_spec (len (filter_window df last_date (Some 5))) 4); [done|lia].
Qed.



(** *** The recorded error *)

(** C6 (as amended). The MAPE recorded for an evaluated candidate is
    measured on the last [forecast_horizon] rows of the window's training
    frame, with the model fitted on the rows before them: it is the mean
    of |actual - predicted| / max(|actual|, eps) times 100, which is the
    mean of |actual - predicted| / |actual| times 100 when no actual value
    is below eps in absolute value. *)
Theorem recorded_mape_formula (df : DataFrame) (last_date : Timestamp)
    (c : Candidate) :
  c ∈ candidates' df last_date ->
  exists df_time train test actual,
    window_frame' df last_date (cand_window c) = Ok df_time
    /\ rows df_time = train ++ test
    /\ Z.of_nat (length test) = forecast_horizon
    /\ cand_model c = fit (cand_family c) (map features train) (map target train)
    /\ map target test = map Some actual
    /\ let predicted := map (fun r => predict_row (cand_model c) (features r)) test in
       (cand_mape c == guarded_mape (zip actual predicted))%Q
       /\ (Forall (fun a => (float_eps <= Qabs a)%Q) actual ->
           (cand_mape c == spec_mape (zip actual predicted))%Q).
Proof.
  intros Hin. pose proof (evaluated_horizon df last_date c Hin) as Hh.
  apply elem_of_candidates in Hin as (_ & Hex & df_time & Hf & Hc).
  pose proof Hf as (_ & lagged & _ & Hd & Hlen)%window_frame_Ok.
  unfold evaluation in Hc. rewrite holdout_split_rows in Hc by lia.
  unfold cand_path in Hex. rewrite Hex in Hc.
  set (n := Z.to_nat (len df_time - forecast_horizon)) in *.
  set (model := fit _ _ _) in Hc.
  destruct (mean_absolute_percentage_error _ _) as [e|] eqn:He;
    [|by apply not_elem_of_nil in Hc].
  destruct (mean_absolute_error _ _) as [a|]; [|by apply not_elem_of_nil in Hc].
  apply list_elem_of_singleton in Hc.
  pose proof (f_equal cand_model Hc) as Hmodel.
  pose proof (f_equal cand_mape Hc) as Hmape.
  cbn [cand_model cand_mape] in Hmodel, Hmape. clear Hc.
  rewrite Hmape, Hmodel. clear Hmape.
  apply mape_Ok_inv in He as (ap & (_ & Hy & Hp)%check_targets_inv & ->).
  exists df_time, (take n (rows df_time)), (drop n (rows df_time)), (map fst ap).
  split; [done|]. split; [by rewrite take_drop|]. split.
  { rewrite length_drop. subst n. unfold len in *. lia. }
  split; [done|]. split.
  { rewrite Hy. by rewrite <- list_fmap_compose. }
  cbv zeta.
  assert (map (fun r => predict_row model (features r)) (drop n (rows df_time))
          = map snd ap) as ->.
  { rewrite <- Hp. unfold predict. by rewrite <- list_fmap_compose. }
  rewrite (zip_map_fst_snd ap). unfold guarded_mape, spec_mape. split.
  - apply Qmult_comp; [|reflexivity]. apply average_ext.
    intros x _. by rewrite Qabs_Qminus.
  - intros Hall. apply Qmult_comp; [|reflexivity]. apply average_ext.
    intros x Hx. rewrite Qabs_Qminus, Qmax_l; [reflexivity|].
    rewrite Forall_forall in Hall. apply Hall, list_elem_of_fmap. eauto.
Qed.

End Competition.

(** ** Dicts, distinct values, sorting *)

Lemma dict_set_fresh {K V} `{EqDecision K} (d : list (K * V)) (k : K) (v : V) :
  k ∉ map fst d -> dict_set d k v = d ++ [(k, v)].
Proof.
  induction d as [|[k' v'] d IH]; intros Hk; cbn; [done|].
  cbn in Hk. apply not_elem_of_cons in Hk as [Hne Hk].
  destruct (decide (k' = k)); [congruence|]. by rewrite IH.
Qed.

Lemma dict_get_set {K V} `{EqDecision K} (d : list (K * V)) (k : K) (v : V) :
  dict_get (dict_set d k v) k = Some v.
Proof.
  induction d as [|[k' v'] d IH]; cbn.
  - by rewrite decide_True.
  - destruct (decide (k' = k)) as [->|Hne]; cbn.
    + by rewrite decide_True.
    + by rewrite decide_False.
Qed.

Lemma elem_of_unique (l : list string) (x : string) : x ∈ unique l <-> x ∈ l.
Proof.
  induction l as [|y l IH]; cbn; [done|].
  rewrite !elem_of_cons, elem_of_List_filter, IH, negb_true_iff, bool_decide_eq_false.
  split.
  - intros [->|[H _]]; auto.
  - intros [->|H]; [auto|]. destruct (decide (x = y)); auto.
Qed.

Lemma NoDup_List_filter {A} (f : A -> bool) (l : list A) :
  NoDup l -> NoDup (List.filter f l).
Proof.
  induction 1 as [|x l Hx Hl IH]; cbn; [constructor|].
  destruct (f x); [|done]. constructor; [|done].
  rewrite elem_of_List_filter. tauto.
Qed.

Lemma NoDup_unique (l : list string) : NoDup (unique l).
Proof.
  induction l as [|y l IH]; cbn; [constructor|]. constructor.
  - rewrite elem_of_List_filter, negb_true_iff, bool_decide_eq_false. tauto.
  - by apply NoDup_List_filter.
Qed.

Lemma length_insert_sorted (r : Row) (l : list Row) :
  length (insert_sorted r l) = S (length l).
Proof.
  induction l as [|x l IH]; cbn; [done|].
  destruct (ts_le (period x) (period r)); cbn; [by rewrite IH|done].
Qed.

Lemma length_sort_rows (l : list Row) : length (sort_rows l) = length l.
Proof.
  unfold sort_rows. rewrite <- (Nat.add_0_r (length l)).
  change 0%nat with (length (@nil Row)). generalize (@nil Row) as acc.
  induction l as [|x l IH]; intros acc; cbn [foldl length]; [done|].
  rewrite IH, length_insert_sorted. lia.
Qed.

Lemma len_authority_series (data : list Record_) (a : string) :
  len (authority_series data a) =
  Z.of_nat (length (List.filter (fun r => bool_decide (in_RegionName r = a)) data)).
Proof.
  unfold len, authority_series. cbn [rows sort_values_period with_rows select_region make_frame].
  rewrite length_sort_rows. f_equal.
  induction data as [|r data IH]; cbn; [done|].
  destruct (bool_decide (in_RegionName r = a)); cbn; by rewrite IH.
Qed.

Lemma for_each_preserves {S X} (body : S -> X -> result S) (I : S -> Prop)
    (xs : list X) :
  (forall s x s', x ∈ xs -> I s -> body s x = Ok s' -> I s') ->
  forall s s', I s -> for_each body xs s = Ok s' -> I s'.
Proof.
  induction xs as [|x xs IH]; intros Hstep s s' Hs Hrun; cbn in Hrun.
  - by injection Hrun as <-.
  - apply bind_Ok in Hrun as (s1 & H1 & Hrest).
    apply (IH (fun s x s' Hx => Hstep s x s' (list_elem_of_further _ _ _ Hx)) s1);
      [|done].
    apply (Hstep s x); [apply list_elem_of_here|done|done].
Qed.

(** A loop that assigns one dict entry per item, on distinct fresh keys,
    appends the keys in order. *)
Lemma for_each_keys {K V L} `{EqDecision K}
    (body : list (K * V) * L -> K -> result (list (K * V) * L)) (ks : list K) :
  (forall st k st', body st k = Ok st' -> exists v, st'.1 = dict_set st.1 k v) ->
  forall st st', NoDup (map fst st.1 ++ ks) -> for_each body ks st = Ok st' ->
                 map fst st'.1 = map fst st.1 ++ ks.
Proof.
  intros Hbody. induction ks as [|k ks IH]; intros st st' Hnd Hrun; cbn in Hrun.
  - injection Hrun as <-. by rewrite app_nil_r.
  - apply bind_Ok in Hrun as (st1 & H1 & Hrest).
    destruct (Hbody _ _ _ H1) as [v Hv].
    assert (k ∉ map fst st.1) as Hfresh.
    { apply NoDup_app in Hnd as (_ & Hdisj & _). intros Hin.
      apply (Hdisj k Hin), list_elem_of_here. }
    rewrite dict_set_fresh in Hv by done.
    rewrite (IH st1 st'); [|rewrite Hv|done].
    + rewrite Hv, map_app. cbn. by rewrite <- app_assoc.
    + rewrite map_app. cbn. by rewrite <- app_assoc.
Qed.

Lemma Forall_dict_set {K V} `{EqDecision K} (P : K * V -> Prop) (d : list (K * V))
    (k : K) (v : V) :
  Forall P d -> P (k, v) -> Forall P (dict_set d k v).
Proof.
  induction 1 as [|[k' v'] d Hx Hd IH]; intros Hkv; cbn.
  - by constructor.
  - destruct (decide (k' = k)); constructor; auto.
Qed.

(** ** Flattening *)

Lemma flatten_unfold (nested : Nested) :
  flatten_forecast_data nested =
  flat_map (fun x => map (fun y => flat_record x.1 y.1 y.2) x.2) nested.
Proof.
  unfold flatten_forecast_data. induction nested as [|[a inner] nested IH]; cbn; [done|].
  rewrite IH. f_equal. induction inner as [|[p m] inner IHi]; cbn; [done|].
  by rewrite IHi.
Qed.

Lemma elem_of_flatten (nested : Nested) (rec : FlatRecord) :
  rec ∈ flatten_forecast_data nested <->
  exists a inner p m, (a, inner) ∈ nested /\ (p, m) ∈ inner /\ rec = flat_record a p m.
Proof.
  rewrite flatten_unfold, list_elem_of_In, in_flat_map. split.
  - intros ([a inner] & Hx & Hin). apply in_map_iff in Hin as ([p m] & <- & Hy).
    exists a, inner, p, m. by rewrite !list_elem_of_In.
  - intros (a & inner & p & m & Hx & Hy & ->). exists (a, inner).
    split; [by apply list_elem_of_In|]. apply in_map_iff. exists (p, m).
    split; [done|]. by apply list_elem_of_In.
Qed.

Lemma length_flatten (nested : Nested) :
  length (flatten_forecast_data nested) = sum_list (map (fun x => length x.2) nested).
Proof.
  rewrite flatten_unfold. induction nested as [|x nested IH]; cbn; [done|].
  by rewrite length_app, length_map, IH.
Qed.


Lemma keys_flatten (nested : Nested) :
  map record_key (flatten_forecast_data nested) =
  flat_map (fun x => map (fun y => pair_key x.1 y.1) x.2) nested.
Proof.
  rewrite flatten_unfold. induction nested as [|x nested IH]; cbn; [done|].
  rewrite map_app, IH, map_map. done.
Qed.

Lemma keys_by_catalogue (results : Nested) (auths : list string)
    (pts : list PropertyType) :
  map fst results = auths ->
  Forall (fun x => map fst x.2 = pts) results ->
  flat_map (fun x => map (fun y => pair_key x.1 y.1) x.2) results =
  flat_map (fun a => map (pair_key a) pts) auths.
Proof.
  intros <-. induction 1 as [|x results Hx _ IH]; cbn; [done|].
  rewrite IH. f_equal. rewrite <- Hx, map_map. done.
Qed.

Lemma length_flat_map_const {A B C} (f : A -> B -> C) (xs : list A) (ys : list B) :
  length (flat_map (fun a => map (f a) ys) xs) = (length xs * length ys)%nat.
Proof.
  induction xs as [|x xs IH]; cbn; [done|]. by rewrite length_app, length_map, IH.
Qed.

(** ** The run *)

Section Run.

Context {Trained : Type}.
Variable fit : ModelFamily -> list (list cell) -> list cell -> Trained.
Variable predict_row : Trained -> list cell -> Q.
Variable today : date.

Local Abbreviation compete' := (compete fit predict_row).
Local Abbreviation forecast_pair' := (forecast_pair fit predict_row today).
Local Abbreviation forecast_authority' := (forecast_authority fit predict_row today).
Local Abbreviation run := (train_and_forecast_by_authority fit predict_row today).
Local Abbreviation entry_ok' := (entry_ok today).
Local Abbreviation inner_state_ok' := (inner_state_ok today).
Local Abbreviation outer_state_ok' := (outer_state_ok today).

(** What a successful pair leaves in the inner dict. *)
Lemma forecast_pair_Ok (fs : FileSystem) (model_dir : string) (h : Z) (a : string)
    (p : PropertyType) (df_a : DataFrame)
    (st st' : list (PropertyType * PairResult) * list string) :
  forecast_pair' fs model_dir h a p df_a st = Ok st' ->
  exists l s res,
    last (rows (sort_values_period df_a)) = Some l
    /\ compete' fs model_dir h a p (sort_values_period df_a) (period l) st.2 = Ok s
    /\ st' = (dict_set st.1 p res, fit_log s)
    /\ res_forecast_date res = strftime_m_Y (plus_one_month (period l))
    /\ res_training_date res = strftime_Y_m_d today
    /\ Some (res_mape res) = best_mape s
    /\ res_best_time_window res = best_time_window s.
Proof.
  unfold forecast_pair.
  destruct (negb _); [discriminate|]. unfold iloc_last.
  destruct (last (rows (sort_values_period df_a))) as [l|]; [|discriminate].
  cbn [bind]. intros H.
  apply bind_Ok in H as (s & Hs & H).
  apply bind_Ok in H as (model & _ & H).
  apply bind_Ok in H as (forecast & _ & H).
  apply bind_Ok in H as (metrics & _ & H).
  apply bind_Ok in H as (mape & Hmape & H).
  apply bind_Ok in H as (name & _ & H).
  injection H as <-. destruct (best_mape s) as [b|] eqn:Hb; [|discriminate].
  injection Hmape as ->. eexists l, s, _.
  split; [done|]. split; [done|]. split; [reflexivity|]. cbn. by repeat split.
Qed.

(** A pair whose competition raises makes the pair raise. *)
Lemma forecast_pair_raises (fs : FileSystem) (model_dir : string) (h : Z) (a : string)
    (p : PropertyType) (df_a : DataFrame) :
  (forall l log, last (rows (sort_values_period df_a)) = Some l ->
     exists e, compete' fs model_dir h a p (sort_values_period df_a) (period l) log
               = Raise e) ->
  forall st, exists e, forecast_pair' fs model_dir h a p df_a st = Raise e.
Proof.
  intros Hc st. unfold forecast_pair.
  destruct (negb _); [eauto|]. unfold iloc_last.
  destruct (last (rows (sort_values_period df_a))) as [l|] eqn:Hl; cbn [bind]; [|eauto].
  destruct (Hc l st.2 eq_refl) as [e ->]. cbn [bind]. eauto.
Qed.

Lemma forecast_authority_raises (fs : FileSystem) (model_dir : string) (h : Z)
    (pts : list PropertyType) (df : DataFrame) (a : string) (p : PropertyType) :
  p ∈ pts ->
  (forall st, exists e,
     forecast_pair' fs model_dir h a p (select_region df a) st = Raise e) ->
  forall st, exists e, forecast_authority' fs model_dir h pts df st a = Raise e.
Proof.
  intros Hp Hpair st. unfold forecast_authority.
  case_bool_decide; [eauto|].
  destruct (for_each_raises_at
              (fun acc q => forecast_pair' fs model_dir h a q (select_region df a) acc)
              pts p Hp Hpair ([], st.2)) as [e ->].
  cbn [bind]. eauto.
Qed.

Lemma run_raises (fs : FileSystem) (data : list Record_) (pts : list PropertyType)
    (h : Z) (model_dir : string) (a : string) :
  a ∈ map in_RegionName data ->
  (forall fs' st, exists e,
     forecast_authority' fs' model_dir h pts (make_frame data) st a = Raise e) ->
  exists fs' e, run fs data pts h model_dir = Raised fs' e.
Proof.
  intros Ha Hauth. unfold train_and_forecast_by_authority. cbv zeta.
  case_bool_decide; [eauto|].
  destruct (makedirs model_dir fs) as [fs'|e]; [|eauto].
  match goal with
  | |- context [for_each ?b ?xs ?s0] =>
      assert (exists e, for_each b xs s0 = Raise e) as [e ->];
        [apply (for_each_raises_at b xs a)|eauto]
  end.
  - apply elem_of_unique. cbn [rows make_frame]. by rewrite map_map.
  - intros st. apply Hauth.
Qed.





(** *** What a returned run looks like *)

Lemma forecast_pair_preserves (fs : FileSystem) (model_dir : string) (h : Z)
    (data : list Record_) (a : string) (p : PropertyType)
    (st st' : list (PropertyType * PairResult) * list string) :
  inner_state_ok' fs data a st ->
  forecast_pair' fs model_dir h a p (select_region (make_frame data) a) st = Ok st' ->
  inner_state_ok' fs data a st'.
Proof.
  intros [Hent Hlog] Hrun.
  apply forecast_pair_Ok in Hrun as (l & s & res & Hl & Hs & -> & Hd & Ht & _).
  apply compete_selects in Hs as [Hfit _]. split; cbn [fst snd].
  - apply Forall_dict_set; [done|]. by exists l.
  - rewrite Hfit. apply Forall_app. split; [|done].
    apply Forall_forall. intros path Hin.
    apply list_elem_of_In in Hin. apply in_rev in Hin.
    apply list_elem_of_In, list_elem_of_fmap in Hin as (c & -> & Hc).
    by apply elem_of_candidates in Hc as (_ & Hno & _).
Qed.

Lemma forecast_authority_Ok (fs : FileSystem) (model_dir : string) (h : Z)
    (pts : list PropertyType) (data : list Record_) (a : string)
    (st st' : Nested * list string) :
  forecast_authority' fs model_dir h pts (make_frame data) st a = Ok st' ->
  exists inner,
    for_each (fun acc p => forecast_pair' fs model_dir h a p
                             (select_region (make_frame data) a) acc)
             pts ([], st.2) = Ok inner
    /\ st' = (dict_set st.1 a inner.1, inner.2).
Proof.
  unfold forecast_authority. case_bool_decide; [discriminate|].
  intros Hrun. apply bind_Ok in Hrun as (inner & Hinner & [= <-]). eauto.
Qed.

Lemma forecast_authority_preserves (fs : FileSystem) (model_dir : string) (h : Z)
    (pts : list PropertyType) (data : list Record_) (a : string)
    (st st' : Nested * list string) :
  outer_state_ok' fs data pts st ->
  forecast_authority' fs model_dir h pts (make_frame data) st a = Ok st' ->
  outer_state_ok' fs data pts st'.
Proof.
  intros [Hres Hlog] (inner & Hinner & ->)%forecast_authority_Ok.
  assert (inner_state_ok' fs data a inner) as [Hent Hlog'].
  { eapply (for_each_preserves _ (inner_state_ok' fs data a)); [| |exact Hinner].
    - intros s p s' _. apply forecast_pair_preserves.
    - by split. }
  split; cbn [fst snd]; [|done].
  apply Forall_dict_set; [done|]. cbn [fst snd]. split; [done|].
  intros Hnd.
  apply (for_each_keys _ _) in Hinner; [done| |done].
  intros st0 k st0' (l & s & res & _ & _ & -> & _)%forecast_pair_Ok. eauto.
Qed.

Lemma run_Returned_inv (fs fs' : FileSystem) (data : list Record_)
    (pts : list PropertyType) (h : Z) (model_dir : string)
    (recs : list FlatRecord) (log : list string) :
  run fs data pts h model_dir = Returned fs' recs log ->
  exists results,
    makedirs model_dir fs = Ok fs'
    /\ recs = flatten_forecast_data results
    /\ map fst results = unique (map in_RegionName data)
    /\ outer_state_ok' fs' data pts (results, log).
Proof.
  unfold train_and_forecast_by_authority. cbv zeta.
  case_bool_decide; [discriminate|].
  destruct (makedirs model_dir fs) as [fs1|]; [|discriminate].
  destruct (for_each _ _ _) as [[results log']|] eqn:Hrun; [|discriminate].
  intros [= -> <- <-]. exists results. split; [done|]. split; [done|].
  assert (map RegionName (rows (make_frame data)) = map in_RegionName data) as Hreg
    by (cbn [rows make_frame]; by rewrite map_map).
  rewrite Hreg in Hrun. split.
  - apply (for_each_keys _ _) in Hrun; [done| |apply NoDup_unique].
    intros st a st' (inner & _ & ->)%forecast_authority_Ok. eauto.
  - eapply (for_each_preserves _ (outer_state_ok' fs' data pts)); [| |exact Hrun].
    + intros st a st' _. apply forecast_authority_preserves.
    + by split.
Qed.


(** C7. Flattening yields one record per (authority, property type) entry
    of the nested results, in the order of the entries, and in every record
    MAE and MAPE are rounded to 4 decimals and the forecast to 6. For a run
    that returns, with distinct property types, the records are those of
    the authorities in order of first appearance, each with the property
    types in catalogue order. *)
Theorem flattening_keeps_one_record_per_pair :
  (forall nested : Nested,
      length (flatten_forecast_data nested)
      = sum_list (map (fun x => length x.2) nested)
      /\ map record_key (flatten_forecast_data nested)
         = flat_map (fun x => map (fun y => pair_key x.1 y.1) x.2) nested)
  /\ (forall (nested : Nested) (rec : FlatRecord),
        rec ∈ flatten_forecast_data nested ->
        exists a inner p m q1 q2 q3,
          (a, inner) ∈ nested /\ (p, m) ∈ inner
          /\ record_key rec = pair_key a p
          /\ dict_get rec "mae"%string = Some (VNum q1)
          /\ rounded_to 4 (res_mae m) q1
          /\ dict_get rec "mape"%string = Some (VNum q2)
          /\ rounded_to 4 (res_mape m) q2
          /\ dict_get rec "forecast"%string = Some (VNum q3)
          /\ rounded_to 6 (res_forecast m) q3)
  /\ (forall (fs fs' : FileSystem) (data : list Record_) (pts : list PropertyType)
             (h : Z) (model_dir : string) (recs : list FlatRecord)
             (log : list string),
        NoDup pts ->
        run fs data pts h model_dir = Returned fs' recs log ->
        map record_key recs
        = flat_map (fun a => map (pair_key a) pts) (unique (map in_RegionName data))
        /\ length recs
           = (length (unique (map in_RegionName data)) * length pts)%nat).
Proof.
  split; [|split].
  - intros nested. split; [apply length_flatten|apply keys_flatten].
  - intros nested rec (a & inner & p & m & Ha & Hp & ->)%elem_of_flatten.
    exists a, inner, p, m, (round (res_mae m) 4), (round (res_mape m) 4),
      (round (res_forecast m) 6).
    repeat split; try done; apply round_rounded.
  - intros fs fs' data pts h model_dir recs log Hnd Hrun.
    apply run_Returned_inv in Hrun as (results & _ & -> & Hkeys & Hres & _).
    cbn [fst] in Hres.
    assert (map record_key (flatten_forecast_data results)
            = flat_map (fun a => map (pair_key a) pts)
                       (unique (map in_RegionName data))) as Hk.
    { rewrite keys_flatten. apply keys_by_catalogue; [done|].
      eapply Forall_impl; [exact Hres|]. intros x [_ Hx]. by apply Hx. }
    split; [done|].
    rewrite <- (length_map record_key), Hk. apply length_flat_map_const.
Qed.

(** C8 (the code against the claim). No record returned by the engine has
    a training date: flattening copies nine fields and leaves out the
    [training_date] that the engine stored for the pair. The forecast date
    of every returned record is the month after the last period of the
    authority's series. *)
Theorem flat_records_lack_the_training_date :
  (forall (nested : Nested) (rec : FlatRecord),
      rec ∈ flatten_forecast_data nested ->
      dict_get rec "training_date"%string = None
      /\ map fst rec
         = [ "local_authority"; "property_type"; "mae"; "mape"; "forecast";
             "forecast_date"; "best_model"; "best_time_window"; "model_file" ]%string)
  /\ (forall (fs fs' : FileSystem) (data : list Record_) (pts : list PropertyType)
             (h : Z) (model_dir : string) (recs : list FlatRecord)
             (log : list string) (rec : FlatRecord),
        run fs data pts h model_dir = Returned fs' recs log ->
        rec ∈ recs ->
        exists a l m,
          dict_get rec "local_authority"%string = Some (VStr a)
          /\ last (rows (authority_series data a)) = Some l
          /\ dict_get rec "forecast_date"%string
             = Some (VStr (strftime_m_Y (plus_one_month (period l))))
          /\ res_training_date m = strftime_Y_m_d today
          /\ dict_get rec "training_date"%string = None).
Proof.
  split.
  - by intros nested rec (a & inner & p & m & _ & _ & ->)%elem_of_flatten.
  - intros fs fs' data pts h model_dir recs log rec Hrun Hrec.
    apply run_Returned_inv in Hrun as (results & _ & -> & _ & Hres & _).
    apply elem_of_flatten in Hrec as (a & inner & p & m & Ha & Hp & ->).
    cbn [fst] in Hres. rewrite Forall_forall in Hres.
    destruct (Hres _ Ha) as [Hent _]. cbn [fst snd] in Hent.
    rewrite Forall_forall in Hent. destruct (Hent _ Hp) as (l & Hl & Hd & Ht).
    exists a, l, m. cbn [snd] in Hd, Ht. repeat split; try done.
    cbn. by rewrite Hd.
Qed.

(** What a run does to the file system: it creates the model directory and
    nothing else, so none of the combinations it fitted has its artifact
    file afterwards. *)
Lemma fitted_artifacts_are_absent (fs fs' : FileSystem) (data : list Record_)
    (pts : list PropertyType) (h : Z) (model_dir : string)
    (recs : list FlatRecord) (log : list string) :
  run fs data pts h model_dir = Returned fs' recs log ->
  makedirs model_dir fs = Ok fs'
  /\ (forall path, path <> model_dir -> fs' !! path = fs !! path)
  /\ Forall (fun path => path_exists fs' path = false) log.
Proof.
  intros (results & Hmk & _ & _ & _ & Hlog)%run_Returned_inv.
  split; [done|]. split; [|done].
  intros path Hne. unfold makedirs in Hmk.
  destruct (fs !! model_dir) as [[|]|]; try discriminate; injection Hmk as <-;
    [done|]. by rewrite lookup_insert_ne.
Qed.

End Run.

(** ** The theorems at work on the examples *)


Lemma example_columns (p : PropertyType) (data : list Record_) (c : string) :
  bool_decide (Forall (fun c => c ∈ columns (authority_series data "Adur"))
                      (all_features p)) = true ->
  c ∈ all_features p -> c ∈ columns (authority_series data "Adur").
Proof.
  intros H Hc. apply bool_decide_eq_true in H. rewrite Forall_forall in H. by apply H.
Defined.

(** The row dated exactly five years before the last one is kept. *)
Lemma boundary_row_is_kept :
  boundary_row 2015 6 ∈ rows (filter_window boundary_frame example_last (Some 5))
  /\ boundary_row 2015 5 ∉ rows (filter_window boundary_frame example_last (Some 5)).
Proof.
  destruct (window_filter_inclusive boundary_frame example_last 5)
    as (Hiff & _ & Hboundary & _).
  split.
  - apply Hboundary; [|reflexivity].
    apply list_elem_of_further, list_elem_of_here.
  - intros [_ Hle]%Hiff. vm_compute in Hle. discriminate.
Defined.

(** Lagging the six-month example: three rows remain. *)
Lemma example_lags :
  exists df',
    add_lags (all_features FlatIndex) (authority_series example_data "Adur") = Ok df'
    /\ cell_at df' 3 (lag_name "FlatIndex" 3) = Some 1%Q
    /\ cell_at df' 2 (lag_name "FlatIndex" 3) = None
    /\ length (rows (dropna df')) = 3%nat.
Proof.
  destruct (lag_columns_shift_and_drop FlatIndex (authority_series example_data "Adur"))
    as (df' & Hrun & Hlen & Hspec).
  { intros c. apply example_columns. vm_compute. reflexivity. }
  exists df'. split; [exact Hrun|].
  destruct (Hspec "FlatIndex"%string 3) as (Hcell & _ & _).
  { by_evaluation. }
  { apply list_elem_of_further, list_elem_of_further, list_elem_of_here. }
  split; [|split].
  - destruct (Hcell 3%nat) as [_ ->]; [vm_compute; lia|]. vm_compute. reflexivity.
  - destruct (Hcell 2%nat) as [_ ->]; [vm_compute; lia|]. vm_compute. reflexivity.
  - assert ((d <- add_lags (all_features FlatIndex) (authority_series example_data "Adur") ;;
             Ok (length (rows (dropna d)))) = Ok 3%nat) as H
      by (vm_compute; reflexivity).
    rewrite Hrun in H. by injection H.
Defined.

Local Abbreviation example_compete fit fs data :=
  (compete fit example_predict_row fs "models" 1 "Adur" FlatIndex
           (authority_series data "Adur") example_last []).

Local Abbreviation example_candidates fit fs data :=
  (candidates fit example_predict_row fs "models" 1 "Adur" FlatIndex
              (authority_series data "Adur") example_last).

(** CatBoost and LightGBM tie on every window at 100/6 percent; the
    selection is CatBoost on the first window. *)
Lemma example_tie_goes_to_catboost :
  exists s i c,
    example_compete example_fit ∅ example_data = Ok s
    /\ first_minimum (example_candidates example_fit ∅ example_data) i c
    /\ selects s c
    /\ best_model_name s = Some CatBoost /\ best_time_window s = Some 5.
Proof.
  destruct (is_Ok_inv (example_compete example_fit ∅ example_data)) as [s Hs];
    [vm_compute; reflexivity|].
  destruct (first_minimal_mape_is_selected example_fit example_predict_row ∅
              "models" 1 "Adur" FlatIndex) as (_ & Hsel & _).
  destruct (Hsel [] _ _ s Hs) as (i & c & Hmin & Hc).
  exists s, i, c. split; [exact Hs|]. split; [exact Hmin|]. split; [exact Hc|].
  assert ((s0 <- example_compete example_fit ∅ example_data ;;
           Ok (best_model_name s0, best_time_window s0)) = Ok (Some CatBoost, Some 5)) as H
    by (vm_compute; reflexivity).
  rewrite Hs in H. cbn [bind] in H. injection H as H1 H2. split; assumption.
Defined.

Lemma cached_files_exist (w : Window) (m : ModelFamily) :
  w ∈ time_windows ->
  path_exists cached_files (artifact_path "models" "Adur" FlatIndex m w) = true.
Proof.
  unfold time_windows. rewrite !elem_of_cons.
  intros [->|[->|[->|[->|[->|Hw]]]]]; [..|by apply not_elem_of_nil in Hw];
    destruct m; vm_compute; reflexivity.
Defined.

(** With every artifact of the pair on disk nothing is evaluated and the
    competition ends without a model. *)
Lemma example_all_cached_no_model :
  example_compete example_fit cached_files example_data
  = Raise (NoValidModel FlatIndex "Adur").
Proof.
  destruct (cached_combination_is_skipped example_fit example_predict_row cached_files
              "models" 1 "Adur" FlatIndex) as (_ & _ & Hall).
  destruct (Hall [] (authority_series example_data "Adur") example_last)
    as (e & -> & _ & He).
  { intros w m. apply cached_files_exist. }
  rewrite He; [reflexivity|]. unfold time_windows. intros w. rewrite !elem_of_cons.
  intros [->|[->|[->|[->|[->|Hw]]]]]; [..|by apply not_elem_of_nil in Hw];
    apply is_Ok_inv; vm_compute; reflexivity.
Defined.



(** The first candidate of the example: TabPFN on the five-year window,
    held out on the last row (actual 6, predicted 4). *)
Lemma example_first_candidate_mape :
  exists c df_time train test,
    head (example_candidates example_fit ∅ example_data) = Some c
    /\ window_frame 1 "Adur" FlatIndex (authority_series example_data "Adur")
         example_last (cand_window c) = Ok df_time
    /\ rows df_time = train ++ test
    /\ length test = 1%nat
    /\ (cand_mape c == spec_mape [(6, 4)])%Q.
Proof.
  destruct (example_candidates example_fit ∅ example_data) as [|c cs] eqn:Hcs.
  { apply (f_equal length) in Hcs. vm_compute in Hcs. discriminate. }
  destruct (recorded_mape_formula example_fit example_predict_row ∅ "models" 1 "Adur"
              FlatIndex (authority_series example_data "Adur") example_last c)
    as (df_time & train & test & actual & Hf & Hrows & Hlen & Hmodel & Hact & _).
  { rewrite Hcs. apply list_elem_of_here. }
  exists c, df_time, train, test. split; [reflexivity|]. split; [exact Hf|].
  split; [exact Hrows|]. split; [lia|].
  assert ((c0 <- match example_candidates example_fit ∅ example_data with
                 | c0 :: _ => Ok c0
                 | [] => Raise IndexError
                 end ;; Ok (Qeq_bool (cand_mape c0) (spec_mape [(6, 4)]%Q))) = Ok true) as H
    by (vm_compute; reflexivity).
  rewrite Hcs in H. cbn [bind] in H. injection H as H. apply Qeq_bool_iff. exact H.
Defined.

(** C6 (the claim as stated fails). With index values of 2^-53 and a
    regressor that predicts zero, the recorded MAPE is 50 where the mean of
    |actual - predicted| / |actual| times 100 is 100. *)
Lemma recorded_mape_is_not_the_plain_ratio :
  exists s d m,
    window_frame 1 "Adur" FlatIndex (authority_series tiny_data "Adur") example_last
      (Some 5) = Ok d
    /\ (holdout_split 1 FlatIndex d).2 = [Some tiny]
    /\ predict example_predict_row (zero_fit TabPFN [] [])
         (holdout_split 1 FlatIndex d).1.2 = [0%Q]
    /\ example_compete zero_fit ∅ tiny_data = Ok s
    /\ best_model_name s = Some TabPFN /\ best_time_window s = Some 5
    /\ best_mape s = Some m
    /\ (m == 50)%Q
    /\ (spec_mape [(tiny, 0)] == 100)%Q
    /\ ~ (m == spec_mape [(tiny, 0)])%Q.
Proof.
  destruct (is_Ok_inv (window_frame 1 "Adur" FlatIndex (authority_series tiny_data "Adur")
              example_last (Some 5))) as [d Hd]; [vm_compute; reflexivity|].
  destruct (is_Ok_inv (example_compete zero_fit ∅ tiny_data)) as [s Hs];
    [vm_compute; reflexivity|].
  destruct (best_mape s) as [m|] eqn:Hm.
  2:{ assert ((s0 <- example_compete zero_fit ∅ tiny_data ;;
               Ok (bool_decide (is_Some (best_mape s0)))) = Ok true) as H
        by (vm_compute; reflexivity).
      rewrite Hs in H. cbn [bind] in H. rewrite Hm in H. discriminate. }
  assert ((d0 <- window_frame 1 "Adur" FlatIndex (authority_series tiny_data "Adur")
                   example_last (Some 5) ;;
           Ok ((holdout_split 1 FlatIndex d0).2,
               predict example_predict_row (zero_fit TabPFN [] [])
                 (holdout_split 1 FlatIndex d0).1.2))
          = Ok ([Some tiny], [0%Q])) as Hsplit by (vm_compute; reflexivity).
  assert ((s0 <- example_compete zero_fit ∅ tiny_data ;;
           Ok (best_model_name s0, best_time_window s0,
               match best_mape s0 with
               | Some q => Qeq_bool q 50
               | None => false
               end)) = Ok (Some TabPFN, Some 5, true)) as Hbest
    by (vm_compute; reflexivity).
  rewrite Hd in Hsplit. rewrite Hs in Hbest. cbn [bind] in Hsplit, Hbest.
  rewrite Hm in Hbest. injection Hsplit as Hy Hp. injection Hbest as Hn Hw H50.
  apply Qeq_bool_iff in H50.
  assert (spec_mape [(tiny, 0)] == 100)%Q as H100
    by (apply Qeq_bool_iff; vm_compute; reflexivity).
  exists s, d, m. split; [exact Hd|]. split; [exact Hy|]. split; [exact Hp|].
  split; [exact Hs|]. split; [exact Hn|]. split; [exact Hw|].
  split; [exact Hm|]. split; [exact H50|]. split; [exact H100|].
  rewrite H50, H100. intros Habs. apply Qeq_bool_iff in Habs. vm_compute in Habs.
  discriminate.
Qed.

Local Abbreviation example_run fs data :=
  (train_and_forecast_by_authority example_fit example_predict_row example_today
     fs data default_property_types 1 "models").


Lemma returned_inv (o : Outcome) :
  is_Some (returned_records o) ->
  exists fs recs log, o = Returned fs recs log.
Proof. destruct o; [eauto|by intros [? ?]]. Qed.

Lemma example_run_returns :
  exists fs recs log, example_run ∅ example_data = Returned fs recs log.
Proof.
  apply returned_inv. apply (proj1 (bool_decide_eq_true _)). vm_compute. reflexivity.
Qed.

(** The six-month example yields four records, one per property type. *)
Lemma example_four_records :
  exists fs recs log,
    example_run ∅ example_data = Returned fs recs log
    /\ length recs = 4%nat
    /\ map record_key recs
       = [ pair_key "Adur" SemiDetachedIndex; pair_key "Adur" DetachedIndex;
           pair_key "Adur" TerracedIndex; pair_key "Adur" FlatIndex ].
Proof.
  destruct example_run_returns as (fs & recs & log & Hrun).
  destruct (flattening_keeps_one_record_per_pair example_fit example_predict_row
              example_today) as (_ & _ & Hkeys).
  destruct (Hkeys ∅ fs example_data default_property_types 1 "models"%string recs log)
    as [Hk Hl].
  { by_evaluation. }
  { exact Hrun. }
  exists fs, recs, log. split; [exact Hrun|]. split.
  - rewrite Hl. vm_compute. reflexivity.
  - rewrite Hk. vm_compute. reflexivity.
Defined.

(** The forecast of the selected example model is made from the last
    fully lagged row. *)
Lemma example_forecast_defined :
  exists s full model r,
    example_compete example_fit ∅ example_data = Ok s
    /\ add_lags (all_features FlatIndex) (authority_series example_data "Adur") = Ok full
    /\ best_model s = Some model
    /\ 2 <= len (dropna full)
    /\ last (rows (dropna full)) = Some r
    /\ is_Ok (forecast_with example_predict_row FlatIndex
                (authority_series example_data "Adur") model) = true.
Proof.
  destruct (is_Ok_inv (example_compete example_fit ∅ example_data)) as [s Hs];
    [vm_compute; reflexivity|].
  destruct (forecast_step_is_defined example_fit example_predict_row ∅ "models" 1
              "Adur" FlatIndex [] _ _ s Hs)
    as (full & model & r & Hfull & Hmodel & _ & Hlen & Hlast & Hforecast).
  exists s, full, model, r. split; [exact Hs|]. split; [exact Hfull|].
  split; [exact Hmodel|]. split; [exact Hlen|]. split; [exact Hlast|].
  rewrite Hforecast. reflexivity.
Defined.

(** C9 (the code against the claim). The run on the six-month example fits
    sixty combinations and creates the model directory only: none of the
    fitted combinations has its artifact file afterwards, and running again
    on the resulting file system fits the same sixty combinations. *)
Theorem trained_artifacts_are_not_saved :
  exists fs recs log,
    example_run ∅ example_data = Returned fs recs log
    /\ fs = {[ "models"%string := Directory ]}
    /\ length log = 60%nat
    /\ "models/Adur_FlatIndex_CatBoost_5_model.pkl"%string ∈ log
    /\ Forall (fun path => path_exists fs path = false) log
    /\ trained_paths (example_run fs example_data) = Some log
    /\ returned_records (example_run fs example_data) = Some recs.
Proof.
  destruct example_run_returns as (fs & recs & log & Hrun).
  destruct (fitted_artifacts_are_absent example_fit example_predict_row example_today
              _ _ _ _ _ _ _ _ Hrun) as (Hmk & _ & Habsent).
  unfold makedirs in Hmk. rewrite lookup_empty in Hmk. injection Hmk as <-.
  change (<["models"%string := Directory]> (∅ : FileSystem))
    with ({[ "models"%string := Directory ]} : FileSystem) in *.
  assert (trained_paths (example_run ∅ example_data)
          = trained_paths (example_run {[ "models"%string := Directory ]} example_data)
          /\ returned_records (example_run ∅ example_data)
             = returned_records (example_run {[ "models"%string := Directory ]} example_data)
          /\ files_after (example_run {[ "models"%string := Directory ]} example_data)
             = {[ "models"%string := Directory ]}
          /\ (length <$> trained_paths (example_run ∅ example_data)) = Some 60%nat
          /\ (bool_decide
                ("models/Adur_FlatIndex_CatBoost_5_model.pkl"%string ∈
                 default [] (trained_paths (example_run ∅ example_data)))) = true)
    as (Hsame_log & Hsame_recs & Hsame_fs & Hlen & Hin)
    by (vm_compute; repeat split; reflexivity).
  rewrite Hrun in Hsame_log, Hsame_recs, Hlen, Hin. cbn in Hsame_log, Hsame_recs, Hlen, Hin.
  exists {[ "models"%string := Directory ]}, recs, log.
  split; [exact Hrun|]. split; [reflexivity|].
  split; [injection Hlen as Hlen; exact Hlen|].
  split; [apply bool_decide_eq_true in Hin; exact Hin|].
  split; [exact Habsent|]. split; [symmetry; exact Hsame_log|].
  symmetry. exact Hsame_recs.
Qed.

(** * Further properties *)

(** ** The chronological order of a series *)

Lemma ts_le_total (a b : Timestamp) : ts_le a b = false -> ts_le b a = true.
Proof.
  intros H. apply ts_le_spec.
  destruct (ts_le b a) eqn:Hba; [by apply ts_le_spec|].
  assert (~ (year a < year b \/ (year a = year b /\ month a <= month b))) as Ha
    by (rewrite <- ts_le_spec; congruence).
  lia.
Qed.


Lemma insert_sorted_Permutation (r : Row) (l : list Row) :
  insert_sorted r l ≡ₚ r :: l.
Proof.
  induction l as [|x l IH]; cbn [insert_sorted]; [done|].
  destruct (ts_le (period x) (period r)); [|done].
  rewrite IH. apply Permutation_swap.
Qed.

Lemma sort_rows_Permutation (l : list Row) : sort_rows l ≡ₚ l.
Proof.
  unfold sort_rows.
  enough (forall acc, foldl (fun acc r => insert_sorted r acc) acc l ≡ₚ l ++ acc) as H
    by (rewrite H; by rewrite app_nil_r).
  induction l as [|x l IH]; intros acc; cbn [foldl]; [done|].
  rewrite IH, insert_sorted_Permutation. cbn.
  by rewrite Permutation_middle.
Qed.

Lemma insert_sorted_chronological (r : Row) (l : list Row) :
  chronological l -> chronological (insert_sorted r l).
Proof.
  induction l as [|x l IH]; cbn [insert_sorted chronological].
  - by repeat split.
  - intros [Hall Hs]. destruct (ts_le (period x) (period r)) eqn:Hle.
    + cbn [chronological]. split; [|by apply IH].
      apply Forall_forall. intros y Hy.
      rewrite insert_sorted_Permutation in Hy.
      apply elem_of_cons in Hy as [->|Hy]; [done|].
      rewrite Forall_forall in Hall. by apply Hall.
    + apply ts_le_total in Hle. cbn [chronological].
      split; [|by split].
      constructor; [done|].
      apply Forall_forall. intros y Hy. rewrite Forall_forall in Hall.
      unfold period_le. eapply ts_le_trans; [exact Hle|]. by apply Hall.
Qed.

Lemma sort_rows_chronological (l : list Row) : chronological (sort_rows l).
Proof.
  unfold sort_rows.
  enough (forall acc, chronological acc ->
            chronological (foldl (fun acc r => insert_sorted r acc) acc l)) as H
    by (by apply H).
  induction l as [|x l IH]; intros acc Hacc; cbn [foldl]; [done|].
  by apply IH, insert_sorted_chronological.
Qed.

Lemma chronological_sorted_by_period (l : list Row) :
  chronological l -> sorted_by_period l.
Proof.
  induction l as [|x l IH]; intros Hs i j a b Hij Hi Hj.
  - by rewrite lookup_nil in Hi.
  - destruct Hs as [Hall Hs].
    destruct i as [|i], j as [|j]; cbn in Hi, Hj; simplify_eq.
    + apply ts_le_refl.
    + rewrite Forall_forall in Hall. apply Hall.
      apply list_elem_of_lookup. eauto.
    + lia.
    + apply (IH Hs i j); [lia|done|done].
Qed.

(** X2. The series of an authority (lines 68 and 78-79) holds exactly the
    input rows of that authority, in chronological order: the period of
    its last row, [last_date], is the latest period of the authority. *)
Theorem last_date_is_the_latest_period (data : list Record_) (a : string) :
  rows (authority_series data a) ≡ₚ rows (select_region (make_frame data) a)
  /\ sorted_by_period (rows (authority_series data a))
  /\ (forall r, r ∈ rows (authority_series data a) <->
                r ∈ rows (make_frame data) /\ RegionName r = a)
  /\ (forall l r, last (rows (authority_series data a)) = Some l ->
                  r ∈ rows (make_frame data) -> RegionName r = a ->
                  ts_le (period r) (period l) = true).
Proof.
  assert (rows (authority_series data a) ≡ₚ rows (select_region (make_frame data) a))
    as Hperm by apply sort_rows_Permutation.
  assert (sorted_by_period (rows (authority_series data a))) as Hsorted
    by apply chronological_sorted_by_period, sort_rows_chronological.
  assert (forall r, r ∈ rows (authority_series data a) <->
                    r ∈ rows (make_frame data) /\ RegionName r = a) as Hin.
  { intros r. rewrite Hperm. cbn [select_region with_rows rows].
    rewrite (elem_of_List_filter (fun r => bool_decide (RegionName r = a))).
    rewrite bool_decide_eq_true. tauto. }
  repeat split; try done; try (by apply Hin).
  intros l r Hlast Hr Ha.
  assert (r ∈ rows (authority_series data a)) as Hr' by (by apply Hin).
  apply list_elem_of_lookup in Hr' as [i Hi].
  rewrite last_lookup in Hlast.
  apply (Hsorted i (Nat.pred (length (rows (authority_series data a))))); [|done|done].
  apply lookup_lt_Some in Hi. lia.
Qed.

(** ** Where a loop raises *)

Lemma for_each_Raise_at {S X} (body : S -> X -> result S) (I : S -> Prop)
    (xs : list X) :
  (forall s x s', x ∈ xs -> I s -> body s x = Ok s' -> I s') ->
  forall s e, I s -> for_each body xs s = Raise e ->
              exists x s0, x ∈ xs /\ I s0 /\ body s0 x = Raise e.
Proof.
  induction xs as [|x xs IH]; intros Hstep s e Hs Hrun; [discriminate|].
  cbn [for_each] in Hrun. destruct (body s x) as [s1|e1] eqn:Hb; cbn [bind] in Hrun.
  - destruct (IH (fun s x s' Hx => Hstep s x s' (list_elem_of_further _ _ _ Hx))
                s1 e (Hstep s x s1 (list_elem_of_here _ _) Hs Hb) Hrun)
      as (x' & s0 & Hx' & Hs0 & Hb').
    exists x', s0. split; [by apply list_elem_of_further|done].
  - injection Hrun as <-. exists x, s. split; [apply list_elem_of_here|done].
Qed.

(** ** A listed column that is absent *)

Lemma add_lag_Raise (c : string) (df : DataFrame) (k : Z) (e : Exception) :
  add_lag c df k = Raise e -> e = KeyError c /\ c ∉ columns df.
Proof.
  unfold add_lag, getitem. case_bool_decide as Hc; cbn [bind]; [discriminate|].
  intros [= <-]. done.
Qed.

Lemma columns_add_lag (c : string) (df df' : DataFrame) (k : Z) :
  add_lag c df k = Ok df' -> columns df' = add_label (columns df) (lag_name c k).
Proof. intros [_ ->]%add_lag_inv. done. Qed.

Lemma elem_of_add_label (cs : list string) (c x : string) :
  x ∈ add_label cs c -> x ∈ cs \/ x = c.
Proof.
  unfold add_label. case_bool_decide; [by left|].
  rewrite elem_of_app, list_elem_of_singleton. tauto.
Qed.

Lemma lag_pair_elem (cols : list string) (ck : string * Z) :
  ck ∈ lag_pairs cols <-> ck.1 ∈ cols /\ ck.2 ∈ lags.
Proof.
  unfold lag_pairs. rewrite list_elem_of_In, in_flat_map. split.
  - intros (c & Hc & Hin). apply in_map_iff in Hin as (k & <- & Hk).
    by rewrite !list_elem_of_In.
  - intros [Hc Hk]. exists ck.1. rewrite <- list_elem_of_In. split; [done|].
    apply in_map_iff. exists ck.2. rewrite <- list_elem_of_In. by destruct ck.
Qed.

(** The labels of a lagged frame are those of the frame and the lag names. *)
Lemma columns_add_lags (cols : list string) (df df' : DataFrame) (x : string) :
  add_lags cols df = Ok df' -> x ∈ columns df' ->
  x ∈ columns df \/ x ∈ map pair_name (lag_pairs cols).
Proof.
  rewrite add_lags_pairs. intros Hrun.
  apply (for_each_preserves (fun d ck => add_lag ck.1 d ck.2)
           (fun d => x ∈ columns d ->
                     x ∈ columns df \/ x ∈ map pair_name (lag_pairs cols))
           (lag_pairs cols)) with (s := df); [|tauto|done].
  intros d ck d' Hck Hd Hstep Hx.
  rewrite (columns_add_lag _ _ _ _ Hstep) in Hx.
  apply elem_of_add_label in Hx as [Hx| ->]; [by apply Hd|].
  right. apply list_elem_of_fmap. by exists ck.
Qed.

Lemma add_lags_Raise (cols : list string) (df : DataFrame) (e : Exception) :
  add_lags cols df = Raise e ->
  exists c, e = KeyError c /\ c ∈ cols /\ c ∉ columns df.
Proof.
  rewrite add_lags_pairs. intros Hrun.
  apply (for_each_Raise_at _ (fun d => forall x, x ∈ columns df -> x ∈ columns d))
    in Hrun as (ck & d & Hck & Hd & Hb); [| |done].
  - apply add_lag_Raise in Hb as [-> Hno]. exists ck.1. split; [done|].
    split; [by apply lag_pair_elem in Hck as [? _]|]. intros Hin. by apply Hno, Hd.
  - intros d ck d' _ Hd Hstep x Hx.
    rewrite (columns_add_lag _ _ _ _ Hstep). by apply add_label_incl, Hd.
Qed.

Lemma lag_pairs_app (xs ys : list string) :
  lag_pairs (xs ++ ys) = lag_pairs xs ++ lag_pairs ys.
Proof. unfold lag_pairs. apply flat_map_app. Qed.

Lemma add_lags_first_missing (p : PropertyType) (df : DataFrame)
    (pre post : list string) (c : string) :
  all_features p = pre ++ c :: post ->
  (forall x, x ∈ pre -> x ∈ columns df) ->
  c ∉ columns df ->
  add_lags (all_features p) df = Raise (KeyError c).
Proof.
  intros Hall Hpre Hc.
  destruct (add_lags_Ok pre df Hpre) as [df1 H1].
  assert (c ∉ columns df1) as Hc1.
  { intros Hin. apply (columns_add_lags _ _ _ _ H1) in Hin as [Hin|Hin]; [done|].
    destruct (lag_names_fresh p) as [_ Hfresh].
    rewrite Forall_forall in Hfresh.
    destruct (Hfresh (c, 1)) as [Hno _].
    { apply lag_pair_elem. rewrite Hall. cbn [fst snd]. split.
      - apply elem_of_app. right. apply list_elem_of_here.
      - apply list_elem_of_here. }
    apply Hno. cbn [fst]. rewrite Hall, lag_pairs_app, map_app.
    apply elem_of_app. by left. }
  rewrite Hall. unfold add_lags in *. rewrite for_each_app, H1. cbn [bind for_each].
  unfold lags at 1. cbn [for_each]. unfold add_lag at 1, getitem.
  by rewrite bool_decide_eq_false_2.
Qed.

(** ** The metrics raise one exception *)

Lemma paired_Raise (y_true : list cell) (y_pred : list Q) (e : Exception) :
  paired y_true y_pred = Raise e -> e = InvalidMetricInput.
Proof.
  revert y_pred. induction y_true as [|[a|] t IH]; intros [|q t'] H; cbn in H;
    try congruence.
  destruct (paired t t') eqn:Hp; cbn in H; [discriminate|].
  injection H as <-. by eapply IH.
Qed.

Lemma check_targets_Raise (y_true : list cell) (y_pred : list Q) (e : Exception) :
  check_targets y_true y_pred = Raise e -> e = InvalidMetricInput.
Proof.
  unfold check_targets. destruct y_true; [congruence|]. apply paired_Raise.
Qed.

Section Outcomes.

Context {Trained : Type}.
Variable fit : ModelFamily -> list (list cell) -> list cell -> Trained.
Variable predict_row : Trained -> list cell -> Q.
Variable fs : FileSystem.
Variable model_dir : string.
Variable forecast_horizon : Z.
Variable authority : string.
Variable prop_type : PropertyType.

Local Abbreviation try_model' := (try_model fit predict_row fs model_dir authority prop_type).
Local Abbreviation evaluation' :=
  (evaluation fit predict_row fs model_dir forecast_horizon authority prop_type).
Local Abbreviation window_candidates' :=
  (window_candidates fit predict_row fs model_dir forecast_horizon authority prop_type).
Local Abbreviation candidates' :=
  (candidates fit predict_row fs model_dir forecast_horizon authority prop_type).
Local Abbreviation compete_on' :=
  (compete_on fit predict_row fs model_dir forecast_horizon authority prop_type).
Local Abbreviation window_body' :=
  (window_body fit predict_row fs model_dir forecast_horizon authority prop_type).
Local Abbreviation compete' :=
  (compete fit predict_row fs model_dir forecast_horizon authority prop_type).
Local Abbreviation cand_path' := (cand_path model_dir authority prop_type).
Local Abbreviation artifact := (artifact_path model_dir authority prop_type).
Local Abbreviation window_frame' := (window_frame forecast_horizon authority prop_type).
Local Abbreviation features :=
  (fun r : Row => map (fun c => cells r !! c) (lag_feature_names (all_features prop_type))).
Local Abbreviation target := (fun r : Row => cells r !! prop_name prop_type).

(** A combination that is not cached and whose window passes the data
    checks is evaluated. *)
Lemma evaluation_nonempty (df : DataFrame) (last_date : Timestamp) (w : Window)
    (df_time : DataFrame) (m : ModelFamily) :
  1 <= forecast_horizon ->
  window_frame' df last_date w = Ok df_time ->
  path_exists fs (artifact m w) = false ->
  exists c, evaluation' df_time w m = [c].
Proof.
  intros Hh (_ & lagged & Hl & -> & Hlen)%window_frame_Ok Hno.
  unfold evaluation. rewrite holdout_split_rows by lia. rewrite Hno.
  set (n := Z.to_nat (len (dropna lagged) - forecast_horizon)).
  set (model := fit m _ _).
  destruct (metrics_total (map target (drop n (rows (dropna lagged))))
              (predict predict_row model (map features (drop n (rows (dropna lagged))))))
    as [[e He] [a Ha]].
  - intros Hnil. apply (f_equal length) in Hnil.
    rewrite length_map, length_drop in Hnil. cbn [length] in Hnil.
    subst n. unfold len in *. lia.
  - apply Forall_fmap, Forall_drop. by eapply dropna_target_present.
  - unfold predict. by rewrite !length_map.
  - cbv zeta. rewrite He, Ha. eauto.
Qed.

Lemma evaluated_candidate (df : DataFrame) (last_date : Timestamp) (w : Window)
    (df_time : DataFrame) (m : ModelFamily) :
  1 <= forecast_horizon ->
  w ∈ time_windows ->
  window_frame' df last_date w = Ok df_time ->
  path_exists fs (artifact m w) = false ->
  exists c, c ∈ candidates' df last_date.
Proof.
  intros Hh Hw Hf Hno.
  destruct (evaluation_nonempty df last_date w df_time m Hh Hf Hno) as [c Hc].
  exists c. unfold candidates. apply list_elem_of_In, in_flat_map.
  exists w. split; [by apply list_elem_of_In|].
  unfold window_candidates. rewrite Hf. apply in_flat_map.
  exists m. split; [destruct m; cbn; tauto|]. rewrite Hc. by left.
Qed.

Lemma window_body_Ok_frame (df : DataFrame) (last_date : Timestamp)
    (s s' : Selection) (w : Window) :
  window_body' df last_date s w = Ok s' ->
  exists d, window_frame' df last_date w = Ok d.
Proof. unfold window_body. intros (d & Hd & _)%bind_Ok. eauto. Qed.

Lemma window_body_Raise_frame (df : DataFrame) (last_date : Timestamp)
    (s : Selection) (w : Window) (e : Exception) :
  1 <= forecast_horizon ->
  window_body' df last_date s w = Raise e ->
  window_frame' df last_date w = Raise e.
Proof.
  intros Hh. unfold window_body.
  destruct (window_frame' df last_date w) as [d|e'] eqn:Hf; cbn [bind];
    [|by intros [= ->]].
  destruct (compete_on_total fit predict_row fs model_dir forecast_horizon authority
              prop_type df last_date w d s Hh Hf) as [s' ->]. discriminate.
Qed.

(** X7. With a forecast horizon of at least one, the competition of a pair
    succeeds exactly when each of the five windows passes its two data
    checks and the artifact of at least one combination does not exist. *)
Theorem competition_succeeds_iff (log : list string) (df : DataFrame)
    (last_date : Timestamp) :
  1 <= forecast_horizon ->
  ((exists s, compete' df last_date log = Ok s) <->
   (forall w, w ∈ time_windows -> exists d, window_frame' df last_date w = Ok d)
   /\ exists w m, w ∈ time_windows /\ path_exists fs (artifact m w) = false).
Proof.
  intros Hh. split.
  - intros [s Hrun]. split.
    + apply compete_inv in Hrun as [Hloop _]. intros w Hw.
      destruct (for_each_Ok_each _ _ _ _ Hloop w Hw) as (s0 & s1 & Hb).
      by apply window_body_Ok_frame in Hb.
    + apply compete_selects in Hrun as (_ & i & c & (Hi & _) & _).
      assert (c ∈ candidates' df last_date) as Hc by (apply list_elem_of_lookup; eauto).
      apply elem_of_candidates in Hc as (Hw & Hno & _).
      exists (cand_window c), (cand_family c). by split.
  - intros [Hall (w & m & Hw & Hno)].
    destruct (for_each_total (window_body' df last_date) time_windows) with
      (s := initial_selection (Trained := Trained) log) as [s Hs].
    { intros s0 w0 Hw0. destruct (Hall w0 Hw0) as [d Hd].
      unfold window_body. rewrite Hd. cbn [bind].
      by apply (compete_on_total fit predict_row fs model_dir forecast_horizon
                  authority prop_type df last_date). }
    exists s. unfold compete. rewrite Hs. cbn [bind].
    destruct (Hall w Hw) as [d Hd].
    destruct (evaluated_candidate df last_date w d m Hh Hw Hd Hno) as [c Hc].
    apply window_loop_invariant in Hs as [_ [[Hnil _]|(i & c' & _ & _ & _ & Hm & _)]].
    + rewrite Hnil in Hc. by apply not_elem_of_nil in Hc.
    + by rewrite Hm.
Qed.

(** X10. With a forecast horizon of at least one, the competition of a
    pair raises one of four exceptions only: "not enough data" for the
    five-year window (the shortest one), "not enough data after lagging"
    for some window, a KeyError for a listed column the series lacks, or
    "no valid model", the last one exactly when every window passes its
    checks and every combination is cached. *)
Theorem competition_exceptions (log : list string) (df : DataFrame)
    (last_date : Timestamp) (e : Exception) :
  1 <= forecast_horizon ->
  compete' df last_date log = Raise e ->
  (e = NotEnoughData prop_type authority (Some 5)
   /\ len (filter_window df last_date (Some 5)) < 4)
  \/ (exists w, w ∈ time_windows
        /\ e = NotEnoughDataAfterLag prop_type authority w
        /\ 4 <= len (filter_window df last_date w))
  \/ (exists c, e = KeyError c /\ c ∈ all_features prop_type /\ c ∉ columns df)
  \/ (e = NoValidModel prop_type authority
      /\ (forall w, w ∈ time_windows -> exists d, window_frame' df last_date w = Ok d)
      /\ (forall w m, w ∈ time_windows -> path_exists fs (artifact m w) = true)).
Proof.
  intros Hh Hrun. pose proof Hrun as Hrun0. unfold compete in Hrun.
  destruct (for_each (window_body' df last_date) time_windows (initial_selection log))
    as [s|e'] eqn:Hloop; cbn [bind] in Hrun.
  - destruct (best_model s) eqn:Hb; [discriminate|]. injection Hrun as <-.
    do 3 right. split; [done|].
    assert (forall w, w ∈ time_windows -> exists d, window_frame' df last_date w = Ok d)
      as Hall.
    { intros w Hw. destruct (for_each_Ok_each _ _ _ _ Hloop w Hw) as (s0 & s1 & Hbody).
      by apply window_body_Ok_frame in Hbody. }
    split; [done|]. intros w m Hw.
    destruct (path_exists fs (artifact m w)) eqn:Hno; [done|].
    destruct (Hall w Hw) as [d Hd].
    destruct (evaluated_candidate df last_date w d m Hh Hw Hd Hno) as [c Hc].
    apply window_loop_invariant in Hloop as [_ [[Hnil _]|(i & c' & _ & _ & _ & Hm & _)]].
    + rewrite Hnil in Hc. by apply not_elem_of_nil in Hc.
    + congruence.
  - injection Hrun as ->.
    apply for_each_Raise_inv in Hloop as (w & s0 & Hw & Hbody).
    apply window_body_Raise_frame in Hbody; [|done].
    apply window_frame_Raise in Hbody
      as [[Hshort ->]|[[Hlen Hlag]|(Hlen & lagged & _ & _ & ->)]].
    + assert (len (filter_window df last_date (Some 5)) < 4) as H5
        by (pose proof (len_first_window df last_date w Hw); lia).
      left. split; [|done].
      rewrite (compete_first_window_short fit predict_row fs model_dir forecast_horizon
                 authority prop_type log df last_date H5) in Hrun0.
      congruence.
    + do 2 right. left.
      apply add_lags_Raise in Hlag as (c & -> & Hc & Hno).
      rewrite columns_filter_window in Hno. eauto.
    + right. left. eauto.
Qed.

(** X4. When the series lacks one of the listed columns (the twenty
    features and the index of the pair) and its five-year window has at
    least four rows, the competition raises the KeyError of the first
    listed column that is absent: the lookup of line 100 is not guarded. *)
Theorem missing_feature_raises_KeyError (log : list string) (df : DataFrame)
    (last_date : Timestamp) (pre post : list string) (c : string) :
  all_features prop_type = pre ++ c :: post ->
  (forall x, x ∈ pre -> x ∈ columns df) ->
  c ∉ columns df ->
  4 <= len (filter_window df last_date (Some 5)) ->
  compete' df last_date log = Raise (KeyError c).
Proof.
  intros Hall Hpre Hc Hlen.
  unfold compete, time_windows. cbn [for_each]. unfold window_body at 1, window_frame.
  destruct (len (filter_window df last_date (Some 5)) <? 4) eqn:Hlt;
    [apply Z.ltb_lt in Hlt; lia|].
  rewrite (add_lags_first_missing prop_type _ pre post c Hall); [done| |].
  - intros x Hx. rewrite columns_filter_window. by apply Hpre.
  - by rewrite columns_filter_window.
Qed.

End Outcomes.

Section Results.

Context {Trained : Type}.
Variable fit : ModelFamily -> list (list cell) -> list cell -> Trained.
Variable predict_row : Trained -> list cell -> Q.
Variable today : date.

Local Abbreviation compete' := (compete fit predict_row).
Local Abbreviation candidates' := (candidates fit predict_row).
Local Abbreviation forecast_pair' := (forecast_pair fit predict_row today).
Local Abbreviation forecast_authority' := (forecast_authority fit predict_row today).
Local Abbreviation run := (train_and_forecast_by_authority fit predict_row today).

(** The forecast step, read backwards. *)
Lemma forecast_with_Ok_inv (p : PropertyType) (df : DataFrame) (model : Trained)
    (f : Q) :
  forecast_with predict_row p df model = Ok f ->
  exists full r,
    add_lags (all_features p) df = Ok full
    /\ last (rows (dropna full)) = Some r
    /\ f = predict_row model
             (map (fun c => cells r !! c) (lag_feature_names (all_features p))).
Proof.
  unfold forecast_with. intros (full & Hfull & H)%bind_Ok.
  exists full. unfold iloc_from, select in H. rewrite length_map in H.
  destruct (last (rows (dropna full))) as [r|] eqn:Hlast.
  - exists r. split; [done|]. split; [done|].
    apply last_Some in Hlast as [l' Hl']. rewrite Hl' in H.
    assert (slice_pos (-1) (length (l' ++ [r])) = length l') as Hpos.
    { unfold slice_pos. rewrite length_app. cbn. lia. }
    rewrite Hpos, map_app, drop_app_length' in H by (by rewrite length_map).
    unfold predict in H. cbn [map item0] in H. by injection H as <-.
  - apply last_None in Hlast. rewrite Hlast in H. discriminate.
Qed.

Lemma forecast_pair_selected (fs : FileSystem) (model_dir : string)
    (h : Z) (a : string) (p : PropertyType) (df_a : DataFrame)
    (st st' : list (PropertyType * PairResult) * list string) :
  forecast_pair' fs model_dir h a p df_a st = Ok st' ->
  exists l i c full r res,
    last (rows (sort_values_period df_a)) = Some l
    /\ first_minimum
         (candidates' fs model_dir h a p (sort_values_period df_a) (period l)) i c
    /\ st'.1 = dict_set st.1 p res
    /\ res_mape res = cand_mape c
    /\ res_mae res = cand_mae c
    /\ res_best_model res = model_name (cand_family c)
    /\ res_best_time_window res = cand_window c
    /\ res_model_file res = cand_path model_dir a p c
    /\ path_exists fs (res_model_file res) = false
    /\ add_lags (all_features p) (sort_values_period df_a) = Ok full
    /\ last (rows (dropna full)) = Some r
    /\ res_forecast res
       = predict_row (cand_model c)
           (map (fun x => cells r !! x) (lag_feature_names (all_features p))).
Proof.
  unfold forecast_pair.
  destruct (negb _); [discriminate|]. unfold iloc_last.
  destruct (last (rows (sort_values_period df_a))) as [l|]; [|discriminate].
  cbn [bind]. intros H.
  apply bind_Ok in H as (s & Hs & H).
  apply compete_selects in Hs as (_ & i & c & Hmin & (Hn & Hmp & Hmd & Hw & Hmt)).
  rewrite Hn, Hmp, Hmd, Hmt, Hw in H. cbn [bind] in H.
  apply bind_Ok in H as (forecast & Hf & H).
  apply forecast_with_Ok_inv in Hf as (full & r & Hfull & Hr & ->).
  injection H as <-.
  eexists l, i, c, full, r, _. split; [done|]. split; [done|].
  split; [reflexivity|]. cbn. repeat (split; [done|]). split; [|done].
  assert (c ∈ candidates' fs model_dir h a p (sort_values_period df_a) (period l))
    as Hc by (destruct Hmin as [Hi _]; apply list_elem_of_lookup; eauto).
  by apply elem_of_candidates in Hc as (_ & Hno & _).
Qed.

(** X8. What a successful pair stores (lines 144-167): every field of the
    entry comes from one evaluated combination, the first one of minimal
    MAPE. The artifact file of that combination does not exist, and the
    forecast is the prediction of its model on the last complete row of the
    lagged full series. *)
Theorem pair_entry_is_the_selected_candidate (fs : FileSystem) (model_dir : string)
    (h : Z) (a : string) (p : PropertyType) (df_a : DataFrame)
    (st st' : list (PropertyType * PairResult) * list string) :
  forecast_pair' fs model_dir h a p df_a st = Ok st' ->
  exists l i c full r res,
    last (rows (sort_values_period df_a)) = Some l
    /\ first_minimum
         (candidates' fs model_dir h a p (sort_values_period df_a) (period l)) i c
    /\ st'.1 = dict_set st.1 p res
    /\ res_mape res = cand_mape c
    /\ res_mae res = cand_mae c
    /\ res_best_model res = model_name (cand_family c)
    /\ res_best_time_window res = cand_window c
    /\ res_model_file res = cand_path model_dir a p c
    /\ path_exists fs (res_model_file res) = false
    /\ add_lags (all_features p) (sort_values_period df_a) = Ok full
    /\ last (rows (dropna full)) = Some r
    /\ res_forecast res
       = predict_row (cand_model c)
           (map (fun x => cells r !! x) (lag_feature_names (all_features p))).
Proof. exact (forecast_pair_selected fs model_dir h a p df_a st st'). Qed.

(** *** Runs that return *)

Lemma run_Returned_loop (fs fs' : FileSystem) (data : list Record_)
    (pts : list PropertyType) (h : Z) (model_dir : string)
    (recs : list FlatRecord) (log : list string) :
  run fs data pts h model_dir = Returned fs' recs log ->
  exists results,
    makedirs model_dir fs = Ok fs'
    /\ for_each (forecast_authority' fs' model_dir h pts (make_frame data))
                (unique (map RegionName (rows (make_frame data)))) ([], [])
       = Ok (results, log)
    /\ recs = flatten_forecast_data results.
Proof.
  unfold train_and_forecast_by_authority. cbv zeta.
  case_bool_decide; [discriminate|].
  destruct (makedirs model_dir fs) as [fs1|]; [|discriminate].
  destruct (for_each _ _ _) as [[results log']|] eqn:Hrun; [|discriminate].
  intros [= -> <- <-]. by exists results.
Qed.

(** The entry of a pair names a combination of the catalogue fitted in
    this run, whose artifact file does not exist. *)
Local Abbreviation entry_fitted fs model_dir pts a log :=
  (fun entry : PropertyType * PairResult =>
     entry.1 ∈ pts
     /\ exists m w,
          w ∈ time_windows
          /\ res_best_model entry.2 = model_name m
          /\ res_best_time_window entry.2 = w
          /\ res_model_file entry.2 = artifact_path model_dir a entry.1 m w
          /\ path_exists fs (res_model_file entry.2) = false
          /\ res_model_file entry.2 ∈ log).

Lemma forecast_pair_fitted (fs : FileSystem) (model_dir : string) (h : Z)
    (pts : list PropertyType) (a : string) (p : PropertyType) (df_a : DataFrame)
    (st st' : list (PropertyType * PairResult) * list string) :
  p ∈ pts ->
  Forall (entry_fitted fs model_dir pts a st.2) st.1 ->
  forecast_pair' fs model_dir h a p df_a st = Ok st' ->
  Forall (entry_fitted fs model_dir pts a st'.2) st'.1
  /\ (forall path, path ∈ st.2 -> path ∈ st'.2).
Proof.
  intros Hp Hst Hrun.
  pose proof Hrun as (l & s & res0 & Hl & Hs & Hst' & _)%forecast_pair_Ok.
  apply compete_selects in Hs as [Hlog _].
  apply forecast_pair_selected in Hrun
    as (l' & i & c & full & r & res & Hl' & Hmin & Hres & _ & _ & Hbm & Hbw & Hmf & Hno & _).
  rewrite Hl in Hl'. injection Hl' as <-.
  assert (c ∈ candidates' fs model_dir h a p (sort_values_period df_a) (period l))
    as Hc by (destruct Hmin as [Hi _]; apply list_elem_of_lookup; eauto).
  assert (forall path, path ∈ st.2 -> path ∈ st'.2) as Hmono.
  { intros path Hin. rewrite Hst'. cbn [snd]. rewrite Hlog.
    apply elem_of_app. by right. }
  split; [|done]. rewrite Hres. apply Forall_dict_set.
  - eapply Forall_impl; [exact Hst|].
    intros entry (Hin & m & w & Hw & H1 & H2 & H3 & H4 & H5).
    split; [done|]. exists m, w. repeat (split; [done|]). by apply Hmono.
  - split; [done|]. exists (cand_family c), (cand_window c). cbn [fst snd].
    split; [by apply elem_of_candidates in Hc as (Hw & _)|].
    repeat (split; [done|]).
    rewrite Hst'. cbn [snd]. rewrite Hlog, Hmf. apply elem_of_app. left.
    apply list_elem_of_In, in_rev. rewrite rev_involutive.
    apply list_elem_of_In, list_elem_of_fmap. by exists c.
Qed.

Lemma forecast_authority_fitted (fs : FileSystem) (model_dir : string) (h : Z)
    (pts : list PropertyType) (df : DataFrame) (auths : list string) (a : string)
    (st st' : Nested * list string) :
  a ∈ auths ->
  Forall (fun x => x.1 ∈ auths /\ Forall (entry_fitted fs model_dir pts x.1 st.2) x.2)
         st.1 ->
  forecast_authority' fs model_dir h pts df st a = Ok st' ->
  Forall (fun x => x.1 ∈ auths /\ Forall (entry_fitted fs model_dir pts x.1 st'.2) x.2)
         st'.1.
Proof.
  intros Ha Hst. unfold forecast_authority. case_bool_decide; [discriminate|].
  intros (inner & Hinner & [= <-])%bind_Ok. cbn [fst snd].
  assert (Forall (entry_fitted fs model_dir pts a inner.2) inner.1
          /\ forall path, path ∈ st.2 -> path ∈ inner.2) as [Hin Hmono].
  { eapply (for_each_preserves _
              (fun s => Forall (entry_fitted fs model_dir pts a s.2) s.1
                        /\ forall path, path ∈ st.2 -> path ∈ s.2));
      [| |exact Hinner].
    - intros s p s' Hp [Hs Hm] Hstep.
      destruct (forecast_pair_fitted _ _ _ _ _ _ _ _ _ Hp Hs Hstep) as [Hs' Hm'].
      split; [done|]. intros path Hpath. by apply Hm', Hm.
    - split; [constructor|done]. }
  apply Forall_dict_set; [|done].
  eapply Forall_impl; [exact Hst|]. intros x [Hx1 Hx]. split; [done|].
  eapply Forall_impl; [exact Hx|].
  intros entry (He & m & w & Hw & H1 & H2 & H3 & H4 & H5).
  split; [done|]. exists m, w. repeat (split; [done|]). by apply Hmono.
Qed.

(** X11. Every record of a run that returns names, as its model file, the
    artifact path of its own authority, property type, best model and best
    window, one of the fifteen combinations of the catalogue; that model
    was fitted during this run, and the file does not exist when the run
    ends. *)
Theorem returned_model_files_do_not_exist (fs fs' : FileSystem)
    (data : list Record_) (pts : list PropertyType) (h : Z) (model_dir : string)
    (recs : list FlatRecord) (log : list string) (rec : FlatRecord) :
  run fs data pts h model_dir = Returned fs' recs log ->
  rec ∈ recs ->
  exists a p m w,
    a ∈ map in_RegionName data /\ p ∈ pts /\ w ∈ time_windows
    /\ dict_get rec "local_authority"%string = Some (VStr a)
    /\ dict_get rec "property_type"%string = Some (VStr (prop_name p))
    /\ dict_get rec "best_model"%string = Some (VStr (model_name m))
    /\ dict_get rec "best_time_window"%string = Some (window_value w)
    /\ dict_get rec "model_file"%string
       = Some (VStr (artifact_path model_dir a p m w))
    /\ artifact_path model_dir a p m w ∈ log
    /\ path_exists fs' (artifact_path model_dir a p m w) = false.
Proof.
  intros Hrun Hrec.
  apply run_Returned_loop in Hrun as (results & Hmk & Hloop & ->).
  set (auths := unique (map RegionName (rows (make_frame data)))) in Hloop.
  assert (Forall (fun x => x.1 ∈ auths
                           /\ Forall (entry_fitted fs' model_dir pts x.1 log) x.2)
                 results) as Hall.
  { apply (for_each_preserves _
             (fun s => Forall (fun x => x.1 ∈ auths
                                 /\ Forall (entry_fitted fs' model_dir pts x.1 s.2) x.2)
                         s.1)) in Hloop; [done| |constructor].
    intros s x s' Hx. by apply forecast_authority_fitted. }
  apply elem_of_flatten in Hrec as (a & inner & p & res & Ha & Hp & ->).
  rewrite Forall_forall in Hall. destruct (Hall _ Ha) as [Hauth Hinner].
  cbn [fst snd] in Hauth, Hinner. rewrite Forall_forall in Hinner.
  destruct (Hinner _ Hp) as (Hpts & m & w & Hw & Hbm & Hbw & Hmf & Hno & Hlog).
  cbn [fst snd] in *.
  exists a, p, m, w.
  assert (map RegionName (rows (make_frame data)) = map in_RegionName data) as Hreg
    by (cbn [rows make_frame]; by rewrite map_map).
  split; [subst auths; apply (proj1 (elem_of_unique _ _)) in Hauth; by rewrite Hreg in Hauth|].
  split; [done|]. split; [done|].
  unfold flat_record. cbn. rewrite Hbm, Hbw, Hmf in *. by repeat split.
Qed.

(** *** Runs that cannot return *)

(** X6. With a forecast horizon below one the holdout is empty and no
    combination can be evaluated: on non-empty data and a non-empty list
    of property types the run raises, whatever the data. *)
Theorem nonpositive_horizon_never_returns (fs : FileSystem) (data : list Record_)
    (pts : list PropertyType) (h : Z) (model_dir : string) :
  h <= 0 -> data <> [] -> pts <> [] ->
  exists fs' e, run fs data pts h model_dir = Raised fs' e.
Proof.
  intros Hh Hdata Hpts.
  destruct data as [|r0 data]; [done|]. destruct pts as [|p pts]; [done|].
  apply (run_raises fit predict_row today) with (a := in_RegionName r0);
    [apply list_elem_of_here|].
  intros fs' st.
  apply (forecast_authority_raises fit predict_row today) with (p := p);
    [apply list_elem_of_here|].
  apply forecast_pair_raises. intros l log _.
  destruct (compete' fs' model_dir h (in_RegionName r0) p _ (period l) log)
    as [s|e] eqn:Hs; [|eauto].
  apply compete_selects in Hs as (_ & i & c & (Hi & _) & _).
  assert (1 <= h); [|lia].
  eapply (evaluated_horizon fit predict_row), list_elem_of_lookup. eauto.
Qed.

(** X3. The index column of a property type is looked for before anything
    is fitted (lines 75-76): when the data lacks the column of the first
    property type, the run raises "missing property type" for the first
    authority of the data, having created the model directory. *)
Theorem missing_property_column_raises (fs fs' : FileSystem) (r0 : Record_)
    (data : list Record_) (p : PropertyType) (pts : list PropertyType) (h : Z)
    (model_dir : string) :
  prop_name p ∉ columns (make_frame (r0 :: data)) ->
  makedirs model_dir fs = Ok fs' ->
  run fs (r0 :: data) (p :: pts) h model_dir
  = Raised fs' (MissingPropertyType p (in_RegionName r0)).
Proof.
  intros Hcol Hmk. unfold train_and_forecast_by_authority. cbv zeta.
  rewrite bool_decide_eq_false_2 by done. rewrite Hmk.
  cbn [rows make_frame map unique for_each].
  unfold forecast_authority at 1.
  rewrite bool_decide_eq_false_2.
  2:{ cbn [select_region with_rows rows make_frame map List.filter].
      rewrite bool_decide_eq_true_2 by done. done. }
  cbn [for_each]. unfold forecast_pair at 1.
  cbn [select_region with_rows columns].
  rewrite bool_decide_eq_false_2 by done. done.
Qed.

End Results.

(** ** Rows with a missing value *)

(** X14. [dropna] (line 102) looks at every column of the frame, not only
    at the listed features: a row of a training frame has a value in every
    column of the series, and a month whose row lacks the value of any
    column of the series, listed or not, is not used for training. *)
Theorem rows_with_any_missing_value_are_dropped (h : Z) (a : string)
    (p : PropertyType) (df : DataFrame) (last_date : Timestamp) (w : Window)
    (d : DataFrame) :
  window_frame h a p df last_date w = Ok d ->
  (forall r c, r ∈ rows d -> c ∈ columns df -> is_Some (cells r !! c))
  /\ exists lagged,
       add_lags (all_features p) (filter_window df last_date w) = Ok lagged
       /\ d = dropna lagged
       /\ forall i r c,
            rows lagged !! i = Some r ->
            c ∈ columns df ->
            c ∉ lag_feature_names (all_features p) ->
            cell_at (filter_window df last_date w) i c = None ->
            r ∉ rows d.
Proof.
  intros (_ & lagged & Hlag & -> & _)%window_frame_Ok.
  pose proof Hlag as Hpairs. rewrite add_lags_pairs in Hpairs.
  destruct (lag_names_fresh p) as [Hnodup Hfresh]. rewrite Forall_forall in Hfresh.
  apply lag_loop_spec in Hpairs as (Hlen & Hcols & _ & Hsame & _);
    [|intros ck Hck; by apply Hfresh|done|intros ck Hck; by apply Hfresh].
  assert (forall c, c ∈ columns df -> c ∈ columns lagged) as Hcols'.
  { intros c Hc. apply Hcols. by rewrite columns_filter_window. }
  split.
  - intros r c [_ Hall]%elem_of_dropna Hc. by apply Hall, Hcols'.
  - exists lagged. split; [done|]. split; [done|].
    intros i r c Hi Hc Hname Hnan [_ Hall]%elem_of_dropna.
    assert (i < length (rows (filter_window df last_date w)))%nat as Hi'.
    { rewrite <- Hlen. by eapply lookup_lt_Some. }
    assert (c ∉ map pair_name (lag_pairs (all_features p))) as Hname'.
    { intros Hin. apply Hname. unfold lag_feature_names.
      apply list_elem_of_fmap in Hin as ([c0 k] & -> & Hin).
      apply lag_pair_elem in Hin as [Hc0 Hk]. cbn [fst snd] in *.
      apply list_elem_of_In, in_flat_map. exists c0.
      split; [by apply list_elem_of_In|]. apply in_map_iff. exists k.
      split; [done|]. by apply list_elem_of_In. }
    specialize (Hsame i c Hi' Hname'). rewrite Hnan in Hsame.
    unfold cell_at in Hsame. rewrite Hi in Hsame. cbn in Hsame.
    destruct (Hall c (Hcols' c Hc)) as [q Hq]. congruence.
Qed.

Section Fitted.

Context {Trained : Type}.
Variable fit : ModelFamily -> list (list cell) -> list cell -> Trained.
Variable predict_row : Trained -> list cell -> Q.
Variable fs : FileSystem.
Variable model_dir : string.
Variable forecast_horizon : Z.
Variable authority : string.
Variable prop_type : PropertyType.

Local Abbreviation evaluation' :=
  (evaluation fit predict_row fs model_dir forecast_horizon authority prop_type).
Local Abbreviation window_candidates' :=
  (window_candidates fit predict_row fs model_dir forecast_horizon authority prop_type).
Local Abbreviation candidates' :=
  (candidates fit predict_row fs model_dir forecast_horizon authority prop_type).
Local Abbreviation compete' :=
  (compete fit predict_row fs model_dir forecast_horizon authority prop_type).
Local Abbreviation cand_path' := (cand_path model_dir authority prop_type).
Local Abbreviation artifact := (artifact_path model_dir authority prop_type).
Local Abbreviation window_frame' := (window_frame forecast_horizon authority prop_type).

(** The combinations whose artifact file does not exist. *)
Local Abbreviation uncached :=
  (fun wm : Window * ModelFamily => negb (path_exists fs (artifact wm.2 wm.1))).

Lemma evaluation_key_exact (df : DataFrame) (last_date : Timestamp) (w : Window)
    (df_time : DataFrame) (m : ModelFamily) :
  1 <= forecast_horizon ->
  window_frame' df last_date w = Ok df_time ->
  map cand_key (evaluation' df_time w m) = List.filter uncached [(w, m)].
Proof.
  intros Hh Hf. cbn [List.filter fst snd].
  destruct (path_exists fs (artifact m w)) eqn:Hex; cbn [negb].
  - unfold evaluation.
    destruct (holdout_split forecast_horizon prop_type df_time)
      as [[[X_train y_train] X_test] y_test].
    by rewrite Hex.
  - destruct (evaluation_nonempty fit predict_row fs model_dir forecast_horizon
                authority prop_type df last_date w df_time m Hh Hf Hex) as [c Hc].
    assert (c ∈ evaluation' df_time w m) as Hin
      by (rewrite Hc; apply list_elem_of_here).
    apply elem_of_evaluation in Hin as (Hcw & Hcm & _).
    rewrite Hc. cbn. unfold cand_key. by rewrite Hcw, Hcm.
Qed.

Lemma window_keys_exact (df : DataFrame) (last_date : Timestamp) (w : Window)
    (df_time : DataFrame) (ms : list ModelFamily) :
  1 <= forecast_horizon ->
  window_frame' df last_date w = Ok df_time ->
  map cand_key (flat_map (evaluation' df_time w) ms)
  = List.filter uncached (map (pair w) ms).
Proof.
  intros Hh Hf. induction ms as [|m ms IH]; [done|].
  cbn [flat_map map]. rewrite map_app, IH.
  rewrite (evaluation_key_exact df last_date w df_time m Hh Hf).
  change ((w, m) :: map (pair w) ms) with ([(w, m)] ++ map (pair w) ms).
  by rewrite List.filter_app.
Qed.

Lemma candidates_keys_exact (df : DataFrame) (last_date : Timestamp)
    (ws : list Window) :
  1 <= forecast_horizon ->
  (forall w, w ∈ ws -> exists d, window_frame' df last_date w = Ok d) ->
  map cand_key (flat_map (window_candidates' df last_date) ws)
  = List.filter uncached (flat_map (fun w => map (pair w) model_families) ws).
Proof.
  intros Hh. induction ws as [|w ws IH]; intros Hall; [done|].
  cbn [flat_map]. rewrite map_app, List.filter_app, IH
    by (intros w' Hw'; by apply Hall, list_elem_of_further).
  f_equal. unfold window_candidates.
  destruct (Hall w (list_elem_of_here _ _)) as [d Hd]. rewrite Hd.
  by apply (window_keys_exact df last_date).
Qed.

(** X13. A competition that succeeds has fitted every combination whose
    artifact file does not exist, each one once and in catalogue order,
    whichever combination is selected in the end: the new entries of the
    fit history are the artifact paths of exactly those combinations. *)
Theorem every_uncached_combination_is_fitted (log : list string) (df : DataFrame)
    (last_date : Timestamp) (s : Selection) :
  compete' df last_date log = Ok s ->
  map cand_key (candidates' df last_date) = List.filter uncached combinations
  /\ fit_log s
     = rev (map (fun wm => artifact wm.2 wm.1) (List.filter uncached combinations))
       ++ log
  /\ (length (fit_log s)
      = length (List.filter uncached combinations) + length log)%nat.
Proof.
  intros Hrun.
  pose proof Hrun as (Hlog & i & c & (Hi & _) & _)%compete_selects.
  assert (1 <= forecast_horizon) as Hh.
  { eapply (evaluated_horizon fit predict_row), list_elem_of_lookup. eauto. }
  assert (forall w, w ∈ time_windows -> exists d, window_frame' df last_date w = Ok d)
    as Hall.
  { apply compete_inv in Hrun as [Hloop _]. intros w Hw.
    destruct (for_each_Ok_each _ _ _ _ Hloop w Hw) as (s0 & s1 & Hb).
    by eapply window_body_Ok_frame. }
  assert (map cand_key (candidates' df last_date) = List.filter uncached combinations)
    as Hkeys by (by apply candidates_keys_exact).
  assert (map cand_path' (candidates' df last_date)
          = map (fun wm => artifact wm.2 wm.1) (List.filter uncached combinations))
    as Hpaths.
  { rewrite <- Hkeys, map_map. done. }
  split; [done|]. split; [by rewrite Hlog, Hpaths|].
  by rewrite Hlog, Hpaths, length_app, length_rev, length_map.
Qed.

End Fitted.

(** ** Artifact paths *)

Lemma append_inv_head (a x y : string) : a +:+ x = a +:+ y -> x = y.
Proof. induction a as [|c a IH]; cbn; [done|]. intros [= H]. by apply IH. Qed.

Lemma prefix_slash_cons (c : ascii) (s t : string) :
  String.prefix "/" (String c s) = String.prefix "/" (String c t).
Proof.
  change (String.prefix "/" (String c s))
    with (if ascii_dec "/" c then String.prefix "" s else false).
  change (String.prefix "/" (String c t))
    with (if ascii_dec "/" c then String.prefix "" t else false).
  destruct (ascii_dec "/" c); [by destruct s, t|done].
Qed.

Lemma path_join_underscore_inj (model_dir a x y : string) :
  path_join model_dir (a +:+ String "_" x) = path_join model_dir (a +:+ String "_" y) ->
  x = y.
Proof.
  unfold path_join.
  assert (String.prefix "/" (a +:+ String "_" x) = String.prefix "/" (a +:+ String "_" y))
    as <-.
  { destruct a as [|c a]; [done|].
    change (String c a +:+ String "_" x) with (String c (a +:+ String "_" x)).
    change (String c a +:+ String "_" y) with (String c (a +:+ String "_" y)).
    apply prefix_slash_cons. }
  destruct (String.prefix "/" (a +:+ String "_" x)).
  - intros H%append_inv_head. by injection H.
  - destruct (bool_decide (model_dir = "") || ends_with_slash model_dir).
    + intros H%append_inv_head%append_inv_head. by injection H.
    + intros H%append_inv_head%append_inv_head%append_inv_head. by injection H.
Qed.

(** X5. For one model directory and one authority, the sixty
    combinations of property type, window and model family have pairwise
    distinct artifact paths: the existence test of line 127 never confuses
    two combinations of an authority. *)
Theorem artifact_paths_are_distinct (model_dir authority : string) :
  NoDup (flat_map (fun p => map (fun wm => artifact_path model_dir authority p wm.2 wm.1)
                                combinations)
                  default_property_types).
Proof.
  set (tail := fun pwm : PropertyType * (Window * ModelFamily) =>
                 prop_name pwm.1 +:+ "_" +:+ model_name pwm.2.2 +:+ "_"
                 +:+ window_label pwm.2.1 +:+ "_model.pkl").
  set (keys := flat_map (fun p => map (pair p) combinations) default_property_types).
  assert (flat_map (fun p => map (fun wm => artifact_path model_dir authority p wm.2 wm.1)
                                 combinations)
                   default_property_types
          = map (fun t => path_join model_dir (authority +:+ String "_" t))
                (map tail keys)) as -> by reflexivity.
  apply NoDup_fmap_2.
  - intros x y. apply path_join_underscore_inj.
  - apply (proj1 (bool_decide_eq_true _)). vm_compute. reflexivity.
Qed.

(** ** The forecast date *)

Lemma bounded_check (P : Z -> bool) (lo hi : Z) :
  forallb P (map (fun i => lo + Z.of_nat i) (seq 0 (Z.to_nat (hi - lo)))) = true ->
  forall z, lo <= z < hi -> P z = true.
Proof.
  intros Hall z Hz. rewrite forallb_forall in Hall. apply Hall.
  apply in_map_iff. exists (Z.to_nat (z - lo)). split; [lia|]. apply in_seq. lia.
Qed.

Lemma length_append (a b : string) :
  String.length (a +:+ b) = (String.length a + String.length b)%nat.
Proof.
  induction a as [|c a IH]; [done|].
  change (String c a +:+ b) with (String c (a +:+ b)). cbn [String.length plus].
  by rewrite IH.
Qed.

Lemma length_zero_pad_month (m : Z) :
  1 <= m <= 12 -> String.length (zero_pad 2 m) = 2%nat.
Proof.
  intros Hm.
  apply Nat.eqb_eq,
    (bounded_check (fun z => String.length (zero_pad 2 z) =? 2)%nat 1 13); [|lia].
  vm_compute. reflexivity.
Qed.

Lemma length_zero_pad_year (y : Z) :
  1000 <= y <= 9999 -> String.length (zero_pad 4 y) = 4%nat.
Proof.
  intros Hy.
  apply Nat.eqb_eq,
    (bounded_check (fun z => String.length (zero_pad 4 z) =? 4)%nat 1000 10000); [|lia].
  vm_compute. reflexivity.
Qed.

(** X9. The forecast date (lines 152-153) is the calendar month after
    the last period, December being followed by January of the next year;
    for a four-digit year it is written as two digits, a slash and four
    digits. *)
Theorem forecast_date_is_the_next_month (t : Timestamp) :
  valid_ts t ->
  valid_ts (plus_one_month t)
  /\ month_index (plus_one_month t) = month_index t + 1
  /\ (month t = 12 -> plus_one_month t = {| year := year t + 1; month := 1 |})
  /\ (1000 <= year t <= 9998 ->
      exists mm yyyy,
        strftime_m_Y (plus_one_month t) = mm +:+ "/" +:+ yyyy
        /\ String.length mm = 2%nat /\ String.length yyyy = 4%nat
        /\ String.length (strftime_m_Y (plus_one_month t)) = 7%nat).
Proof.
  unfold valid_ts, month_index, plus_one_month. intros Hm.
  destruct (month t =? 12) eqn:H12; cbn [year month].
  - apply Z.eqb_eq in H12. split; [lia|]. split; [lia|]. split; [done|].
    intros Hy. unfold strftime_m_Y. cbn [year month].
    exists (zero_pad 2 1), (zero_pad 4 (year t + 1)). split; [done|].
    rewrite !length_append, length_zero_pad_month, length_zero_pad_year by lia.
    done.
  - apply Z.eqb_neq in H12. split; [lia|]. split; [lia|]. split; [done|].
    intros Hy. unfold strftime_m_Y. cbn [year month].
    exists (zero_pad 2 (month t + 1)), (zero_pad 4 (year t)). split; [done|].
    rewrite !length_append, length_zero_pad_month, length_zero_pad_year by lia.
    done.
Qed.

(** ** The two flattenings *)

Lemma services_flatten_unfold (nested : Nested) :
  services.flatten_forecast_data nested =
  flat_map (fun x => map (fun y => services.flat_record x.1 y.1 y.2) x.2) nested.
Proof.
  unfold services.flatten_forecast_data.
  induction nested as [|[a inner] nested IH]; cbn; [done|].
  rewrite IH. f_equal. induction inner as [|[p m] inner IHi]; cbn; [done|].
  by rewrite IHi.
Qed.

(** X15. The flattening of the service module yields, entry by entry, the
    record of the flattening of the core module followed by the field
    ["training_date"], which the core one leaves out. *)
Theorem services_flatten_adds_the_training_date (nested : Nested) :
  map (take 9) (services.flatten_forecast_data nested) = flatten_forecast_data nested
  /\ length (services.flatten_forecast_data nested)
     = length (flatten_forecast_data nested)
  /\ (forall rec, rec ∈ services.flatten_forecast_data nested <->
        exists a inner p m,
          (a, inner) ∈ nested /\ (p, m) ∈ inner
          /\ rec = flat_record a p m
                   ++ [("training_date"%string, VStr (res_training_date m))]).
Proof.
  assert (map (take 9) (services.flatten_forecast_data nested)
          = flatten_forecast_data nested) as Htake.
  { rewrite services_flatten_unfold, flatten_unfold.
    induction nested as [|[a inner] nested IH]; [done|].
    cbn [flat_map]. rewrite map_app. f_equal; [|exact IH]. cbn [fst snd].
    induction inner as [|[p m] inner IHi]; [done|]. cbn [map]. by rewrite IHi. }
  split; [done|]. split; [by rewrite <- Htake, length_map|].
  intros rec. rewrite services_flatten_unfold, list_elem_of_In, in_flat_map. split.
  - intros ([a inner] & Hx & Hin). apply in_map_iff in Hin as ([p m] & <- & Hy).
    exists a, inner, p, m. by rewrite !list_elem_of_In.
  - intros (a & inner & p & m & Hx & Hy & ->). exists (a, inner).
    split; [by apply list_elem_of_In|]. apply in_map_iff. exists (p, m).
    split; [done|]. by apply list_elem_of_In.
Qed.

(** ** Valuation *)

Lemma valuation_zero (h a b : Q) : (a == 0)%Q -> valuation h a b = 0%Q.
Proof. intros Ha. unfold valuation. by rewrite (proj2 (Qeq_bool_iff a 0) Ha). Qed.

Lemma valuation_nonzero (h a b : Q) :
  ~ (a == 0)%Q -> valuation h a b = (h * b / a)%Q.
Proof.
  intros Ha. unfold valuation. destruct (Qeq_bool a 0) eqn:H; [|done].
  by apply Qeq_bool_iff in H.
Qed.

(** X16. A valuation (lines 103-105) is zero when the index of the sale
    is zero; otherwise it gives the price back when the index has not
    moved, is linear in the price, depends on the two indices through
    their ratio only, and revaluing in two steps is revaluing in one. *)
Theorem valuation_follows_the_index_ratio (h a b c k : Q) :
  ((a == 0)%Q -> valuation h a b = 0%Q)
  /\ (~ (a == 0)%Q -> (valuation h a a == h)%Q)
  /\ (valuation (k * h) a b == k * valuation h a b)%Q
  /\ (~ (a == 0)%Q -> ~ (k == 0)%Q ->
      (valuation h (k * a) (k * b) == valuation h a b)%Q)
  /\ (~ (a == 0)%Q -> ~ (b == 0)%Q ->
      (valuation (valuation h a b) b c == valuation h a c)%Q).
Proof.
  split; [apply valuation_zero|]. split; [|split; [|split]].
  - intros Ha. rewrite valuation_nonzero by done. by field.
  - destruct (Qeq_dec a 0) as [Ha|Ha].
    + rewrite !valuation_zero by done. ring.
    + rewrite !valuation_nonzero by done. by field.
  - intros Ha Hk.
    assert (~ (k * a == 0)%Q) as Hka.
    { intros H. apply Qmult_integral in H as [H|H]; contradiction. }
    rewrite !valuation_nonzero by done. by field.
  - intros Ha Hb. rewrite !valuation_nonzero by done. by field.
Qed.

(** ** Substrings *)

Lemma prefix_spec (a s : string) :
  String.prefix a s = true <-> exists t, s = a +:+ t.
Proof.
  revert s. induction a as [|c a IH]; intros s.
  - split; [intros _; by exists s|]. intros _. by destruct s.
  - destruct s as [|c' s].
    + split; [done|]. by intros [t Ht].
    + change (String.prefix (String c a) (String c' s))
        with (if ascii_dec c c' then String.prefix a s else false).
      destruct (ascii_dec c c') as [->|Hne].
      * rewrite IH. split; intros [t Ht]; exists t.
        -- by rewrite Ht.
        -- change (String c' a +:+ t) with (String c' (a +:+ t)) in Ht. by injection Ht.
      * split; [done|]. intros [t Ht].
        change (String c a +:+ t) with (String c (a +:+ t)) in Ht. by injection Ht.
Qed.

Lemma append_assoc (a b c : string) : (a +:+ b) +:+ c = a +:+ b +:+ c.
Proof.
  induction a as [|x a IH]; [done|].
  change ((String x a +:+ b) +:+ c) with (String x ((a +:+ b) +:+ c)).
  by rewrite IH.
Qed.

Lemma contains_spec (a s : string) :
  contains a s = true <-> exists pre post, s = pre +:+ a +:+ post.
Proof.
  induction s as [|c s IH].
  - cbn [contains]. rewrite orb_false_r, prefix_spec. split.
    + intros [t Ht]. by exists ""%string, t.
    + intros (pre & post & H). destruct pre as [|x pre]; [by exists post|done].
  - cbn [contains]. rewrite orb_true_iff, prefix_spec, IH. split.
    + intros [[t Ht]|(pre & post & H)].
      * by exists ""%string, t.
      * exists (String c pre), post. by rewrite H.
    + intros (pre & post & H). destruct pre as [|x pre].
      * left. by exists post.
      * right. exists pre, post.
        change (String x pre +:+ a +:+ post) with (String x (pre +:+ a +:+ post)) in H.
        by injection H.
Qed.

Lemma contains_tail (a b s : string) :
  contains (a +:+ b) s = true -> contains b s = true.
Proof.
  rewrite !contains_spec. intros (pre & post & ->).
  exists (pre +:+ a), post. by rewrite !append_assoc.
Qed.

Lemma map_property_type_values (description : string) :
  map_property_type description ∈ ["Flat"; "Detached"; "Terraced"]%string
  /\ map_property_type description <> "Semi Detached"%string
  /\ (contains "semi detached" (normalized description) = true
      \/ contains "semidetached" (normalized description) = true ->
      map_property_type description
      = if contains "flat" (normalized description) then "Flat"%string
        else "Detached"%string).
Proof.
  assert (contains "semi detached" (normalized description) = true
          \/ contains "semidetached" (normalized description) = true ->
          contains "detached" (normalized description) = true) as Hsemi.
  { intros [H|H].
    - by apply (contains_tail "semi " "detached").
    - by apply (contains_tail "semi" "detached"). }
  assert (description = ""%string -> normalized description = ""%string) as Hempty
    by (by intros ->).
  unfold map_property_type. case_bool_decide as Hd.
  - split; [apply list_elem_of_here|]. split; [done|].
    intros H%Hsemi. by rewrite (Hempty Hd) in H.
  - unfold type_mapping. cbn [List.find fst snd].
    destruct (contains "flat" (normalized description)).
    { split; [apply list_elem_of_here|]. by split. }
    destruct (contains "detached" (normalized description)) eqn:Hdet.
    { split; [apply list_elem_of_further, list_elem_of_here|]. by split. }
    assert (contains "semidetached" (normalized description) = false) as ->.
    { destruct (contains "semidetached" (normalized description)) eqn:H; [|done].
      discriminate Hsemi. by right. }
    assert (contains "semi detached" (normalized description) = false) as ->.
    { destruct (contains "semi detached" (normalized description)) eqn:H; [|done].
      discriminate Hsemi. by left. }
    destruct (contains "terraced" (normalized description)).
    { split; [do 2 apply list_elem_of_further; apply list_elem_of_here|].
      split; [done|]. by intros [?|?]. }
    destruct (contains "terrace" (normalized description)).
    { split; [do 2 apply list_elem_of_further; apply list_elem_of_here|].
      split; [done|]. by intros [?|?]. }
    split; [apply list_elem_of_here|]. split; [done|]. by intros [?|?].
Qed.

(** X17. The key ['detached'] precedes ['semidetached'] and
    ['semi detached'] in the mapping and occurs in both: no description is
    mapped to ["Semi Detached"]. The result is one of ["Flat"],
    ["Detached"] and ["Terraced"], and a description that mentions
    "semi detached" or "semidetached" is mapped to ["Detached"] (to
    ["Flat"] when it also mentions "flat"). *)
Theorem semi_detached_is_never_returned (description : string) :
  map_property_type description ∈ ["Flat"; "Detached"; "Terraced"]%string
  /\ map_property_type description <> "Semi Detached"%string
  /\ (contains "semi detached" (normalized description) = true
      \/ contains "semidetached" (normalized description) = true ->
      map_property_type description
      = if contains "flat" (normalized description) then "Flat"%string
        else "Detached"%string).
Proof. exact (map_property_type_values description). Qed.

(** ** Sales that match *)

(** X18. [remove_matching_entries] returns its second list unchanged
    when one of the lists is empty, entries without area and price
    included; otherwise it keeps, in order, the entries of the second list
    that are not in the first one and have an area or a price per square
    metre other than zero. Applying it twice changes nothing more. *)
Theorem remove_matching_entries_keeps_the_others (array1 array2 : list Sale) :
  remove_matching_entries array1 array2 `sublist_of` array2
  /\ (array1 = [] -> remove_matching_entries array1 array2 = array2)
  /\ (array1 <> [] ->
      forall item, item ∈ remove_matching_entries array1 array2 <->
                   item ∈ array2 /\ (item ∉ array1)
                   /\ ~ (area item = 0 /\ price_per_m2 item = 0))
  /\ remove_matching_entries array1 (remove_matching_entries array1 array2)
     = remove_matching_entries array1 array2.
Proof.
  set (keep := fun item : Sale =>
                 negb (bool_decide (item ∈ array1))
                 && (negb (area item =? 0) || negb (price_per_m2 item =? 0))).
  assert (forall l, array1 <> [] -> remove_matching_entries array1 l = List.filter keep l)
    as Hfilter.
  { intros l Hne. unfold remove_matching_entries.
    destruct array1 as [|a1 array1]; [done|]. by destruct l. }
  assert (forall item, keep item = true <->
            (item ∉ array1) /\ ~ (area item = 0 /\ price_per_m2 item = 0)) as Hkeep.
  { intros item. unfold keep.
    rewrite andb_true_iff, orb_true_iff, !negb_true_iff, bool_decide_eq_false,
      !Z.eqb_neq. split; (intros [H1 H2]; split; [done|lia]). }
  destruct array1 as [|a1 array1'] eqn:Harr.
  - unfold remove_matching_entries. by repeat split.
  - rewrite <- Harr in *. assert (array1 <> []) as Hne by (by rewrite Harr).
    rewrite !Hfilter by done. split; [apply filter_sublist|]. split; [by rewrite Harr|].
    split.
    + intros _ item. rewrite (elem_of_List_filter keep), Hkeep. tauto.
    + clear. induction array2 as [|x l IH]; [done|]. cbn [List.filter].
      destruct (keep x) eqn:Hx; [|done]. cbn [List.filter]. by rewrite Hx, IH.
Qed.

(** ** The latest month of sales *)

Lemma date_le_spec (a b : date) :
  date_le a b = true <->
  d_year a < d_year b
  \/ (d_year a = d_year b
      /\ (d_month a < d_month b \/ (d_month a = d_month b /\ d_day a <= d_day b))).
Proof.
  unfold date_le.
  rewrite !orb_true_iff, !andb_true_iff, !orb_true_iff, !andb_true_iff,
    !Z.ltb_lt, !Z.eqb_eq, Z.leb_le. tauto.
Qed.

Lemma date_le_refl (a : date) : date_le a a = true.
Proof. apply date_le_spec. lia. Qed.

Lemma date_le_trans (a b c : date) :
  date_le a b = true -> date_le b c = true -> date_le a c = true.
Proof. rewrite !date_le_spec. lia. Qed.

Lemma date_le_total (a b : date) : date_le a b = false -> date_le b a = true.
Proof.
  intros H. apply date_le_spec.
  assert (~ (d_year a < d_year b
             \/ (d_year a = d_year b
                 /\ (d_month a < d_month b
                     \/ (d_month a = d_month b /\ d_day a <= d_day b))))) as Hn
    by (rewrite <- date_le_spec; congruence).
  lia.
Qed.

Lemma max_date_spec (d0 : date) (ds : list date) :
  max_date d0 ds ∈ d0 :: ds
  /\ forall d, d ∈ d0 :: ds -> date_le d (max_date d0 ds) = true.
Proof.
  unfold max_date. revert d0. induction ds as [|x ds IH]; intros d0; cbn [foldl].
  - split; [apply list_elem_of_here|].
    intros d ->%list_elem_of_singleton. apply date_le_refl.
  - destruct (date_le x d0) eqn:Hx.
    + destruct (IH d0) as [Hin Hmax]. split.
      * apply elem_of_cons in Hin as [->|Hin]; [apply list_elem_of_here|].
        by do 2 apply list_elem_of_further.
      * intros d [->|[->|Hd]%elem_of_cons]%elem_of_cons.
        -- apply Hmax, list_elem_of_here.
        -- eapply date_le_trans; [exact Hx|]. apply Hmax, list_elem_of_here.
        -- by apply Hmax, list_elem_of_further.
    + apply date_le_total in Hx. destruct (IH x) as [Hin Hmax]. split.
      * by apply list_elem_of_further.
      * intros d [->|[->|Hd]%elem_of_cons]%elem_of_cons.
        -- eapply date_le_trans; [exact Hx|]. apply Hmax, list_elem_of_here.
        -- apply Hmax, list_elem_of_here.
        -- by apply Hmax, list_elem_of_further.
Qed.

Section PricePaidFacts.

Variable strptime : string -> option date.
Variable now : date.

Local Abbreviation get_current_price_paid' := (get_current_price_paid strptime now).
Local Abbreviation in_latest_month' := (in_latest_month strptime).

Lemma parsed_dates (data : list Sale) (dates : list date) :
  mapM (fun entry => strptime (date_of_transfer entry)) data = Some dates ->
  (forall e, e ∈ data -> exists d, strptime (date_of_transfer e) = Some d /\ d ∈ dates)
  /\ (forall d, d ∈ dates ->
        exists e, e ∈ data /\ strptime (date_of_transfer e) = Some d).
Proof.
  intros H%mapM_Some. split.
  - intros e He. apply list_elem_of_lookup in He as [i Hi].
    destruct (Forall2_lookup_l _ _ _ _ _ H Hi) as (d & Hd & Hp).
    exists d. split; [done|]. apply list_elem_of_lookup. eauto.
  - intros d Hd. apply list_elem_of_lookup in Hd as [i Hi].
    destruct (Forall2_lookup_r _ _ _ _ _ H Hi) as (e & He & Hp).
    exists e. split; [|done]. apply list_elem_of_lookup. eauto.
Qed.

Lemma price_paid_outcome (data : list Sale)
    (requested : string) :
  (get_current_price_paid' data requested = None <->
   exists e, e ∈ data /\ strptime (date_of_transfer e) = None)
  /\ forall out,
       get_current_price_paid' data requested = Some out ->
       out = []
       \/ exists latest r,
            out = [r]
            /\ (exists e, e ∈ data /\ strptime (date_of_transfer e) = Some latest)
            /\ date_le latest now = true
            /\ (forall e d, e ∈ data -> strptime (date_of_transfer e) = Some d ->
                  date_le d now = true -> date_le d latest = true)
            /\ let entries := List.filter (in_latest_month' latest requested) data in
               entries <> []
               /\ month_of_transfer r = strftime_Y_m latest
               /\ paid_property_type r = requested
               /\ (Zsum (map area entries) = 0 -> paid_price_per_m2 r = 0)
               /\ (Zsum (map area entries) <> 0 ->
                   (Qabs (inject_Z (paid_price_per_m2 r)
                          - inject_Z (Zsum (map price entries))
                            / inject_Z (Zsum (map area entries)))
                    <= 1 # 2)%Q).
Proof.
  unfold get_current_price_paid.
  destruct data as [|e0 data0] eqn:Hdata.
  { split.
    - split; [done|]. by intros (e & ?%not_elem_of_nil & _).
    - intros out [= <-]. by left. }
  rewrite <- Hdata. clear Hdata.
  destruct (mapM (fun entry => strptime (date_of_transfer entry)) data)
    as [dates|] eqn:Hdates; cbn [mbind option_bind].
  - apply parsed_dates in Hdates as [Hfwd Hbwd]. split.
    + split.
      * intros H. exfalso. destruct (List.filter _ dates); [done|].
        by destruct (List.filter _ data).
      * intros (e & He & Hnone). destruct (Hfwd e He) as (d & Hd & _). congruence.
    + intros out.
      destruct (List.filter (fun d => date_le d now) dates) as [|d0 ds] eqn:Hvalid;
        [intros [= <-]; by left|].
      destruct (max_date_spec d0 ds) as [Hin Hmax].
      set (latest := max_date d0 ds) in *.
      assert (forall d, d ∈ d0 :: ds <-> d ∈ dates /\ date_le d now = true) as Hv.
      { intros d. rewrite <- Hvalid.
        apply (elem_of_List_filter (fun d => date_le d now)). }
      destruct (List.filter (in_latest_month' latest requested) data)
        as [|f0 fs] eqn:Hfiltered; [intros [= <-]; by left|].
      intros [= <-]. right. apply Hv in Hin as [Hin Hnow].
      eexists latest, _. split; [done|]. split; [by apply Hbwd|]. split; [done|].
      split.
      { intros e d He Hd Hle. apply Hmax, Hv. split; [|done].
        destruct (Hfwd e He) as (d' & Hd' & Hin'). congruence. }
      cbv zeta. rewrite Hfiltered. cbn [month_of_transfer paid_property_type
                                          paid_price_per_m2].
      split; [done|]. split; [done|]. split; [done|]. split.
      * unfold Zsum. cbn [map foldr]. by intros ->.
      * unfold Zsum. cbn [map foldr]. intros Hne.
        destruct (area f0 + foldr Z.add 0 (map area fs) =? 0) eqn:Hz;
          [by apply Z.eqb_eq in Hz|]. apply rint_half.
  - split; [|done]. split; [|done]. intros _.
    apply eq_None_not_Some in Hdates. rewrite mapM_is_Some in Hdates.
    apply not_Forall_Exists in Hdates; [|intros x; apply _].
    apply Exists_exists in Hdates as (e & He & Hn).
    exists e. split; [done|]. cbn in Hn.
    by destruct (strptime (date_of_transfer e)) as [d|]; [destruct Hn; eauto|].
Qed.

(** X19. [get_current_price_paid] raises exactly when the date of some
    entry, of whatever property type, does not parse. Otherwise it returns
    at most one record: the month is that of the latest sale not after
    now, whatever its property type; the entries counted are all those of
    that month and of the requested type, sales dated after now included;
    and the price per square metre is their total price over their total
    area, rounded to an integer, or 0 when the total area is 0. *)
Theorem current_price_paid_is_of_the_latest_month (data : list Sale)
    (requested : string) :
  (get_current_price_paid' data requested = None <->
   exists e, e ∈ data /\ strptime (date_of_transfer e) = None)
  /\ forall out,
       get_current_price_paid' data requested = Some out ->
       out = []
       \/ exists latest r,
            out = [r]
            /\ (exists e, e ∈ data /\ strptime (date_of_transfer e) = Some latest)
            /\ date_le latest now = true
            /\ (forall e d, e ∈ data -> strptime (date_of_transfer e) = Some d ->
                  date_le d now = true -> date_le d latest = true)
            /\ let entries := List.filter (in_latest_month' latest requested) data in
               entries <> []
               /\ month_of_transfer r = strftime_Y_m latest
               /\ paid_property_type r = requested
               /\ (Zsum (map area entries) = 0 -> paid_price_per_m2 r = 0)
               /\ (Zsum (map area entries) <> 0 ->
                   (Qabs (inject_Z (paid_price_per_m2 r)
                          - inject_Z (Zsum (map price entries))
                            / inject_Z (Zsum (map area entries)))
                    <= 1 # 2)%Q).
Proof. exact (price_paid_outcome data requested). Qed.

(** X20. The property types of scraped sales are values of
    [map_property_type]: on such data a request for a type other than
    "Flat", "Detached" and "Terraced" (for "Semi Detached", or for the
    "SemiDetached" of the index tables) gets no record. *)
Theorem no_price_for_other_types (data : list Sale) (requested : string)
    (out : list PricePaid) :
  (forall e, e ∈ data ->
     exists description, property_type e = map_property_type description) ->
  requested ∉ ["Flat"; "Detached"; "Terraced"]%string ->
  get_current_price_paid' data requested = Some out ->
  out = [].
Proof.
  intros Hscraped Hreq Hrun.
  apply price_paid_outcome in Hrun
    as [->|(latest & r & _ & _ & _ & _ & Hne & _)]; [done|].
  exfalso. apply Hne. clear Hne.
  induction data as [|e data IH]; [done|]. cbn [List.filter].
  assert (in_latest_month' latest requested e = false) as ->.
  { unfold in_latest_month. destruct (strptime (date_of_transfer e)); [|done].
    rewrite bool_decide_eq_false_2; [by rewrite andb_false_r|].
    intros He. destruct (Hscraped e (list_elem_of_here _ _)) as [description Hd].
    rewrite <- He, Hd in Hreq.
    by destruct (map_property_type_values description) as [? _]. }
  apply IH. intros e' He'. by apply Hscraped, list_elem_of_further.
Qed.

End PricePaidFacts.

(** ** Cleaning numbers *)

Lemma filter_chars_app (f : ascii -> bool) (s t : string) :
  filter_chars f (s +:+ t) = filter_chars f s +:+ filter_chars f t.
Proof.
  induction s as [|c s IH]; [done|].
  change (String c s +:+ t) with (String c (s +:+ t)). cbn [filter_chars].
  destruct (f c); [|done].
  change (String c (filter_chars f s) +:+ filter_chars f t)
    with (String c (filter_chars f s +:+ filter_chars f t)).
  by rewrite IH.
Qed.

Lemma int_of_digits_app (acc : Z) (s t : string) :
  int_of_digits acc (s +:+ t) = int_of_digits (int_of_digits acc s) t.
Proof.
  revert acc. induction s as [|c s IH]; intros acc; [done|].
  change (String c s +:+ t) with (String c (s +:+ t)). cbn [int_of_digits].
  apply IH.
Qed.

Lemma int_of_digits_acc (acc : Z) (s : string) :
  int_of_digits acc s = acc * 10 ^ Z.of_nat (String.length s) + int_of_digits 0 s.
Proof.
  revert acc. induction s as [|c s IH]; intros acc.
  - cbn. lia.
  - cbn [int_of_digits String.length]. rewrite IH, (IH (10 * 0 + _)).
    rewrite Nat2Z.inj_succ, Z.pow_succ_r by lia. lia.
Qed.

Lemma int_of_digits_nonneg (acc : Z) (s : string) :
  0 <= acc -> filter_chars is_digit s = s -> 0 <= int_of_digits acc s.
Proof.
  revert acc. induction s as [|c s IH]; intros acc Hacc Hs; [done|].
  cbn [filter_chars] in Hs. cbn [int_of_digits].
  destruct (is_digit c) eqn:Hc.
  - injection Hs as Hs. apply IH; [|done].
    unfold is_digit in Hc. apply andb_true_iff in Hc as [H1%Nat.leb_le _]. lia.
  - exfalso. apply (f_equal String.length) in Hs.
    assert (forall u, String.length (filter_chars is_digit u) <= String.length u)%nat
      as Hle.
    { induction u as [|x u IHu]; cbn; [done|]. destruct (is_digit x); cbn; lia. }
    specialize (Hle s). cbn [String.length] in Hs. lia.
Qed.

Lemma filter_chars_idem (f : ascii -> bool) (s : string) :
  filter_chars f (filter_chars f s) = filter_chars f s.
Proof.
  induction s as [|c s IH]; [done|]. cbn [filter_chars].
  destruct (f c) eqn:Hc; [|done]. cbn [filter_chars]. by rewrite Hc, IH.
Qed.

Lemma clean_numeric_digits (value : string) :
  clean_numeric value = int_of_digits 0 (filter_chars is_digit value).
Proof. unfold clean_numeric. case_bool_decide as H; [by rewrite H|done]. Qed.

(** X21. [clean_numeric] reads the digits of a string and nothing else:
    its value is never negative, a character that is not a digit changes
    nothing (a sign or a decimal point is dropped, not interpreted), and
    the value of a concatenation is that of the first part shifted by the
    number of digits of the second, plus that of the second. *)
Theorem clean_numeric_reads_the_digits_only (s t : string) (c : ascii) :
  0 <= clean_numeric s
  /\ (is_digit c = false -> clean_numeric (String c s) = clean_numeric s)
  /\ (filter_chars is_digit s = EmptyString -> clean_numeric s = 0)
  /\ clean_numeric (s +:+ t)
     = clean_numeric s * 10 ^ Z.of_nat (String.length (filter_chars is_digit t))
       + clean_numeric t.
Proof.
  rewrite !clean_numeric_digits. split; [|split; [|split]].
  - apply int_of_digits_nonneg; [done|apply filter_chars_idem].
  - intros Hc. cbn [filter_chars]. by rewrite Hc.
  - by intros ->.
  - by rewrite filter_chars_app, int_of_digits_app, int_of_digits_acc.
Qed.

(** ** Refactored rows *)

Lemma clean_numeric_nonneg (s : string) : 0 <= clean_numeric s.
Proof.
  rewrite clean_numeric_digits.
  apply int_of_digits_nonneg; [done|apply filter_chars_idem].
Qed.

Lemma rint_nonneg (x : Q) : (0 <= x)%Q -> 0 <= rint x.
Proof.
  intros Hx. assert (0 <= Qfloor x) as Hf.
  { change 0 with (Qfloor 0). by apply Qfloor_resp_le. }
  unfold rint. destruct (_ ?= _)%Q; [destruct (Z.even _)|..]; lia.
Qed.

Lemma round_nonneg (x : Q) (n : nat) : (0 <= x)%Q -> (0 <= round x n)%Q.
Proof.
  intros Hx. unfold round. pose proof (pow10_pos n) as Hp.
  apply Qle_shift_div_l; [done|]. rewrite Qmult_0_l.
  change 0%Q with (inject_Z 0). rewrite <- Zle_Qle. apply rint_nonneg.
  apply Qmult_le_0_compat; [done|]. by apply Qlt_le_weak.
Qed.

Lemma price_per_area_bounds (p a : Z) :
  0 <= p -> 0 < a ->
  0 <= price_per_area p a
  /\ (inject_Z (price_per_area p a) <= inject_Z p / inject_Z a + (1 # 200))%Q
  /\ (inject_Z p / inject_Z a - (201 # 200) < inject_Z (price_per_area p a))%Q.
Proof.
  intros Hp Ha. unfold price_per_area.
  destruct (a =? 0) eqn:Hz; [apply Z.eqb_eq in Hz; lia|].
  set (x := (inject_Z p / inject_Z a)%Q).
  assert (0 <= x)%Q as Hx.
  { unfold x. apply Qle_shift_div_l.
    - change 0%Q with (inject_Z 0). by rewrite <- Zlt_Qlt.
    - rewrite Qmult_0_l. change 0%Q with (inject_Z 0). by rewrite <- Zle_Qle. }
  pose proof (round_nonneg x 2 Hx) as Hy.
  destruct (round_rounded x 2) as [_ Hr]. apply Qabs_Qle_condition in Hr as [Hlo Hhi].
  change ((1 # 2) / inject_Z (10 ^ Z.of_nat 2))%Q with (1 # 200)%Q in Hlo, Hhi.
  unfold Qtrunc. rewrite (proj2 (Qle_bool_iff 0 (round x 2)) Hy).
  pose proof (Qfloor_le (round x 2)) as Hfl. pose proof (Qlt_floor (round x 2)) as Hfu.
  rewrite inject_Z_plus in Hfu. change (inject_Z 1) with 1%Q in Hfu.
  split; [|split].
  - change 0 with (Qfloor 0). by apply Qfloor_resp_le.
  - lra.
  - lra.
Qed.

Section Refactored.

Variable strptime_d_b_Y : string -> option date.

Local Abbreviation refactor_row' := (refactor_row strptime_d_b_Y).
Local Abbreviation refactor_data' := (refactor_data strptime_d_b_Y).

Lemma refactor_row_facts (row : RawSale) :
  0 <= price (refactor_row' row)
  /\ 0 <= area (refactor_row' row)
  /\ (area (refactor_row' row) = 0 -> price_per_m2 (refactor_row' row) = 0)
  /\ 0 <= price_per_m2 (refactor_row' row)
  /\ property_type (refactor_row' row) ∈ ["Flat"; "Detached"; "Terraced"]%string.
Proof.
  unfold refactor_row. cbn [price area price_per_m2 property_type].
  pose proof (clean_numeric_nonneg (raw_price row)) as Hp.
  pose proof (clean_numeric_nonneg (raw_area row)) as Ha.
  split; [done|]. split; [done|]. split; [|split].
  - intros ->. done.
  - destruct (Z.eq_dec (clean_numeric (raw_area row)) 0) as [->|Hne]; [done|].
    apply price_per_area_bounds; lia.
  - by destruct (map_property_type_values (raw_property_type row)) as [? _].
Qed.

(** X22. [refactor_data] turns the scraped rows into records one by one
    and in order. Price and area are the digits of the scraped texts; the
    scraped price per square metre is not used, the field being computed
    again as price over area, rounded to two decimals and truncated: it is
    0 for a zero area, never negative, and otherwise at most 0.005 above
    and less than 1.005 below the quotient. The property type is one of
    "Flat", "Detached" and "Terraced". *)
Theorem refactor_data_recomputes_the_price_per_m2 (df : list RawSale) :
  length (refactor_data' df) = length df
  /\ forall i row,
       df !! i = Some row ->
       exists rec,
         refactor_data' df !! i = Some rec
         /\ address rec = raw_address row
         /\ price rec = clean_numeric (raw_price row)
         /\ area rec = clean_numeric (raw_area row)
         /\ (area rec = 0 -> price_per_m2 rec = 0)
         /\ 0 <= price_per_m2 rec
         /\ (area rec <> 0 ->
             (inject_Z (price_per_m2 rec)
              <= inject_Z (price rec) / inject_Z (area rec) + (1 # 200))%Q
             /\ (inject_Z (price rec) / inject_Z (area rec) - (201 # 200)
                 < inject_Z (price_per_m2 rec))%Q)
         /\ property_type rec ∈ ["Flat"; "Detached"; "Terraced"]%string
         /\ forall text,
              refactor_row'
                {| raw_address := raw_address row;
                   raw_date_of_transfer := raw_date_of_transfer row;
                   raw_price := raw_price row;
                   raw_area := raw_area row;
                   raw_price_per_m2 := text;
                   raw_property_type := raw_property_type row |} = rec.
Proof.
  unfold refactor_data. split; [by rewrite length_map|].
  intros i row Hrow. exists (refactor_row' row).
  split; [by rewrite list_lookup_fmap, Hrow|].
  destruct (refactor_row_facts row) as (Hp & Ha & Hz & Hn & Ht).
  split; [done|]. split; [done|]. split; [done|]. split; [done|]. split; [done|].
  split; [|by split].
  intros Hne. unfold refactor_row in *. cbn [price area price_per_m2] in *.
  apply price_per_area_bounds; [done|lia].
Qed.

End Refactored.

(** ** The valuation endpoint *)

Lemma py_min_le_max (a b : Q) : (py_min a b <= py_max a b)%Q.
Proof.
  unfold py_min, py_max.
  destruct (Qle_bool a b) eqn:Hab, (Qle_bool b a) eqn:Hba.
  - apply Qle_refl.
  - by apply Qle_bool_iff.
  - by apply Qle_bool_iff.
  - destruct (Qlt_le_dec a b) as [H|H].
    + apply Qlt_le_weak, Qle_bool_iff in H. congruence.
    + apply Qle_bool_iff in H. congruence.
Qed.

Lemma falsy_false (x : option Q) :
  falsy x = false -> exists q, x = Some q /\ ~ (q == 0)%Q.
Proof.
  destruct x as [q|]; [|done]. cbn. intros H. exists q. split; [done|].
  intros Hq. apply Qeq_bool_iff in Hq. congruence.
Qed.

(** A branch that ends in another answer than the one at hand. *)
Ltac other_answer := solve [cbn [mbind Answer_bind]; intros; discriminate].

Section Endpoint.

Variable find_local_authorities : string -> list (option string).
Variable fetch : string -> list RawSale.
Variable strptime_d_b_Y : string -> option date.
Variable strptime : string -> option date.
Variable is_year_month : string -> bool.
Variable now : date.
Variable find_index : string -> string -> string -> option Q.
Variable find_forecast : string -> string -> option Q.

Local Abbreviation get_pricing_data' :=
  (get_pricing_data find_local_authorities fetch strptime_d_b_Y strptime is_year_month
     now find_index find_forecast).
Local Abbreviation scrape' := (scrape fetch strptime_d_b_Y).
Local Abbreviation get_current_price_paid' := (get_current_price_paid strptime now).

(** The sales the endpoint takes as those of the property: of the
    address or, when there are none, of the street (line 75). *)
Local Abbreviation sales_of request :=
  (match scrape' (full_address request) with
   | [] => scrape' (street request)
   | l => l
   end).

(** The path of a request that is answered. *)
Lemma get_pricing_data_Done (request : PricingRequest) (r : ForecastResponse) :
  get_pricing_data' request = Done r ->
  exists label docs lasts recents h1 h2 f,
    find_local_authorities (lower (strip (postcode request))) = Some label :: docs
    /\ local_authority r
       = (if bool_decide (lower label = "westminster"%string)
             || bool_decide (lower label = "city of london"%string)
          then "Camden"%string else label)
    /\ local_authority r <> EmptyString
    /\ sales_of request <> []
    /\ scrape' (postcode request) <> []
    /\ get_current_price_paid' (sales_of request) (request_property_type request)
       = Some (last_sales_price r :: lasts)
    /\ get_current_price_paid'
         (remove_matching_entries (sales_of request) (scrape' (postcode request)))
         (request_property_type request)
       = Some (recent_property_sale_history r :: recents)
    /\ request_property_type request ∈ valid_property_types
    /\ find_index (month_of_transfer (last_sales_price r)) (local_authority r)
         (request_property_type request) = Some h1
    /\ find_index (month_of_transfer (recent_property_sale_history r))
         (local_authority r) (request_property_type request) = Some h2
    /\ find_forecast (local_authority r) (request_property_type request) = Some f
    /\ ~ (h1 == 0)%Q /\ ~ (h2 == 0)%Q /\ ~ (f == 0)%Q
    /\ max_valuation r
       = py_max (request_area request
                 * valuation (inject_Z (paid_price_per_m2 (last_sales_price r))) h1 f)%Q
                (request_area request
                 * valuation
                     (inject_Z (paid_price_per_m2 (recent_property_sale_history r)))
                     h2 f)%Q
    /\ min_valuation r
       = py_min (request_area request
                 * valuation (inject_Z (paid_price_per_m2 (last_sales_price r))) h1 f)%Q
                (request_area request
                 * valuation
                     (inject_Z (paid_price_per_m2 (recent_property_sale_history r)))
                     h2 f)%Q.
Proof.
  unfold get_pricing_data, search_local_authority_by_postcode.
  destruct (bool_decide (postcode request = EmptyString)) eqn:Hq; [other_answer|].
  destruct (find_local_authorities (lower (strip (postcode request))))
    as [|[label|] docs] eqn:Hdocs; cbn [mbind Answer_bind];
    [other_answer| |other_answer].
  cbv zeta.
  match goal with
  | |- context [bool_decide (?x = EmptyString)] =>
      destruct (bool_decide (x = EmptyString)) eqn:Hla; [other_answer|]
  end.
  destruct (bool_decide (sales_of request = [])) eqn:Hsales; [other_answer|].
  destruct (bool_decide (scrape' (postcode request) = [])) eqn:Hhist; [other_answer|].
  unfold current_price_paid.
  destruct (get_current_price_paid' (sales_of request) (request_property_type request))
    as [[|last lasts]|] eqn:Hlast; cbn [mbind Answer_bind];
    [other_answer| |other_answer].
  destruct (get_current_price_paid'
              (remove_matching_entries (sales_of request) (scrape' (postcode request)))
              (request_property_type request))
    as [[|recent recents]|] eqn:Hrecent; cbn [mbind Answer_bind];
    [other_answer| |other_answer].
  unfold get_hpi_by_month, get_hpi_forecast.
  destruct (is_year_month (month_of_transfer last)); cbn [negb mbind Answer_bind];
    [|other_answer].
  destruct (bool_decide (request_property_type request ∈ valid_property_types))
    eqn:Hvalid; cbn [negb mbind Answer_bind]; [|other_answer].
  destruct (falsy (find_index (month_of_transfer last) _ _)) eqn:H1; [other_answer|].
  destruct (is_year_month (month_of_transfer recent)); cbn [negb mbind Answer_bind];
    [|other_answer].
  destruct (falsy (find_index (month_of_transfer recent) _ _)) eqn:H2;
    [other_answer|].
  destruct (falsy (find_forecast _ _)) eqn:H3; [other_answer|].
  apply bool_decide_eq_false in Hla, Hsales, Hhist.
  apply bool_decide_eq_true in Hvalid.
  apply falsy_false in H1 as (h1 & Hh1 & Hn1).
  apply falsy_false in H2 as (h2 & Hh2 & Hn2).
  apply falsy_false in H3 as (f & Hf & Hnf).
  rewrite Hh1, Hh2, Hf. cbn [default].
  intros [= <-]. cbn [local_authority last_sales_price recent_property_sale_history
                      max_valuation min_valuation].
  exists label, docs, lasts, recents, h1, h2, f.
  repeat (split; [done|]). done.
Qed.

Lemma elem_of_scrape (location : string) (e : Sale) :
  e ∈ scrape' location -> exists row, e = refactor_row strptime_d_b_Y row.
Proof.
  unfold scrape. case_bool_decide; [by intros ?%not_elem_of_nil|]. cbv zeta.
  destruct (fetch _) as [|row0 rows0]; [by intros ?%not_elem_of_nil|].
  unfold refactor_data. intros (row & -> & _)%list_elem_of_fmap. eauto.
Qed.

Lemma elem_of_sales_of (request : PricingRequest) (e : Sale) :
  e ∈ sales_of request -> exists row, e = refactor_row strptime_d_b_Y row.
Proof.
  destruct (scrape' (full_address request)) as [|e0 l] eqn:Hs.
  - apply elem_of_scrape.
  - rewrite <- Hs. apply elem_of_scrape.
Qed.

(** A record that is returned comes from an entry of the requested type. *)
Lemma price_paid_entry (data : list Sale) (requested : string) (r : PricePaid)
    (rs : list PricePaid) :
  get_current_price_paid' data requested = Some (r :: rs) ->
  exists e, e ∈ data /\ property_type e = requested.
Proof.
  intros H. destruct (price_paid_outcome strptime now data requested) as [_ Hout].
  destruct (Hout _ H) as [?|(latest & r' & _ & _ & _ & _ & Hne & _)]; [done|].
  cbv zeta in Hne.
  destruct (List.filter (in_latest_month strptime latest requested) data)
    as [|e l] eqn:Hf; [done|].
  assert (e ∈ List.filter (in_latest_month strptime latest requested) data) as He
    by (rewrite Hf; apply list_elem_of_here).
  apply (elem_of_List_filter (in_latest_month strptime latest requested)) in He
    as [He Hm].
  exists e. split; [done|]. unfold in_latest_month in Hm.
  destruct (strptime (date_of_transfer e)); [|done].
  apply andb_true_iff in Hm as [_ Hm]. by apply bool_decide_eq_true in Hm.
Qed.

(** X23. A request that is answered: the local authority is not empty
    and is neither Westminster nor the City of London (Camden stands for
    both); the three indices read from the database are not zero, so the
    zero guard of [valuation] is not taken; the two valuations are the area
    times the price per square metre times the forecast over the index of
    the month of the sale; and the minimum is at most the maximum. *)
Theorem answered_valuation (request : PricingRequest) (r : ForecastResponse) :
  get_pricing_data' request = Done r ->
  local_authority r <> EmptyString
  /\ lower (local_authority r) <> "westminster"%string
  /\ lower (local_authority r) <> "city of london"%string
  /\ request_property_type request ∈ valid_property_types
  /\ (min_valuation r <= max_valuation r)%Q
  /\ exists h1 h2 f,
       find_index (month_of_transfer (last_sales_price r)) (local_authority r)
         (request_property_type request) = Some h1
       /\ find_index (month_of_transfer (recent_property_sale_history r))
            (local_authority r) (request_property_type request) = Some h2
       /\ find_forecast (local_authority r) (request_property_type request) = Some f
       /\ ~ (h1 == 0)%Q /\ ~ (h2 == 0)%Q /\ ~ (f == 0)%Q
       /\ let v1 := (request_area request
                     * (inject_Z (paid_price_per_m2 (last_sales_price r)) * f / h1))%Q in
          let v2 := (request_area request
                     * (inject_Z (paid_price_per_m2 (recent_property_sale_history r))
                        * f / h2))%Q in
          max_valuation r = py_max v1 v2 /\ min_valuation r = py_min v1 v2.
Proof.
  intros (label & docs & lasts & recents & h1 & h2 & f & _ & Hla & Hne & _ & _ & _ & _
          & Hvalid & H1 & H2 & Hf & Hn1 & Hn2 & Hnf & Hmax & Hmin)%get_pricing_data_Done.
  split; [done|].
  assert (lower (local_authority r) <> "westminster"%string
          /\ lower (local_authority r) <> "city of london"%string) as [Hw Hc].
  { rewrite Hla.
    destruct (bool_decide (lower label = "westminster"%string)) eqn:Hbw;
      [by split|].
    destruct (bool_decide (lower label = "city of london"%string)) eqn:Hbc;
      [by split|].
    cbn [orb]. by apply bool_decide_eq_false in Hbw, Hbc. }
  split; [done|]. split; [done|]. split; [done|].
  split; [rewrite Hmax, Hmin; apply py_min_le_max|].
  exists h1, h2, f. repeat (split; [done|]). cbv zeta.
  by rewrite Hmax, Hmin, !valuation_nonzero.
Qed.

(** X24. The sales the endpoint reads have the property types that
    [map_property_type] returns: a request is answered only for "Flat",
    "Detached" or "Terraced". In particular a request for "SemiDetached",
    which the index tables accept, is never answered. *)
Theorem only_three_property_types_are_valued (request : PricingRequest)
    (r : ForecastResponse) :
  get_pricing_data' request = Done r ->
  request_property_type request ∈ ["Flat"; "Detached"; "Terraced"]%string
  /\ request_property_type request <> "SemiDetached"%string
  /\ request_property_type request <> "Semi Detached"%string.
Proof.
  intros (label & docs & lasts & recents & h1 & h2 & f & _ & _ & _ & _ & _ & Hlast & _)
           %get_pricing_data_Done.
  apply price_paid_entry in Hlast as (e & He & Htype).
  apply elem_of_sales_of in He as [row ->].
  destruct (refactor_row_facts strptime_d_b_Y row) as (_ & _ & _ & _ & Hin).
  rewrite Htype in Hin. split; [done|].
  split; intros Heq; rewrite Heq in Hin;
    by repeat (apply elem_of_cons in Hin as [Hin|Hin]; [done|]);
       apply not_elem_of_nil in Hin.
Qed.

Lemma Zsum_pos (l : list Z) : l <> [] -> Forall (fun z => 0 < z) l -> 0 < Zsum l.
Proof.
  intros Hne Hall. unfold Zsum. destruct l as [|z l]; [done|].
  apply Forall_cons in Hall as [Hz Hall]. cbn [foldr].
  assert (0 <= foldr Z.add 0 l); [|lia].
  clear -Hall. induction Hall; cbn [foldr]; lia.
Qed.

(** X26. In a request that is answered, the recent sale history is read
    after the sales of the property and the entries without area have been
    removed from it: every entry counted has a positive area, so the
    recent price per square metre is total price over total area rounded
    to an integer, the zero guard of line 192 not being taken. *)
Theorem recent_price_is_a_quotient (request : PricingRequest) (r : ForecastResponse) :
  get_pricing_data' request = Done r ->
  exists latest,
    let history := remove_matching_entries (sales_of request)
                     (scrape' (postcode request)) in
    let entries :=
      List.filter
        (in_latest_month strptime latest (request_property_type request)) history in
    entries <> []
    /\ Forall (fun e => e ∈ scrape' (postcode request)
                        /\ (e ∉ sales_of request) /\ 0 < area e) entries
    /\ 0 < Zsum (map area entries)
    /\ month_of_transfer (recent_property_sale_history r) = strftime_Y_m latest
    /\ (Qabs (inject_Z (paid_price_per_m2 (recent_property_sale_history r))
              - inject_Z (Zsum (map price entries)) / inject_Z (Zsum (map area entries)))
        <= 1 # 2)%Q.
Proof.
  intros (label & docs & lasts & recents & h1 & h2 & f & _ & _ & _ & Hsales & Hhist
          & _ & Hrecent & _)%get_pricing_data_Done.
  destruct (price_paid_outcome strptime now
              (remove_matching_entries (sales_of request) (scrape' (postcode request)))
              (request_property_type request)) as [_ Hout].
  destruct (Hout _ Hrecent) as [?|(latest & r' & [= Hr' _] & _ & _ & _ & Hent)];
    [done|]. subst r'.
  cbv zeta in Hent. destruct Hent as (Hne & Hmonth & _ & _ & Hbound).
  exists latest. cbv zeta.
  set (history := remove_matching_entries (sales_of request) (scrape' (postcode request)))
    in *.
  set (entries := List.filter _ history) in *.
  assert (Forall (fun e => e ∈ scrape' (postcode request)
                           /\ (e ∉ sales_of request) /\ 0 < area e) entries) as Hall.
  { apply Forall_forall. intros e He.
    apply (elem_of_List_filter _) in He as [He _].
    subst history. unfold remove_matching_entries in He.
    destruct (sales_of request) as [|s0 sl] eqn:Hs; [done|]. rewrite <- Hs in *.
    destruct (scrape' (postcode request)) as [|x0 xl] eqn:Hx; [done|].
    rewrite <- Hx in *.
    apply (elem_of_List_filter _) in He as [He Hkeep].
    apply andb_true_iff in Hkeep as [Hnot Hnz].
    apply negb_true_iff, bool_decide_eq_false in Hnot.
    split; [done|]. split; [done|].
    apply elem_of_scrape in He as [row ->].
    destruct (refactor_row_facts strptime_d_b_Y row) as (_ & Ha & Hz & _).
    apply orb_true_iff in Hnz as [Hnz|Hnz]; apply negb_true_iff, Z.eqb_neq in Hnz.
    - lia.
    - destruct (Z.eq_dec (area (refactor_row strptime_d_b_Y row)) 0) as [H0|H0];
        [by apply Hz in H0|lia]. }
  assert (0 < Zsum (map area entries)) as Hpos.
  { apply Zsum_pos.
    - intros Hnil. apply Hne. by destruct entries.
    - apply Forall_fmap. eapply Forall_impl; [exact Hall|]. by intros e (_ & _ & ?). }
  split; [done|]. split; [done|]. split; [done|]. split; [done|].
  apply Hbound. lia.
Qed.

(** What the endpoint answers once the label of the local authority is
    known to be present and not empty: never one of the two answers about
    the local authority. *)
Lemma later_answers (request : PricingRequest) (label : string)
    (docs : list (option string)) (detail : string) :
  postcode request <> EmptyString ->
  find_local_authorities (lower (strip (postcode request))) = Some label :: docs ->
  label <> EmptyString ->
  detail ∈ ["Local authority not found for the provided postcode.";
            "Local authority label is missing."]%string ->
  get_pricing_data' request <> HTTPException 404 detail.
Proof.
  intros Hq Hdocs Hlabel Hdetail.
  assert (detail = "Local authority not found for the provided postcode."%string
          \/ detail = "Local authority label is missing."%string) as Hd.
  { apply elem_of_cons in Hdetail as [?|Hdetail]; [by left|].
    apply list_elem_of_singleton in Hdetail. by right. }
  unfold get_pricing_data, search_local_authority_by_postcode.
  rewrite (bool_decide_eq_false_2 (postcode request = EmptyString)) by done.
  rewrite Hdocs. cbn [mbind Answer_bind]. cbv zeta.
  match goal with
  | |- context [bool_decide (?x = EmptyString)] =>
      destruct (bool_decide (x = EmptyString)) eqn:Hla
  end.
  { apply bool_decide_eq_true in Hla.
    destruct (bool_decide (lower label = "westminster"%string)
              || bool_decide (lower label = "city of london"%string)); done. }
  destruct (bool_decide (sales_of request = [])); [by destruct Hd as [-> | ->]|].
  destruct (bool_decide (scrape' (postcode request) = []));
    [by destruct Hd as [-> | ->]|].
  unfold current_price_paid.
  destruct (get_current_price_paid' (sales_of request) (request_property_type request))
    as [[|last lasts]|]; cbn [mbind Answer_bind];
    [by destruct Hd as [-> | ->]| |done].
  destruct (get_current_price_paid'
              (remove_matching_entries (sales_of request) (scrape' (postcode request)))
              (request_property_type request))
    as [[|recent recents]|]; cbn [mbind Answer_bind];
    [by destruct Hd as [-> | ->]| |done].
  unfold get_hpi_by_month, get_hpi_forecast.
  destruct (is_year_month (month_of_transfer last)); cbn [negb mbind Answer_bind];
    [|done].
  destruct (bool_decide (request_property_type request ∈ valid_property_types));
    cbn [negb mbind Answer_bind]; [|done].
  destruct (falsy (find_index (month_of_transfer last) _ _));
    [by destruct Hd as [-> | ->]|].
  destruct (is_year_month (month_of_transfer recent)); cbn [negb mbind Answer_bind];
    [|done].
  destruct (falsy (find_index (month_of_transfer recent) _ _));
    [by destruct Hd as [-> | ->]|].
  destruct (falsy (find_forecast _ _)); [by destruct Hd as [-> | ->]|done].
Qed.

(** X25. What the endpoint answers about the local authority. The
    search raises its own exceptions for an empty postcode and for a
    postcode without documents, so the answer "Local authority not found
    for the provided postcode." of line 63 is never given. A first
    document without a label ends in an AttributeError (line 66 calls
    [lower] before line 69 tests the label), and "Local authority label is
    missing." is answered exactly for a label that is the empty string. *)
Theorem local_authority_answers (request : PricingRequest) :
  get_pricing_data' request
  <> HTTPException 404 "Local authority not found for the provided postcode."
  /\ (postcode request = EmptyString ->
      get_pricing_data' request = HTTPException 400 "Postcode cannot be empty")
  /\ (postcode request <> EmptyString ->
      find_local_authorities (lower (strip (postcode request))) = [] ->
      get_pricing_data' request
      = HTTPException 404 "No local authority found for the given postcode")
  /\ (postcode request <> EmptyString ->
      forall docs,
        find_local_authorities (lower (strip (postcode request))) = None :: docs ->
        get_pricing_data' request = AttributeError)
  /\ (get_pricing_data' request = HTTPException 404 "Local authority label is missing."
      <-> postcode request <> EmptyString
          /\ exists docs,
               find_local_authorities (lower (strip (postcode request)))
               = Some EmptyString :: docs).
Proof.
  assert (postcode request = EmptyString ->
          get_pricing_data' request = HTTPException 400 "Postcode cannot be empty")
    as Hempty.
  { intros Hq. unfold get_pricing_data, search_local_authority_by_postcode.
    by rewrite (bool_decide_eq_true_2 (postcode request = EmptyString)). }
  assert (postcode request <> EmptyString ->
          find_local_authorities (lower (strip (postcode request))) = [] ->
          get_pricing_data' request
          = HTTPException 404 "No local authority found for the given postcode")
    as Hnone.
  { intros Hq Hdocs. unfold get_pricing_data, search_local_authority_by_postcode.
    rewrite (bool_decide_eq_false_2 (postcode request = EmptyString)) by done.
    by rewrite Hdocs. }
  assert (postcode request <> EmptyString ->
          forall docs,
            find_local_authorities (lower (strip (postcode request))) = None :: docs ->
            get_pricing_data' request = AttributeError) as Hattr.
  { intros Hq docs Hdocs. unfold get_pricing_data, search_local_authority_by_postcode.
    rewrite (bool_decide_eq_false_2 (postcode request = EmptyString)) by done.
    by rewrite Hdocs. }
  assert (postcode request <> EmptyString ->
          forall docs,
            find_local_authorities (lower (strip (postcode request)))
            = Some EmptyString :: docs ->
            get_pricing_data' request
            = HTTPException 404 "Local authority label is missing.") as Hmissing.
  { intros Hq docs Hdocs. unfold get_pricing_data, search_local_authority_by_postcode.
    rewrite (bool_decide_eq_false_2 (postcode request = EmptyString)) by done.
    by rewrite Hdocs. }
  assert (forall detail,
            detail ∈ ["Local authority not found for the provided postcode.";
                      "Local authority label is missing."]%string ->
            get_pricing_data' request = HTTPException 404 detail ->
            detail = "Local authority label is missing."%string
            /\ postcode request <> EmptyString
            /\ exists docs,
                 find_local_authorities (lower (strip (postcode request)))
                 = Some EmptyString :: docs) as Hcases.
  { intros detail Hdetail Hrun.
    destruct (decide (postcode request = EmptyString)) as [Hq|Hq].
    { rewrite (Hempty Hq) in Hrun. discriminate. }
    destruct (find_local_authorities (lower (strip (postcode request))))
      as [|[label|] docs] eqn:Hdocs.
    - rewrite (Hnone Hq eq_refl) in Hrun. injection Hrun as <-.
      exfalso. apply elem_of_cons in Hdetail as [?|Hdetail]; [done|].
      by apply list_elem_of_singleton in Hdetail.
    - destruct (decide (label = EmptyString)) as [->|Hlabel].
      + rewrite (Hmissing Hq docs eq_refl) in Hrun. injection Hrun as <-. eauto.
      + by destruct (later_answers request label docs detail Hq Hdocs Hlabel Hdetail).
    - rewrite (Hattr Hq docs eq_refl) in Hrun. discriminate. }
  split; [|split; [done|split; [done|split; [done|split]]]].
  - intros Hrun. apply Hcases in Hrun as [? _]; [done|apply list_elem_of_here].
  - intros Hrun. apply Hcases in Hrun as (_ & ? & ?);
      [done|apply list_elem_of_further, list_elem_of_here].
  - intros [Hq [docs Hdocs]]. by apply (Hmissing Hq docs).
Qed.

End Endpoint.

(** ** The further theorems at work on the examples *)

Local Abbreviation example_series := (authority_series example_data "Adur").

Local Abbreviation example_compete' fs data :=
  (compete example_fit example_predict_row fs "models" 1 "Adur" FlatIndex
           (authority_series data "Adur") example_last []).

Local Abbreviation example_run' fs data pts h :=
  (train_and_forecast_by_authority example_fit example_predict_row example_today
     fs data pts h "models").

Lemma example_windows_pass (w : Window) :
  w ∈ time_windows ->
  exists d, window_frame 1 "Adur" FlatIndex example_series example_last w = Ok d.
Proof.
  unfold time_windows. rewrite !elem_of_cons.
  intros [->|[->|[->|[->|[->|Hw]]]]]; [..|by apply not_elem_of_nil in Hw];
    apply is_Ok_inv; vm_compute; reflexivity.
Defined.

(** The last row of the example series has the latest period of the data. *)
Lemma example_last_row_is_latest :
  exists l,
    last (rows example_series) = Some l
    /\ Forall (fun r => ts_le (period r) (period l) = true)
              (rows (make_frame example_data)).
Proof.
  destruct (last_date_is_the_latest_period example_data "Adur") as (_ & _ & _ & Hmax).
  destruct (last (rows example_series)) as [l|] eqn:Hl; [|vm_compute in Hl; discriminate].
  exists l. split; [reflexivity|].
  assert (Forall (fun r => RegionName r = "Adur"%string) (rows (make_frame example_data)))
    as Hall by (by repeat constructor).
  rewrite Forall_forall in Hall. apply Forall_forall. intros r Hr.
  apply (Hmax l r); [reflexivity|exact Hr|by apply Hall].
Defined.

(** On an empty file system the example competition succeeds. *)
Lemma example_competition_succeeds : exists s, example_compete' ∅ example_data = Ok s.
Proof.
  apply (competition_succeeds_iff example_fit example_predict_row ∅ "models" 1 "Adur"
           FlatIndex [] example_series example_last); [lia|].
  split; [exact example_windows_pass|].
  exists (Some 5), TabPFN. split; [apply list_elem_of_here|]. vm_compute. reflexivity.
Defined.

(** Three months of data raise the exception of the five-year window. *)
Lemma short_series_exception :
  len (filter_window (authority_series short_data "Adur") example_last (Some 5)) < 4.
Proof.
  destruct (competition_exceptions example_fit example_predict_row ∅ "models" 1 "Adur"
              FlatIndex [] (authority_series short_data "Adur") example_last
              (NotEnoughData FlatIndex "Adur" (Some 5)))
    as [[_ H]|[(w & _ & H & _)|[(c & H & _)|[H _]]]];
    [lia|vm_compute; reflexivity|exact H|discriminate..].
Defined.

(** Without any feature column the first lookup fails. *)
Lemma index_only_data_raises_KeyError :
  compete example_fit example_predict_row ∅ "models" 1 "Adur" FlatIndex
    (authority_series index_only_data "Adur") example_last []
  = Raise (KeyError "cpi_rate").
Proof.
  apply (missing_feature_raises_KeyError example_fit example_predict_row ∅ "models" 1
           "Adur" FlatIndex [] (authority_series index_only_data "Adur") example_last
           [] (tail (all_features FlatIndex)) "cpi_rate").
  - reflexivity.
  - by intros x ?%not_elem_of_nil.
  - by_evaluation.
  - vm_compute. discriminate.
Defined.

(** The entry of ("Adur", FlatIndex) in the example. *)
Lemma example_pair_entry :
  exists st' (c : @Candidate Q) res,
    forecast_pair example_fit example_predict_row example_today ∅ "models" 1 "Adur"
      FlatIndex (select_region (make_frame example_data) "Adur") ([], []) = Ok st'
    /\ st'.1 = [(FlatIndex, res)]
    /\ res_mape res = cand_mape c
    /\ res_model_file res = cand_path "models" "Adur" FlatIndex c
    /\ path_exists ∅ (res_model_file res) = false.
Proof.
  destruct (is_Ok_inv
              (forecast_pair example_fit example_predict_row example_today ∅ "models" 1
                 "Adur" FlatIndex (select_region (make_frame example_data) "Adur")
                 ([], []))) as [st' Hst]; [vm_compute; reflexivity|].
  destruct (pair_entry_is_the_selected_candidate example_fit example_predict_row
              example_today ∅ "models" 1 "Adur" FlatIndex _ _ _ Hst)
    as (l & i & c & full & r & res & _ & _ & Hres & Hmape & _ & _ & _ & Hfile & Hno & _).
  exists st', c, res. split; [exact Hst|]. split; [exact Hres|].
  split; [exact Hmape|]. split; [exact Hfile|exact Hno].
Defined.

(** A record of the example run and its model file. *)
Lemma example_model_file_is_missing :
  exists fs recs log rec path,
    example_run' ∅ example_data default_property_types 1 = Returned fs recs log
    /\ rec ∈ recs
    /\ dict_get rec "model_file"%string = Some (VStr path)
    /\ path ∈ log
    /\ path_exists fs path = false.
Proof.
  destruct example_run_returns as (fs & recs & log & Hrun).
  assert (length <$> returned_records
                       (example_run' ∅ example_data default_property_types 1)
          = Some 4%nat) as Hlen by (vm_compute; reflexivity).
  rewrite Hrun in Hlen. cbn in Hlen. injection Hlen as Hlen.
  destruct recs as [|rec recs]; [discriminate|].
  destruct (returned_model_files_do_not_exist example_fit example_predict_row
              example_today ∅ fs example_data default_property_types 1 "models"
              (rec :: recs) log rec Hrun (list_elem_of_here _ _))
    as (a & p & m & w & _ & _ & _ & _ & _ & _ & _ & Hfile & Hlog & Hno).
  exists fs, (rec :: recs), log, rec, (artifact_path "models" a p m w).
  split; [exact Hrun|]. split; [apply list_elem_of_here|].
  split; [exact Hfile|]. split; [exact Hlog|exact Hno].
Defined.

(** A horizon of zero on the example data. *)
Lemma example_zero_horizon_raises :
  exists fs e, example_run' ∅ example_data default_property_types 0 = Raised fs e.
Proof.
  apply (nonpositive_horizon_never_returns example_fit example_predict_row
           example_today); [lia|discriminate|discriminate].
Defined.

(** Data without index columns. *)
Lemma features_only_data_raises :
  example_run' ∅ features_only_data [FlatIndex] 1
  = Raised {[ "models"%string := Directory ]} (MissingPropertyType FlatIndex "Adur").
Proof.
  apply (missing_property_column_raises example_fit example_predict_row example_today
           ∅ {[ "models"%string := Directory ]}
           (record_with feature_cols 2020 1 1)
           (map (fun m => record_with feature_cols 2020 m (inject_Z m)) [2; 3; 4; 5; 6])
           FlatIndex [] 1 "models").
  - by_evaluation.
  - reflexivity.
Defined.

(** The training frame of the five-year window of the example. *)
Lemma example_training_rows_are_complete :
  exists d,
    window_frame 1 "Adur" FlatIndex example_series example_last (Some 5) = Ok d
    /\ forall r c, r ∈ rows d -> c ∈ columns example_series -> is_Some (cells r !! c).
Proof.
  destruct (is_Ok_inv (window_frame 1 "Adur" FlatIndex example_series example_last
                         (Some 5))) as [d Hd]; [vm_compute; reflexivity|].
  destruct (rows_with_any_missing_value_are_dropped 1 "Adur" FlatIndex example_series
              example_last (Some 5) d Hd) as [Hall _].
  exists d. split; [exact Hd|exact Hall].
Defined.

(** On an empty file system the example competition fits all fifteen
    combinations. *)
Lemma example_fifteen_fits :
  exists s, example_compete' ∅ example_data = Ok s /\ length (fit_log s) = 15%nat.
Proof.
  destruct (is_Ok_inv (example_compete' ∅ example_data)) as [s Hs];
    [vm_compute; reflexivity|].
  destruct (every_uncached_combination_is_fitted example_fit example_predict_row ∅
              "models" 1 "Adur" FlatIndex [] example_series example_last s Hs)
    as (_ & _ & Hlen).
  exists s. split; [exact Hs|]. rewrite Hlen. vm_compute. reflexivity.
Defined.

(** December is followed by January. *)
Lemma example_forecast_date :
  plus_one_month {| year := 2020; month := 12 |} = {| year := 2021; month := 1 |}
  /\ String.length (strftime_m_Y (plus_one_month {| year := 2020; month := 12 |}))
     = 7%nat.
Proof.
  destruct (forecast_date_is_the_next_month {| year := 2020; month := 12 |})
    as (_ & _ & Hdec & Hfmt).
  { unfold valid_ts. cbn. lia. }
  split; [by apply Hdec|].
  destruct Hfmt as (mm & yyyy & _ & _ & _ & Hlen); [cbn; lia|exact Hlen].
Defined.

(** The scraped sales of the example postcode hold no record for
    "SemiDetached". *)
Lemma example_no_semi_detached_price :
  get_current_price_paid example_strptime example_today
    (scrape example_fetch example_strptime_d_b_Y "NW1 8AB") "SemiDetached" = Some [].
Proof.
  destruct (get_current_price_paid example_strptime example_today
              (scrape example_fetch example_strptime_d_b_Y "NW1 8AB") "SemiDetached")
    as [out|] eqn:Hout; [|vm_compute in Hout; discriminate].
  f_equal.
  apply (no_price_for_other_types example_strptime example_today
           (scrape example_fetch example_strptime_d_b_Y "NW1 8AB") "SemiDetached" out);
    [|by_evaluation|exact Hout].
  intros e He.
  assert (scrape example_fetch example_strptime_d_b_Y "NW1 8AB"
          = map (refactor_row example_strptime_d_b_Y) example_history) as Hs
    by (vm_compute; reflexivity).
  rewrite Hs in He. apply list_elem_of_fmap in He as (row & -> & _).
  by exists (raw_property_type row).
Defined.

Lemma price_paid_is_some_record (o : option (list PricePaid)) :
  match o with Some (_ :: _) => true | _ => false end = true ->
  exists r rs, o = Some (r :: rs).
Proof. destruct o as [[|r rs]|]; [done|eauto|done]. Defined.

Lemma is_Done_inv {A} (r : Answer A) : is_Done r = true -> exists a, r = Done a.
Proof. destruct r; [eauto|done..]. Defined.

(** The example request is answered for Camden. *)
Lemma example_request_is_answered :
  exists r,
    example_get_pricing_data example_request = Done r
    /\ local_authority r <> EmptyString
    /\ (min_valuation r <= max_valuation r)%Q.
Proof.
  destruct (is_Done_inv (example_get_pricing_data example_request)) as [r Hr];
    [vm_compute; reflexivity|].
  destruct (answered_valuation example_find_local_authorities example_fetch
              example_strptime_d_b_Y example_strptime example_is_year_month
              example_today example_find_index example_find_forecast
              example_request r Hr) as (Hla & _ & _ & _ & Hle & _).
  exists r. split; [exact Hr|]. split; [exact Hla|exact Hle].
Defined.

Lemma example_request_is_for_a_flat :
  request_property_type example_request ∈ ["Flat"; "Detached"; "Terraced"]%string.
Proof.
  destruct (is_Done_inv (example_get_pricing_data example_request)) as [r Hr];
    [vm_compute; reflexivity|].
  by destruct (only_three_property_types_are_valued example_find_local_authorities
                 example_fetch example_strptime_d_b_Y example_strptime
                 example_is_year_month example_today example_find_index
                 example_find_forecast example_request r Hr) as [H _].
Defined.

Lemma example_recent_price :
  exists r latest,
    example_get_pricing_data example_request = Done r
    /\ month_of_transfer (recent_property_sale_history r) = strftime_Y_m latest.
Proof.
  destruct (is_Done_inv (example_get_pricing_data example_request)) as [r Hr];
    [vm_compute; reflexivity|].
  destruct (recent_price_is_a_quotient example_find_local_authorities example_fetch
              example_strptime_d_b_Y example_strptime example_is_year_month
              example_today example_find_index example_find_forecast
              example_request r Hr) as (latest & H).
  cbv zeta in H. destruct H as (_ & _ & _ & Hmonth & _).
  exists r, latest. split; [exact Hr|exact Hmonth].
Defined.

(** Revaluing through an intermediate index. *)
Lemma example_valuation_in_two_steps :
  (valuation (valuation 5000 100 105) 105 110 == valuation 5000 100 110)%Q.
Proof.
  destruct (valuation_follows_the_index_ratio 5000 100 105 110 1) as (_ & _ & _ & _ & H).
  apply H; intros Habs; apply Qeq_bool_iff in Habs; vm_compute in Habs; discriminate.
Defined.

(** The latest month of the example postcode is May 2024. *)
Lemma example_latest_month :
  exists r,
    get_current_price_paid example_strptime example_today
      (scrape example_fetch example_strptime_d_b_Y "NW1 8AB") "Flat" = Some [r]
    /\ paid_property_type r = "Flat"%string.
Proof.
  destruct (price_paid_is_some_record
              (get_current_price_paid example_strptime example_today
                 (scrape example_fetch example_strptime_d_b_Y "NW1 8AB") "Flat"))
    as (r & rs & Hr); [vm_compute; reflexivity|].
  destruct (current_price_paid_is_of_the_latest_month example_strptime example_today
              (scrape example_fetch example_strptime_d_b_Y "NW1 8AB") "Flat")
    as [_ Hout].
  destruct (Hout _ Hr) as [Hnil|(latest & r' & Heq & _ & _ & _ & Hent)];
    [discriminate|].
  cbv zeta in Hent. destruct Hent as (_ & _ & Htype & _).
  exists r'. split; [by rewrite Hr, Heq|exact Htype].
Defined.

(** The sale of the property is removed from the history of the postcode,
    and so is the entry without area. *)
Lemma example_history_without_the_sale :
  length (remove_matching_entries
            (scrape example_fetch example_strptime_d_b_Y "1 High Street")
            (scrape example_fetch example_strptime_d_b_Y "NW1 8AB")) = 1%nat
  /\ remove_matching_entries
       (scrape example_fetch example_strptime_d_b_Y "1 High Street")
       (scrape example_fetch example_strptime_d_b_Y "NW1 8AB")
     `sublist_of` scrape example_fetch example_strptime_d_b_Y "NW1 8AB".
Proof.
  split; [vm_compute; reflexivity|].
  by destruct (remove_matching_entries_keeps_the_others
                 (scrape example_fetch example_strptime_d_b_Y "1 High Street")
                 (scrape example_fetch example_strptime_d_b_Y "NW1 8AB")) as [H _].
Defined.
